(** * idt-frontend: the onboarding survey and the polling chat page

    A shallow embedding of the client logic of the repository, and what
    holds of it:

    - [Js]: the JavaScript built-ins the code calls ([trim], [Number] on
      strings);
    - [Survey]: the validation of the survey steps ([handleNextQ]);
    - [Chat]: the messages and their rendering ([formatTime],
      [formatServiceMessage]), and the chat page as a state machine: the
      [useMessages] hook with its fetch and poll effects, the scroll
      effects and the send flow of [ChatPage];
    - [SurveyForm]: the controls of the survey page and the runs of a user
      through it;
    - [Invite]: the requests of the invitation client ([addInvite],
      [deleteInvite]);
    - [Info]: the title and the body of [InfoPage];
    - [ChatView]: what the chat page shows;
    - [ChatFacts], [SurveyFacts]: the properties of the specification,
      marked C1 to C10;
    - [ChatPageFacts], [SurveyFormFacts], [InviteFacts], [InfoFacts]: further
      properties of the code, marked X1 to X26.

    Strings are Rocq strings.  A value typed by the user (name, phone,
    draft, ...) is read as one UTF-16 code unit per character, so the model
    covers field values whose code units are below 256; the literal display
    texts of the source are kept byte for byte and are only ever
    concatenated or compared with the empty string.  Numbers are integers:
    ids, counters, and scroll metrics in whole pixels; the identifier of an
    invitation, which the client prints into a path, is a safe integer. *)

From Stdlib Require Import ZArith List String Ascii Bool Lia DecimalString Sorted.
From Stdlib Require Import DecimalZ DecimalPos.
Import ListNotations.

#[local] Open Scope string_scope.
#[local] Open Scope Z_scope.

(** ** The JavaScript built-ins the page relies on *)

Module Js.

Definition codeOf (c : ascii) : N := N_of_ascii c.

(** WhiteSpace and LineTerminator code units below 256: TAB, LF, VT, FF,
    CR, SP and NBSP.  This is the set [String.prototype.trim] strips and
    the [StrWhiteSpaceChar] of the numeric string grammar. *)
Definition isWhiteSpace (c : ascii) : bool :=
  let n := codeOf c in
  ((9 <=? n) && (n <=? 13) || (n =? 32) || (n =? 160))%N.

Fixpoint trimStart (s : string) : string :=
  match s with
  | EmptyString => EmptyString
  | String c r => if isWhiteSpace c then trimStart r else s
  end.

Fixpoint trimEnd (s : string) : string :=
  match s with
  | EmptyString => EmptyString
  | String c r =>
      match trimEnd r with
      | EmptyString => if isWhiteSpace c then EmptyString else String c EmptyString
      | r' => String c r'
      end
  end.

(** [s.trim()] *)
Definition trim (s : string) : string := trimEnd (trimStart s).

(** [s === ''] *)
Definition isEmpty (s : string) : bool :=
  match s with EmptyString => true | _ => false end.

Definition inRange (lo hi c : ascii) : bool :=
  ((codeOf lo <=? codeOf c) && (codeOf c <=? codeOf hi))%N.

Definition isDecimalDigit (c : ascii) : bool := inRange "0" "9" c.
Definition isBinaryDigit (c : ascii) : bool := inRange "0" "1" c.
Definition isOctalDigit (c : ascii) : bool := inRange "0" "7" c.
Definition isHexDigit (c : ascii) : bool :=
  inRange "0" "9" c || inRange "a" "f" c || inRange "A" "F" c.

Fixpoint allChars (p : ascii -> bool) (s : string) : bool :=
  match s with
  | EmptyString => true
  | String c r => p c && allChars p r
  end.

(** One or more characters, all satisfying [p]. *)
Definition someChars (p : ascii -> bool) (s : string) : bool :=
  negb (isEmpty s) && allChars p s.

(** Drops the longest prefix of decimal digits. *)
Fixpoint skipDigits (s : string) : string :=
  match s with
  | EmptyString => EmptyString
  | String c r => if isDecimalDigit c then skipDigits r else s
  end.

Definition startsWithDigit (s : string) : bool :=
  match s with
  | EmptyString => false
  | String c _ => isDecimalDigit c
  end.

(** SignedInteger ::: DecimalDigits | + DecimalDigits | - DecimalDigits *)
Definition isSignedInteger (s : string) : bool :=
  match s with
  | String "+" r => someChars isDecimalDigit r
  | String "-" r => someChars isDecimalDigit r
  | _ => someChars isDecimalDigit s
  end.

(** ExponentPart(opt), up to the end of the string. *)
Definition isExponentPartOpt (s : string) : bool :=
  match s with
  | EmptyString => true
  | String "e" r => isSignedInteger r
  | String "E" r => isSignedInteger r
  | _ => false
  end.

(** StrUnsignedDecimalLiteral :::
      Infinity
      | DecimalDigits . DecimalDigits(opt) ExponentPart(opt)
      | . DecimalDigits ExponentPart(opt)
      | DecimalDigits ExponentPart(opt) *)
Definition isStrUnsignedDecimalLiteral (s : string) : bool :=
  if String.eqb s "Infinity" then true
  else
    match s with
    | String "." r => startsWithDigit r && isExponentPartOpt (skipDigits r)
    | _ =>
        startsWithDigit s &&
        match skipDigits s with
        | String "." r => isExponentPartOpt (skipDigits r)
        | r => isExponentPartOpt r
        end
    end.

Definition isStrDecimalLiteral (s : string) : bool :=
  match s with
  | String "+" r => isStrUnsignedDecimalLiteral r
  | String "-" r => isStrUnsignedDecimalLiteral r
  | _ => isStrUnsignedDecimalLiteral s
  end.

(** NonDecimalIntegerLiteral: 0b, 0o and 0x literals, either case. *)
Definition isNonDecimalIntegerLiteral (s : string) : bool :=
  match s with
  | String "0" (String "b" r) => someChars isBinaryDigit r
  | String "0" (String "B" r) => someChars isBinaryDigit r
  | String "0" (String "o" r) => someChars isOctalDigit r
  | String "0" (String "O" r) => someChars isOctalDigit r
  | String "0" (String "x" r) => someChars isHexDigit r
  | String "0" (String "X" r) => someChars isHexDigit r
  | _ => false
  end.

(** StringNumericLiteral :::
      StrWhiteSpace(opt)
      | StrWhiteSpace(opt) StrNumericLiteral StrWhiteSpace(opt) *)
Definition isStringNumericLiteral (s : string) : bool :=
  let t := trim s in
  isEmpty t || isStrDecimalLiteral t || isNonDecimalIntegerLiteral t.

(** [isNaN(Number(s))] for a string [s]: [Number] applies StringToNumber,
    whose result is NaN exactly when [s] is no StringNumericLiteral. *)
Definition Number_isNaN (s : string) : bool := negb (isStringNumericLiteral s).

(** [s[i]] for [i] in 0..1, as an optional character ([undefined] past
    the end). *)
Definition charAt (s : string) (i : nat) : option ascii := String.get i s.

Definition charIs (o : option ascii) (c : ascii) : bool :=
  match o with
  | Some d => Ascii.eqb d c
  | None => false
  end.

End Js.

(** ** The survey flow controller ([SurveyPage]) *)

Module Survey.

(** What the phone input stores.  The field starts as the empty string and
    is bound to a [NumberInput], whose [onChange] hands over a string or a
    number ([number | string]): the page stores either one under [phone]. *)
Inductive StringOrNumber :=
| Str (s : string)
| Num (n : Z).

(** The form values.  A number input that is compared as a number holds a
    number or, once cleared, the empty string: [None] stands for the
    cleared input.  [level] is filled through the paths [level.0],
    [level.1], ..., which leaves holes at the indices never written: [None]
    stands for a hole. *)
Record FormValues := {
  name : string;
  phone : StringOrNumber;
  nickname : string;
  gender : string;
  birthday : Z;
  height : option Z;
  weight : option Z;
  interests : list string;
  avgHours : option Z;
  regularTime : list string;
  level : list (option string)
}.

Definition initialValues : FormValues :=
  {| name := ""; phone := Str ""; nickname := ""; gender := "";
     birthday := 946684800000; height := Some 160; weight := Some 50;
     interests := []; avgHours := Some 10; regularTime := []; level := [] |}.

Definition setLevel (l : list (option string)) (f : FormValues) : FormValues :=
  {| name := name f; phone := phone f; nickname := nickname f;
     gender := gender f; birthday := birthday f; height := height f;
     weight := weight f; interests := interests f; avgHours := avgHours f;
     regularTime := regularTime f; level := l |}.

Record Notification := {
  color : string;
  title : string;
  message : string
}.

Record State := {
  qnum : Z;
  privacyCheck : bool;
  values : FormValues
}.

(** What a call can throw: the TypeError of calling a method that the
    receiver does not have. *)
Inductive Exception := TypeError.

(** How a call ends: it returns a value or it throws. *)
Inductive Completion (A : Type) : Type :=
| Normal (a : A)
| Throw (e : Exception).

Arguments Normal {A} a.
Arguments Throw {A} e.

Definition setQnum (q : Z) (s : State) : State :=
  {| qnum := q; privacyCheck := privacyCheck s; values := values s |}.

Definition setValues (f : FormValues) (s : State) : State :=
  {| qnum := qnum s; privacyCheck := privacyCheck s; values := f |}.

(** A number input compared with a number: the cleared input converts
    to 0. *)
Definition toNumber (v : option Z) : Z :=
  match v with Some n => n | None => 0 end.

(** [errorMessage += (errorMessage === '') ? first : rest] *)
Definition addField (errorMessage first rest : string) : string :=
  errorMessage ++ (if Js.isEmpty errorMessage then first else rest).

(** [a.filter(() => true)]: the callback is not called on holes. *)
Definition filterTrue {A} (a : list (option A)) : list A :=
  flat_map (fun x => match x with Some v => [v] | None => [] end) a.

(** The phone test of step 1:
    [f.phone.length !== 10 || isNaN(Number(f.phone))
      || f.phone[0] !== '0' || f.phone[1] !== '9'].
    A number has no [length]: [f.phone.length] is [undefined], which is not
    10. *)
Definition phoneRejected (v : StringOrNumber) : bool :=
  match v with
  | Str p =>
      negb (Nat.eqb (String.length p) 10)
      || Js.Number_isNaN p
      || negb (Js.charIs (Js.charAt p 0) "0")
      || negb (Js.charIs (Js.charAt p 1) "9")
  | Num _ => true
  end.

(** The four blank tests of step 1, in the order of the source.  A number
    has no [trim]: [f.phone.trim()] throws a TypeError when [phone] holds a
    number, after the test of the name and before anything is shown or
    set. *)
Definition step1Blank (f : FormValues) : Completion string :=
  let e0 := "" in
  let e1 := if Js.isEmpty (Js.trim (name f)) then e0 ++ "姓名" else e0 in
  match phone f with
  | Num _ => Throw TypeError
  | Str p =>
      let e2 := if Js.isEmpty (Js.trim p) then addField e1 "手機" "、手機" else e1 in
      let e3 := if Js.isEmpty (Js.trim (nickname f)) then addField e2 "暱稱" "、暱稱" else e2 in
      Normal (if Js.isEmpty (Js.trim (gender f)) then addField e3 "性別" "、性別" else e3)
  end.

Definition step3Blank (f : FormValues) : string :=
  let e0 := "" in
  let e1 := if Nat.eqb (List.length (interests f)) 0 then addField e0 "興趣" "、興趣" else e0 in
  let e2 := match avgHours f with None => addField e1 "運動時長" "、運動時長" | Some _ => e1 end in
  if Nat.eqb (List.length (regularTime f)) 0 then addField e2 "運動時段" "、運動時段" else e2.

(** The final [if (qnum < 6) setQnum(qnum+1)]. *)
Definition advance (s : State) : State :=
  if qnum s <? 6 then setQnum (qnum s + 1) s else s.

Definition reject (s : State) (n : Notification)
  : Completion (State * option Notification) :=
  Normal (s, Some n).

(** [handleNextQ]: when the call returns, the state after it and the
    notification shown, if any.  The call throws where [f.phone.trim()]
    does, at step 1, before it has set or shown anything. *)
Definition handleNextQ (s : State) : Completion (State * option Notification) :=
  let f := values s in
  if qnum s =? 0 then
    if negb (privacyCheck s) then
      reject s {| color := "red"; title := "請詳閱隱私群政策！";
                  message := "閱讀完記得勾選方框表示同意喔～" |}
    else Normal (advance s, None)
  else if qnum s =? 1 then
    match step1Blank f with
    | Throw e => Throw e
    | Normal errorMessage =>
        if negb (Js.isEmpty errorMessage) then
          reject s {| color := "red"; title := "尚有欄位未填寫！";
                      message := errorMessage ++ "不可空白" |}
        else if phoneRejected (phone f) then
          reject s {| color := "red"; title := "手機號碼不正確！";
                      message := "請再檢查一次您的手機號碼" |}
        else Normal (advance s, None)
    end
  else if qnum s =? 2 then
    if (toNumber (height f) <? 30) || (toNumber (weight f) <? 15) then
      reject s {| color := "red"; title := "身高或體重可能不正確！";
                  message := "請再檢查一次您輸入的身高、體重～" |}
    else Normal (advance s, None)
  else if qnum s =? 3 then
    let errorMessage := step3Blank f in
    if negb (Js.isEmpty errorMessage) then
      reject s {| color := "red"; title := "尚有欄位未填寫！";
                  message := errorMessage ++ "不可空白" |}
    else if 168 <=? toNumber (avgHours f) then
      reject s {| color := "red"; title := "每週平均時長錯誤！";
                  message := "再檢查一次吧～" |}
    else Normal (advance (setValues (setLevel [] f) s), None)
  else if qnum s =? 4 then
    if negb (Nat.eqb (List.length (interests f)) (List.length (filterTrue (level f)))) then
      reject s {| color := "red"; title := "尚有欄位未填寫喔！";
                  message := "再檢查一遍是否所有題目都填寫了吧！" |}
    else Normal (advance s, None)
  else Normal (advance s, None).

(** The back button: [setQnum(qnum-1)]. *)
Definition handleBack (s : State) : State := setQnum (qnum s - 1) s.

(** The phone shape of the survey: ten characters, all decimal digits, the
    first two 0 and 9. *)
Definition isMobileNumber (p : string) : bool :=
  Nat.eqb (String.length p) 10
  && Js.charIs (Js.charAt p 0) "0" && Js.charIs (Js.charAt p 1) "9"
  && Js.allChars Js.isDecimalDigit p.

Definition atStep (q : Z) (pc : bool) (f : FormValues) : State :=
  {| qnum := q; privacyCheck := pc; values := f |}.

Definition sampleForm (p : string) (i : list string) (l : list (option string))
  : FormValues :=
  {| name := "Lin"; phone := Str p; nickname := "lin"; gender := "F";
     birthday := 946684800000; height := Some 160; weight := Some 50;
     interests := i; avgHours := Some 10; regularTime := ["1"]; level := l |}.

(** The fields of step 1 filled in, the phone number typed without its
    leading zero: the number input stores such an entry as a number. *)
Definition numberPhoneForm : FormValues :=
  {| name := "Lin"; phone := Num 912345678; nickname := "lin"; gender := "女";
     birthday := 946684800000; height := Some 160; weight := Some 50;
     interests := []; avgHours := Some 10; regularTime := []; level := [] |}.

End Survey.

(** ** The chat page: messages and their rendering *)

Module Chat.

Record Sender := {
  sender_id : Z;
  nickname : string
}.

Record Message := {
  id : Z;
  from : Sender;
  createdAt : Z;
  type : Z;
  content : option string
}.

(** What one entry of [messages.map] renders: an ordinary bubble (sender
    name unless the message is the user's own, content, time) or a service
    line (event text, time).  [self] and the constructor stand for the
    class names [styles.self] and [styles.service]. *)
Inductive Bubble :=
| OrdinaryBubble (self : bool) (shownName : option string)
    (text : option string) (time : string)
| ServiceBubble (self : bool) (text : option string) (time : string).

(** [String(n)] for an hour or a minute count. *)
Definition decimal (n : Z) : string :=
  DecimalString.NilZero.string_of_uint (N.to_uint (Z.to_N n)).

(** [s.padStart(2, '0')] *)
Definition padStart2 (s : string) : string :=
  if Nat.ltb (String.length s) 2 then "0" ++ s else s.

Section Rendering.

(** The numeric tags of [MessageType], declared in [@/constants]. *)
Variables InviteCreated UserJoined : Z.

(** [Date.prototype.getHours] and [getMinutes] of [new Date(time)], in
    the browser's time zone: an hour in 0..23 and a minute in 0..59. *)
Variables getHours getMinutes : Z -> Z.

Definition formatTime (time : Z) : string :=
  let h := getHours time in
  let m := getMinutes time in
  let amPm := if 12 <=? h then "下午" else "上午" in
  let h := h mod 12 in
  let h := if h =? 0 then 12 else h in
  amPm ++ " " ++ decimal h ++ ":" ++ padStart2 (decimal m).

(** [None] is the [undefined] a call returns that falls off the end of
    the function. *)
Definition formatServiceMessage (m : Message) : option string :=
  if type m =? InviteCreated then Some (nickname (from m) ++ "已發起邀約")
  else if type m =? UserJoined then Some (nickname (from m) ++ "已加入邀約")
  else None.

(** The body of [messages.map((m) => ...)]; [userId] is [user?.id]. *)
Definition renderMessage (userId : option Z) (m : Message) : Bubble :=
  let isSelf :=
    match userId with
    | Some u => sender_id (from m) =? u
    | None => false
    end in
  let isService := negb (type m =? 0) in
  if isService then
    ServiceBubble isSelf (formatServiceMessage m) (formatTime (createdAt m))
  else
    OrdinaryBubble isSelf
      (if isSelf then None else Some (nickname (from m)))
      (content m) (formatTime (createdAt m)).

End Rendering.

(** *** The page as a state machine

    One [Page] value is one [ChatPage] instance: the state cells of
    [useMessages] and of the page, what the page reads from its
    environment (the route's chat identifier, the scrolling element, the
    position object of [useWindowScroll]), and the runtime objects its
    closures own (the [canceled] flag of every fetch still awaited, the
    cleanup of the fetch effect, the poll interval, the posts still
    awaited).

    The page moves by events: the route changes, the poll interval ticks, a
    request settles, the window scrolls, the user types, presses a key or
    clicks the send button, the page is unmounted.  An event runs its
    handler; React then renders and runs the effects whose dependencies
    changed, again and again until nothing changes.  State setters called
    in one handler or in one round of effects take effect together, at the
    next render; an effect reads the state cells of the render it was
    created in.

    Left out: the effect on [[error]], which only asks the router to leave
    the page on a 401 and writes no state cell; the title of the page and
    the invitation it is read from. *)

(** What an awaited request may throw. *)
Inductive Failure :=
| HTTPError (status : Z)
| OtherError (what : string).

Inductive Response :=
| Resolved (m : list Message)
| Rejected (e : Failure).

(** [document.scrollingElement], as far as the page reads it. *)
Record ScrollEl := {
  scrollHeight : Z;
  clientHeight : Z;
  scrollTop : Z
}.

(** One call of [go] that is still awaiting its request: what its closure
    captured ([chatId], [messages] and the [sinceId] computed from it) and
    the [canceled] variable of the effect run that made the call. *)
Record Fetch := {
  rid : nat;
  f_chatId : string;
  f_sinceId : Z;
  f_messages : option (list Message);
  canceled : bool
}.

Definition cancel (f : Fetch) : Fetch :=
  {| rid := rid f; f_chatId := f_chatId f; f_sinceId := f_sinceId f;
     f_messages := f_messages f; canceled := true |}.

(** [chatId] is the empty string when the route has none yet (both are
    falsy).  [pos] stamps the position object of [useWindowScroll], which
    every scroll or resize event replaces.  [cleanup] names the fetch the
    pending cleanup of the fetch effect would cancel. *)
Record Page := {
  chatId : string;
  scrollEl : option ScrollEl;
  pos : nat;
  mounted : bool;
  isLoading : bool;
  error : option Failure;
  reloadCounter : Z;
  messages : option (list Message);
  composingMessage : string;
  firstScroll : bool;
  autoScroll : bool;
  lastAutoScrolledMessageId : Z;
  isSendingMessage : bool;
  inflight : list Fetch;
  cleanup : option nat;
  interval : bool;
  posting : list nat;
  nextReq : nat
}.

Definition set_chatId (v : string) (p : Page) : Page :=
  {| chatId := v; scrollEl := scrollEl p; pos := pos p; mounted := mounted p;
     isLoading := isLoading p; error := error p; reloadCounter := reloadCounter p;
     messages := messages p; composingMessage := composingMessage p;
     firstScroll := firstScroll p; autoScroll := autoScroll p;
     lastAutoScrolledMessageId := lastAutoScrolledMessageId p;
     isSendingMessage := isSendingMessage p; inflight := inflight p;
     cleanup := cleanup p; interval := interval p; posting := posting p;
     nextReq := nextReq p |}.

Definition set_scrollEl (v : option ScrollEl) (p : Page) : Page :=
  {| chatId := chatId p; scrollEl := v; pos := pos p; mounted := mounted p;
     isLoading := isLoading p; error := error p; reloadCounter := reloadCounter p;
     messages := messages p; composingMessage := composingMessage p;
     firstScroll := firstScroll p; autoScroll := autoScroll p;
     lastAutoScrolledMessageId := lastAutoScrolledMessageId p;
     isSendingMessage := isSendingMessage p; inflight := inflight p;
     cleanup := cleanup p; interval := interval p; posting := posting p;
     nextReq := nextReq p |}.

Definition set_pos (v : nat) (p : Page) : Page :=
  {| chatId := chatId p; scrollEl := scrollEl p; pos := v; mounted := mounted p;
     isLoading := isLoading p; error := error p; reloadCounter := reloadCounter p;
     messages := messages p; composingMessage := composingMessage p;
     firstScroll := firstScroll p; autoScroll := autoScroll p;
     lastAutoScrolledMessageId := lastAutoScrolledMessageId p;
     isSendingMessage := isSendingMessage p; inflight := inflight p;
     cleanup := cleanup p; interval := interval p; posting := posting p;
     nextReq := nextReq p |}.

Definition set_mounted (v : bool) (p : Page) : Page :=
  {| chatId := chatId p; scrollEl := scrollEl p; pos := pos p; mounted := v;
     isLoading := isLoading p; error := error p; reloadCounter := reloadCounter p;
     messages := messages p; composingMessage := composingMessage p;
     firstScroll := firstScroll p; autoScroll := autoScroll p;
     lastAutoScrolledMessageId := lastAutoScrolledMessageId p;
     isSendingMessage := isSendingMessage p; inflight := inflight p;
     cleanup := cleanup p; interval := interval p; posting := posting p;
     nextReq := nextReq p |}.

Definition set_isLoading (v : bool) (p : Page) : Page :=
  {| chatId := chatId p; scrollEl := scrollEl p; pos := pos p; mounted := mounted p;
     isLoading := v; error := error p; reloadCounter := reloadCounter p;
     messages := messages p; composingMessage := composingMessage p;
     firstScroll := firstScroll p; autoScroll := autoScroll p;
     lastAutoScrolledMessageId := lastAutoScrolledMessageId p;
     isSendingMessage := isSendingMessage p; inflight := inflight p;
     cleanup := cleanup p; interval := interval p; posting := posting p;
     nextReq := nextReq p |}.

Definition set_error (v : option Failure) (p : Page) : Page :=
  {| chatId := chatId p; scrollEl := scrollEl p; pos := pos p; mounted := mounted p;
     isLoading := isLoading p; error := v; reloadCounter := reloadCounter p;
     messages := messages p; composingMessage := composingMessage p;
     firstScroll := firstScroll p; autoScroll := autoScroll p;
     lastAutoScrolledMessageId := lastAutoScrolledMessageId p;
     isSendingMessage := isSendingMessage p; inflight := inflight p;
     cleanup := cleanup p; interval := interval p; posting := posting p;
     nextReq := nextReq p |}.

Definition set_reloadCounter (v : Z) (p : Page) : Page :=
  {| chatId := chatId p; scrollEl := scrollEl p; pos := pos p; mounted := mounted p;
     isLoading := isLoading p; error := error p; reloadCounter := v;
     messages := messages p; composingMessage := composingMessage p;
     firstScroll := firstScroll p; autoScroll := autoScroll p;
     lastAutoScrolledMessageId := lastAutoScrolledMessageId p;
     isSendingMessage := isSendingMessage p; inflight := inflight p;
     cleanup := cleanup p; interval := interval p; posting := posting p;
     nextReq := nextReq p |}.

Definition set_messages (v : option (list Message)) (p : Page) : Page :=
  {| chatId := chatId p; scrollEl := scrollEl p; pos := pos p; mounted := mounted p;
     isLoading := isLoading p; error := error p; reloadCounter := reloadCounter p;
     messages := v; composingMessage := composingMessage p;
     firstScroll := firstScroll p; autoScroll := autoScroll p;
     lastAutoScrolledMessageId := lastAutoScrolledMessageId p;
     isSendingMessage := isSendingMessage p; inflight := inflight p;
     cleanup := cleanup p; interval := interval p; posting := posting p;
     nextReq := nextReq p |}.

Definition set_composingMessage (v : string) (p : Page) : Page :=
  {| chatId := chatId p; scrollEl := scrollEl p; pos := pos p; mounted := mounted p;
     isLoading := isLoading p; error := error p; reloadCounter := reloadCounter p;
     messages := messages p; composingMessage := v; firstScroll := firstScroll p;
     autoScroll := autoScroll p;
     lastAutoScrolledMessageId := lastAutoScrolledMessageId p;
     isSendingMessage := isSendingMessage p; inflight := inflight p;
     cleanup := cleanup p; interval := interval p; posting := posting p;
     nextReq := nextReq p |}.

Definition set_firstScroll (v : bool) (p : Page) : Page :=
  {| chatId := chatId p; scrollEl := scrollEl p; pos := pos p; mounted := mounted p;
     isLoading := isLoading p; error := error p; reloadCounter := reloadCounter p;
     messages := messages p; composingMessage := composingMessage p;
     firstScroll := v; autoScroll := autoScroll p;
     lastAutoScrolledMessageId := lastAutoScrolledMessageId p;
     isSendingMessage := isSendingMessage p; inflight := inflight p;
     cleanup := cleanup p; interval := interval p; posting := posting p;
     nextReq := nextReq p |}.

Definition set_autoScroll (v : bool) (p : Page) : Page :=
  {| chatId := chatId p; scrollEl := scrollEl p; pos := pos p; mounted := mounted p;
     isLoading := isLoading p; error := error p; reloadCounter := reloadCounter p;
     messages := messages p; composingMessage := composingMessage p;
     firstScroll := firstScroll p; autoScroll := v;
     lastAutoScrolledMessageId := lastAutoScrolledMessageId p;
     isSendingMessage := isSendingMessage p; inflight := inflight p;
     cleanup := cleanup p; interval := interval p; posting := posting p;
     nextReq := nextReq p |}.

Definition set_lastAutoScrolledMessageId (v : Z) (p : Page) : Page :=
  {| chatId := chatId p; scrollEl := scrollEl p; pos := pos p; mounted := mounted p;
     isLoading := isLoading p; error := error p; reloadCounter := reloadCounter p;
     messages := messages p; composingMessage := composingMessage p;
     firstScroll := firstScroll p; autoScroll := autoScroll p;
     lastAutoScrolledMessageId := v; isSendingMessage := isSendingMessage p;
     inflight := inflight p; cleanup := cleanup p; interval := interval p;
     posting := posting p; nextReq := nextReq p |}.

Definition set_isSendingMessage (v : bool) (p : Page) : Page :=
  {| chatId := chatId p; scrollEl := scrollEl p; pos := pos p; mounted := mounted p;
     isLoading := isLoading p; error := error p; reloadCounter := reloadCounter p;
     messages := messages p; composingMessage := composingMessage p;
     firstScroll := firstScroll p; autoScroll := autoScroll p;
     lastAutoScrolledMessageId := lastAutoScrolledMessageId p; isSendingMessage := v;
     inflight := inflight p; cleanup := cleanup p; interval := interval p;
     posting := posting p; nextReq := nextReq p |}.

Definition set_inflight (v : list Fetch) (p : Page) : Page :=
  {| chatId := chatId p; scrollEl := scrollEl p; pos := pos p; mounted := mounted p;
     isLoading := isLoading p; error := error p; reloadCounter := reloadCounter p;
     messages := messages p; composingMessage := composingMessage p;
     firstScroll := firstScroll p; autoScroll := autoScroll p;
     lastAutoScrolledMessageId := lastAutoScrolledMessageId p;
     isSendingMessage := isSendingMessage p; inflight := v; cleanup := cleanup p;
     interval := interval p; posting := posting p; nextReq := nextReq p |}.

Definition set_cleanup (v : option nat) (p : Page) : Page :=
  {| chatId := chatId p; scrollEl := scrollEl p; pos := pos p; mounted := mounted p;
     isLoading := isLoading p; error := error p; reloadCounter := reloadCounter p;
     messages := messages p; composingMessage := composingMessage p;
     firstScroll := firstScroll p; autoScroll := autoScroll p;
     lastAutoScrolledMessageId := lastAutoScrolledMessageId p;
     isSendingMessage := isSendingMessage p; inflight := inflight p; cleanup := v;
     interval := interval p; posting := posting p; nextReq := nextReq p |}.

Definition set_interval (v : bool) (p : Page) : Page :=
  {| chatId := chatId p; scrollEl := scrollEl p; pos := pos p; mounted := mounted p;
     isLoading := isLoading p; error := error p; reloadCounter := reloadCounter p;
     messages := messages p; composingMessage := composingMessage p;
     firstScroll := firstScroll p; autoScroll := autoScroll p;
     lastAutoScrolledMessageId := lastAutoScrolledMessageId p;
     isSendingMessage := isSendingMessage p; inflight := inflight p;
     cleanup := cleanup p; interval := v; posting := posting p;
     nextReq := nextReq p |}.

Definition set_posting (v : list nat) (p : Page) : Page :=
  {| chatId := chatId p; scrollEl := scrollEl p; pos := pos p; mounted := mounted p;
     isLoading := isLoading p; error := error p; reloadCounter := reloadCounter p;
     messages := messages p; composingMessage := composingMessage p;
     firstScroll := firstScroll p; autoScroll := autoScroll p;
     lastAutoScrolledMessageId := lastAutoScrolledMessageId p;
     isSendingMessage := isSendingMessage p; inflight := inflight p;
     cleanup := cleanup p; interval := interval p; posting := v;
     nextReq := nextReq p |}.

Definition set_nextReq (v : nat) (p : Page) : Page :=
  {| chatId := chatId p; scrollEl := scrollEl p; pos := pos p; mounted := mounted p;
     isLoading := isLoading p; error := error p; reloadCounter := reloadCounter p;
     messages := messages p; composingMessage := composingMessage p;
     firstScroll := firstScroll p; autoScroll := autoScroll p;
     lastAutoScrolledMessageId := lastAutoScrolledMessageId p;
     isSendingMessage := isSendingMessage p; inflight := inflight p;
     cleanup := cleanup p; interval := interval p; posting := posting p;
     nextReq := v |}.

(** The outside world as the page acts on it.  [FirstScroll] and
    [AutoScroll] are both [window.scrollTo({ top: maxScrollTop })]; the
    constructor records the effect that issued the call and, for the
    second, the newest message id it was issued for. *)
Inductive Action :=
| Get (chat : string) (sinceId : Z)
| Post (chat : string) (text : string)
| ConsoleError (e : Failure)
| FirstScroll
| AutoScroll (newest : Z).

(** What happens to the page.  [RouteChange chat]: [router.query.chatId]
    becomes [chat].  [FetchSettled r res] and [PostSettled r failure]: the
    request numbered [r] resolves or rejects.  [WindowScroll el]: a scroll
    or resize event, or the first effect of [useWindowScroll], replaces the
    position object; [el] is the scrolling element as the effects then read
    it.  [KeyDown] carries [ev.nativeEvent.isComposing], [ev.keyCode] and
    [ev.key]. *)
Inductive Event :=
| RouteChange (chat : string)
| IntervalTick
| FetchSettled (r : nat) (res : Response)
| WindowScroll (el : option ScrollEl)
| Input (value : string)
| KeyDown (isComposing : bool) (keyCode : Z) (key : string)
| ClickSend
| PostSettled (r : nat) (failure : option Failure)
| Unmount.

(** [ms.length ? ms[ms.length - 1].id : 0] *)
Fixpoint lastId (ms : list Message) : Z :=
  match ms with
  | [] => 0
  | [m] => id m
  | _ :: r => lastId r
  end.

(** [messages && messages.length ? messages[messages.length - 1].id : 0],
    the [sinceId] of [go] and the [lastMessageId] of the page. *)
Definition lastIdOf (messages : option (list Message)) : Z :=
  match messages with
  | Some ms => lastId ms
  | None => 0
  end.

Definition lastMessageId (p : Page) : Z := lastIdOf (messages p).

Definition isSome {A} (o : option A) : bool :=
  match o with Some _ => true | None => false end.

Definition nonEmpty {A} (l : list A) : bool :=
  match l with [] => false | _ => true end.

(** A state setter called on a page that was unmounted does nothing. *)
Definition setState (u : Page -> Page) (p : Page) : Page :=
  if mounted p then u p else p.

(** **** Effects

    An effect runs against the render it was created in ([s], whose state
    cells and props it reads) and updates the page being built for the
    next render ([acc]). *)

Definition cancelFetch (r : nat) (fs : list Fetch) : list Fetch :=
  map (fun f => if Nat.eqb (rid f) r then cancel f else f) fs.

Definition runCleanup (acc : Page) : Page :=
  match cleanup acc with
  | Some r => set_cleanup None (set_inflight (cancelFetch r (inflight acc)) acc)
  | None => acc
  end.

(** The effect on [[chatId, reloadCounter]]: the cleanup of its previous
    run, then [go()] up to its [await]. *)
Definition fetchEffect (s acc : Page) : Page * list Action :=
  let acc := runCleanup acc in
  if Js.isEmpty (chatId s) then (acc, [])
  else
    let sinceId := lastIdOf (messages s) in
    let f := {| rid := nextReq acc; f_chatId := chatId s; f_sinceId := sinceId;
                f_messages := messages s; canceled := false |} in
    let acc := set_inflight (inflight acc ++ [f]) acc in
    let acc := set_nextReq (S (nextReq acc)) acc in
    let acc := set_cleanup (Some (rid f)) acc in
    let acc := set_isLoading true acc in
    let acc := set_error None acc in
    (acc, [Get (chatId s) sinceId]).

(** The effect on [[isLoading]]: [clearInterval], then [setInterval]
    unless loading. *)
Definition pollEffect (s acc : Page) : Page * list Action :=
  (set_interval (negb (isLoading s)) acc, []).

(** The effect on [[firstScroll, messages, isLoading]]. *)
Definition firstScrollEffect (s acc : Page) : Page * list Action :=
  if negb (firstScroll s) then (acc, [])
  else if negb (isSome (messages s)) then (acc, [])
  else if isLoading s then (acc, [])
  else if negb (isSome (scrollEl s)) then (acc, [])
  else (set_firstScroll false acc, [FirstScroll]).

(** [maxScrollTop - scrollEl.scrollTop] *)
Definition distanceFromBottom (el : ScrollEl) : Z :=
  (scrollHeight el - clientHeight el) - scrollTop el.

(** The effect on [[pos]]. *)
Definition trackScrollEffect (s acc : Page) : Page * list Action :=
  match scrollEl s with
  | None => (acc, [])
  | Some el => (set_autoScroll (distanceFromBottom el <? 64) acc, [])
  end.

(** The effect on [[lastMessageId, autoScroll, lastAutoScrolledMessageId]]. *)
Definition autoScrollEffect (s acc : Page) : Page * list Action :=
  if negb (autoScroll s) then (acc, [])
  else if negb (isSome (scrollEl s)) then (acc, [])
  else if lastMessageId s =? lastAutoScrolledMessageId s then (acc, [])
  else (set_lastAutoScrolledMessageId (lastMessageId s) acc,
        [AutoScroll (lastMessageId s)]).

(** **** Dependency arrays

    React re-runs an effect after a render when one of its dependencies is
    not the value of the previous render, and runs every effect after the
    first render.  React compares objects by identity; the message list is
    compared by content here, which is the same for the lists the page
    installs: [go] replaces [None] by a list or a list by a longer one. *)

Definition Sender_eq_dec (a b : Sender) : {a = b} + {a <> b}.
Proof. decide equality; [apply string_dec | apply Z.eq_dec]. Defined.

Definition Message_eq_dec (a b : Message) : {a = b} + {a <> b}.
Proof.
  decide equality;
    try apply Z.eq_dec; try apply Sender_eq_dec.
  decide equality; apply string_dec.
Defined.

Definition messages_eq_dec (a b : option (list Message)) : {a = b} + {a <> b}.
Proof. decide equality; apply list_eq_dec, Message_eq_dec. Defined.

Definition changed {A} (dec : forall x y : A, {x = y} + {x <> y})
    (dep : Page -> A) (prev : option Page) (s : Page) : bool :=
  match prev with
  | None => true
  | Some q => if dec (dep q) (dep s) then false else true
  end.

Definition fetchDepsChanged (prev : option Page) (s : Page) : bool :=
  changed string_dec chatId prev s || changed Z.eq_dec reloadCounter prev s.

Definition pollDepsChanged (prev : option Page) (s : Page) : bool :=
  changed bool_dec isLoading prev s.

Definition firstScrollDepsChanged (prev : option Page) (s : Page) : bool :=
  changed bool_dec firstScroll prev s || changed messages_eq_dec messages prev s
  || changed bool_dec isLoading prev s.

Definition trackScrollDepsChanged (prev : option Page) (s : Page) : bool :=
  changed Nat.eq_dec pos prev s.

Definition autoScrollDepsChanged (prev : option Page) (s : Page) : bool :=
  changed Z.eq_dec lastMessageId prev s || changed bool_dec autoScroll prev s
  || changed Z.eq_dec lastAutoScrolledMessageId prev s.

(** Runs [eff] when its dependencies changed, after what ran before it. *)
Definition runIf (b : bool) (eff : Page -> Page -> Page * list Action)
    (s : Page) (st : Page * list Action) : Page * list Action :=
  if b then
    let '(acc, out) := eff s (fst st) in (acc, (snd st ++ out)%list)
  else st.

(** The effects of one render [s], in the order the hooks are called; the
    previous render is [prev], [None] for the first one.  The result is the
    page of the next render. *)
Definition commit (prev : option Page) (s : Page) : Page * list Action :=
  let st := (s, []) in
  let st := runIf (fetchDepsChanged prev s) fetchEffect s st in
  let st := runIf (pollDepsChanged prev s) pollEffect s st in
  let st := runIf (firstScrollDepsChanged prev s) firstScrollEffect s st in
  let st := runIf (trackScrollDepsChanged prev s) trackScrollEffect s st in
  runIf (autoScrollDepsChanged prev s) autoScrollEffect s st.

(** Render and run effects, [n] times over. *)
Fixpoint settle (n : nat) (prev : option Page) (s : Page) : Page * list Action :=
  match n with
  | O => (s, [])
  | S k =>
      let '(s1, out1) := commit prev s in
      let '(s2, out2) := settle k (Some s) s1 in
      (s2, (out1 ++ out2)%list)
  end.

(** Two rounds bring every page to rest: a third one would run no effect
    that does anything (see [settle_rest]). *)
Definition rounds : nat := 2.

(** **** Handlers *)

Definition findFetch (r : nat) (fs : list Fetch) : option Fetch :=
  find (fun f => Nat.eqb (rid f) r) fs.

Definition dropFetch (r : nat) (fs : list Fetch) : list Fetch :=
  filter (fun f => negb (Nat.eqb (rid f) r)) fs.

(** [setMessages((oldM) => (oldM ? oldM.concat(m) : m))] *)
Definition appendMessages (m : list Message) (p : Page) : Page :=
  set_messages
    (Some (match messages p with Some oldM => (oldM ++ m)%list | None => m end)) p.

(** What [go] does once its request settles. *)
Definition resume (f : Fetch) (res : Response) (p : Page) : Page * list Action :=
  match res with
  | Resolved m =>
      if canceled f then (p, [])
      else
        let p :=
          if negb (isSome (f_messages f)) || nonEmpty m
          then setState (appendMessages m) p else p in
        (setState (set_isLoading false) p, [])
  | Rejected e =>
      let p := setState (set_error (Some e)) p in
      (setState (set_isLoading false) p, [ConsoleError e])
  end.

(** [send] up to its [await]. *)
Definition send (p : Page) : Page * list Action :=
  if isSendingMessage p then (p, [])
  else
    let p := set_isSendingMessage true p in
    let r := nextReq p in
    let p := set_posting (posting p ++ [r]) p in
    let p := set_nextReq (S r) p in
    (p, [Post (chatId p) (composingMessage p)]).

(** What [send] does once its request settles; [reload()] is
    [setReloadCounter((c) => c + 1)]. *)
Definition resumeSend (failure : option Failure) (p : Page) : Page * list Action :=
  match failure with
  | None =>
      let p := setState (set_autoScroll true) p in
      let p := setState (fun q => set_reloadCounter (reloadCounter q + 1) q) p in
      let p := setState (set_composingMessage "") p in
      (setState (set_isSendingMessage false) p, [])
  | Some e =>
      (setState (set_isSendingMessage false) p, [ConsoleError e])
  end.

Definition handleKeyDown (isComposing : bool) (keyCode : Z) (key : string)
    (p : Page) : Page * list Action :=
  if negb (isComposing || (keyCode =? 229))
     && String.eqb key "Enter"
     && negb (Js.isEmpty (Js.trim (composingMessage p)))
  then send p else (p, []).

Definition removeNat (r : nat) (l : list nat) : list nat :=
  filter (fun x => negb (Nat.eqb x r)) l.

Definition memNat (r : nat) (l : list nat) : bool :=
  existsb (Nat.eqb r) l.

(** The handler of one event, before React renders again.  Requests settle
    whether or not the page is still mounted; everything else only reaches
    a mounted page, and the input and the send button are disabled while a
    message is being sent. *)
Definition handle (p : Page) (ev : Event) : Page * list Action :=
  match ev with
  | FetchSettled r res =>
      match findFetch r (inflight p) with
      | Some f => resume f res (set_inflight (dropFetch r (inflight p)) p)
      | None => (p, [])
      end
  | PostSettled r failure =>
      if memNat r (posting p)
      then resumeSend failure (set_posting (removeNat r (posting p)) p)
      else (p, [])
  | _ =>
      if negb (mounted p) then (p, [])
      else
        match ev with
        | RouteChange chat => (set_chatId chat p, [])
        | IntervalTick =>
            if interval p
            then (set_reloadCounter (reloadCounter p + 1) p, [])
            else (p, [])
        | WindowScroll el => (set_pos (S (pos p)) (set_scrollEl el p), [])
        | Input value =>
            if isSendingMessage p then (p, [])
            else (set_composingMessage value p, [])
        | KeyDown isComposing keyCode key =>
            if isSendingMessage p then (p, [])
            else handleKeyDown isComposing keyCode key p
        | ClickSend =>
            if isSendingMessage p then (p, []) else send p
        | Unmount =>
            (set_mounted false (set_interval false (runCleanup p)), [])
        | _ => (p, [])
        end
  end.

(** One event: its handler, then renders and effects until the page is at
    rest. *)
Definition step (p : Page) (ev : Event) : Page * list Action :=
  let '(p1, out1) := handle p ev in
  let '(p2, out2) := settle rounds (Some p) p1 in
  (p2, (out1 ++ out2)%list).

(** The initial values of the state cells. *)
Definition initialPage (chat : string) (el : option ScrollEl) : Page :=
  {| chatId := chat; scrollEl := el; pos := O; mounted := true;
     isLoading := true; error := None; reloadCounter := 0; messages := None;
     composingMessage := ""; firstScroll := true; autoScroll := true;
     lastAutoScrolledMessageId := -1; isSendingMessage := false;
     inflight := []; cleanup := None; interval := false; posting := [];
     nextReq := O |}.

(** The first render and its effects. *)
Definition mount (chat : string) (el : option ScrollEl) : Page * list Action :=
  settle rounds None (initialPage chat el).

(** A run of events from page [p]: the final page and everything done
    along the way. *)
Fixpoint run (p : Page) (evs : list Event) : Page * list Action :=
  match evs with
  | [] => (p, [])
  | ev :: rest =>
      let '(p1, out1) := step p ev in
      let '(p2, out2) := run p1 rest in
      (p2, (out1 ++ out2)%list)
  end.

Definition runFromMount (chat : string) (el : option ScrollEl)
    (evs : list Event) : Page * list Action :=
  let '(p0, out0) := mount chat el in
  let '(p, out) := run p0 evs in
  (p, (out0 ++ out)%list).

(** The pages a mounted chat page can be in. *)
Inductive reachable : Page -> Prop :=
| reachable_mount chat el : reachable (fst (mount chat el))
| reachable_step p ev : reachable p -> reachable (fst (step p ev)).

(** *** Notions of the proofs *)

#[local] Open Scope list_scope.

(** Reads a field off a page built by setters. *)
Ltac fields :=
  cbn [fst snd chatId scrollEl pos mounted isLoading error reloadCounter messages composingMessage firstScroll autoScroll lastAutoScrolledMessageId isSendingMessage inflight cleanup interval posting nextReq set_chatId set_scrollEl set_pos set_mounted set_isLoading set_error set_reloadCounter set_messages set_composingMessage set_firstScroll set_autoScroll set_lastAutoScrolledMessageId set_isSendingMessage set_inflight set_cleanup set_interval set_posting set_nextReq].

Tactic Notation "fields" "in" hyp(H) :=
  cbn [fst snd chatId scrollEl pos mounted isLoading error reloadCounter messages composingMessage firstScroll autoScroll lastAutoScrolledMessageId isSendingMessage inflight cleanup interval posting nextReq set_chatId set_scrollEl set_pos set_mounted set_isLoading set_error set_reloadCounter set_messages set_composingMessage set_firstScroll set_autoScroll set_lastAutoScrolledMessageId set_isSendingMessage set_inflight set_cleanup set_interval set_posting set_nextReq] in H.

(** Whether the first-load effect of render [s] scrolls. *)
Definition firstFires (s : Page) : bool :=
  firstScroll s && isSome (messages s) && negb (isLoading s) && isSome (scrollEl s).

(** Whether the auto-scroll effect of render [s] scrolls. *)
Definition autoFires (s : Page) : bool :=
  autoScroll s && isSome (scrollEl s)
  && negb (lastMessageId s =? lastAutoScrolledMessageId s).

(** What the scroll-tracking effect of render [s] sets [autoScroll] to. *)
Definition tracked (s : Page) (old : bool) : bool :=
  match scrollEl s with
  | Some el => distanceFromBottom el <? 64
  | None => old
  end.

(** The page after the fetch effect of render [s], when it runs. *)
Definition afterFetch (b : bool) (s : Page) : Page :=
  if b then fst (fetchEffect s s) else s.

(** The fetches in flight once the pending cleanup has run. *)
Definition cancelPending (p : Page) : list Fetch :=
  match cleanup p with
  | Some r => cancelFetch r (inflight p)
  | None => inflight p
  end.

(** The fetch [go] starts from render [s]. *)
Definition newFetch (s : Page) : Fetch :=
  {| rid := nextReq s; f_chatId := chatId s; f_sinceId := lastIdOf (messages s);
     f_messages := messages s; canceled := false |}.

(** Whether the fetch effect of render [s] starts a fetch. *)
Definition fetchStarts (b : bool) (s : Page) : bool :=
  b && negb (Js.isEmpty (chatId s)).

(** What holds of a fetch that is awaited and not cancelled: it is the one
    the pending cleanup would cancel, and its closure saw the chat and the
    messages the page has now. *)
Definition currentFetch (p : Page) (f : Fetch) : Prop :=
  mounted p = true /\ cleanup p = Some (rid f) /\ f_chatId f = chatId p /\
  Js.isEmpty (chatId p) = false /\ f_messages f = messages p /\
  f_sinceId f = lastIdOf (messages p).

Definition activeOk (p : Page) : Prop :=
  forall f, In f (inflight p) -> canceled f = false -> currentFetch p f.

Definition freshIds (p : Page) : Prop :=
  forall f, In f (inflight p) -> (rid f < nextReq p)%nat.

Record HookInv (p : Page) : Prop := {
  inv_active : activeOk p;
  inv_fresh : freshIds p;
  inv_nodup : NoDup (map rid (inflight p));
  inv_interval : interval p = mounted p && negb (isLoading p)
}.

(** What the fetch effect needs of the page a handler leaves. *)
Definition handlerOk (p p1 : Page) : Prop :=
  freshIds p1 /\ NoDup (map rid (inflight p1)) /\
  (forall g, In g (inflight p1) -> canceled g = false -> cleanup p1 = Some (rid g)) /\
  (fetchDepsChanged (Some p) p1 = true -> mounted p1 = true) /\
  (fetchDepsChanged (Some p) p1 = false -> activeOk p1) /\
  (mounted p1 = true -> interval p1 = interval p /\ mounted p = true) /\
  (mounted p1 = false ->
   interval p1 = false /\ isLoading p1 = isLoading p /\
   fetchDepsChanged (Some p) p1 = false).

(** The messages known locally: none before the first successful fetch. *)
Definition known (p : Page) : list Message :=
  match messages p with
  | Some ms => ms
  | None => []
  end.

(** Strictly ascending by id. *)
Definition ascending (ms : list Message) : Prop :=
  StronglySorted Z.lt (map id ms).

(** The server contract for a request with cursor [sinceId]: every message
    is newer than the cursor and the messages come in ascending id order. *)
Definition honoursContract (sinceId : Z) (m : list Message) : Prop :=
  Forall (fun x => sinceId < id x) m /\ ascending m.

(** Whether [ev] is the failure of a fetch that was cancelled. *)
Definition staleFailure (p : Page) (ev : Event) : bool :=
  match ev with
  | FetchSettled r (Rejected _) =>
      match findFetch r (inflight p) with
      | Some f => canceled f
      | None => false
      end
  | _ => false
  end.

(** A run in which no cancelled fetch fails. *)
Fixpoint noStaleFailure (p : Page) (evs : list Event) : bool :=
  match evs with
  | [] => true
  | ev :: rest => negb (staleFailure p ev) && noStaleFailure (fst (step p ev)) rest
  end.

(** The loading flag is up while a fetch that is not cancelled is awaited. *)
Definition loadingWhileActive (p : Page) : Prop :=
  forall f, In f (inflight p) -> canceled f = false -> isLoading p = true.

(** The newest-message ids the auto-scroll effect scrolled for, in order. *)
Definition autoIds (log : list Action) : list Z :=
  flat_map (fun a => match a with AutoScroll x => [x] | _ => [] end) log.

(** How many times the first-load effect scrolled. *)
Definition firstScrolls (log : list Action) : nat :=
  List.length (filter (fun a => match a with FirstScroll => true | _ => false end) log).

(** What the environment owes the page at event [ev]: a scroll event finds
    the scrolling element, and a successful response honours the server
    contract for the cursor of its request. *)
Definition eventOk (p : Page) (ev : Event) : Prop :=
  match ev with
  | WindowScroll el => isSome el = true
  | FetchSettled r (Resolved m) =>
      forall f, findFetch r (inflight p) = Some f -> honoursContract (f_sinceId f) m
  | _ => True
  end.

Fixpoint wellBehaved (p : Page) (evs : list Event) : Prop :=
  match evs with
  | [] => True
  | ev :: rest => eventOk p ev /\ wellBehaved (fst (step p ev)) rest
  end.

Record ViewInv (p : Page) (log : list Action) : Prop := {
  v_el : isSome (scrollEl p) = true;
  v_le : lastAutoScrolledMessageId p <= lastMessageId p;
  v_rec : In (lastAutoScrolledMessageId p) (autoIds log);
  v_bound : Forall (fun x => x <= lastAutoScrolledMessageId p) (autoIds log);
  v_sorted : StronglySorted Z.lt (autoIds log);
  v_enabled : autoScroll p = true -> lastAutoScrolledMessageId p = lastMessageId p;
  v_first : firstScroll p = true -> firstScrolls log = O /\ messages p = None;
  v_done : firstScroll p = false -> firstScrolls log = 1%nat
}.


(** Whether an action scrolls the window to the bottom. *)
Definition isScroll (a : Action) : bool :=
  match a with
  | FirstScroll | AutoScroll _ => true
  | _ => false
  end.

(** The chats for which a fetch that was not cancelled has succeeded in the
    run [evs] from page [p]. *)
Fixpoint loadedChats (p : Page) (evs : list Event) : list string :=
  match evs with
  | [] => []
  | ev :: rest =>
      match ev with
      | FetchSettled r (Resolved _) =>
          match findFetch r (inflight p) with
          | Some f => if canceled f then [] else [f_chatId f]
          | None => []
          end
      | _ => []
      end ++ loadedChats (fst (step p ev)) rest
  end.

(** Once the first-load effect has scrolled, there are messages. *)
Definition scrolledWithMessages (p : Page) : Prop :=
  firstScroll p = false -> isSome (messages p) = true.

(** Sample data. *)
Definition demoEl : ScrollEl :=
  {| scrollHeight := 1200; clientHeight := 700; scrollTop := 500 |}.

Definition demoMessage (i : Z) : Message :=
  {| id := i; from := {| sender_id := 7; nickname := "amy" |};
     createdAt := 1700000000000; type := 0; content := Some "hi" |}.

(** The page of chat 42, its first fetch awaited. *)
Definition demoPage : Page := fst (mount "42" (Some demoEl)).

Definition demoFetch : Fetch :=
  {| rid := 0; f_chatId := "42"; f_sinceId := 0; f_messages := None;
     canceled := false |}.

(** The fetch of [demoPage], once a route change has cancelled it. *)
Definition staleFetch : Fetch := cancel demoFetch.

(** A run with a reload: the first fetch completes, a tick starts the next
    one, and a message is sent while it is awaited. *)
Definition reloadedRun : list Event :=
  [FetchSettled 0 (Resolved []); IntervalTick; Input "hi"; ClickSend;
   PostSettled 2 None; FetchSettled 3 (Resolved [demoMessage 1])].

(** The scrolling element at a distance of exactly 64 from the bottom. *)
Definition elAt64 : ScrollEl :=
  {| scrollHeight := 1200; clientHeight := 700; scrollTop := 436 |}.

(** [demoPage] once its first fetch has completed and three spaces have
    been typed. *)
Definition blankDraftPage : Page :=
  fst (run demoPage [FetchSettled 0 (Resolved []); Input "   "]).

(** A message of a type the page does not know. *)
Definition pollMessage : Message :=
  {| id := 12; from := {| sender_id := 7; nickname := "amy" |};
     createdAt := 1700000000000; type := 5; content := None |}.

(** A run with no cancellation: the first fetch completes, then a tick. *)
Definition quietRun : list Event :=
  [FetchSettled 0 (Resolved [demoMessage 3]); IntervalTick].

(** A run with scrolling away from the bottom and back while messages
    arrive. *)
Definition busyRun : list Event :=
  [FetchSettled 0 (Resolved [demoMessage 3]);
   WindowScroll (Some elAt64);
   IntervalTick;
   FetchSettled 1 (Resolved [demoMessage 4; demoMessage 6]);
   WindowScroll (Some demoEl);
   IntervalTick;
   FetchSettled 2 (Resolved [])].


(** A run that changes the chat: the first fetch of chat 42 completes, the
    user scrolls up to a distance of 64 from the bottom, and the route
    changes to chat 43. *)
Definition secondChatRun : list Event :=
  [FetchSettled 0 (Resolved [demoMessage 3]);
   WindowScroll (Some elAt64);
   RouteChange "43"].

(** The fetch for chat 43 that [secondChatRun] leaves awaited. *)
Definition secondChatFetch : Fetch :=
  {| rid := 1; f_chatId := "43"; f_sinceId := 3;
     f_messages := Some [demoMessage 3]; canceled := false |}.

End Chat.

(** ** The survey page: its controls and what the user does with them *)

Module SurveyForm.
Import Survey.

Definition setPrivacyCheck (c : bool) (s : State) : State :=
  {| qnum := qnum s; privacyCheck := c; values := values s |}.

Definition setName (v : string) (f : FormValues) : FormValues :=
  {| name := v; phone := phone f; nickname := nickname f;
     gender := gender f; birthday := birthday f; height := height f;
     weight := weight f; interests := interests f; avgHours := avgHours f;
     regularTime := regularTime f; level := level f |}.

Definition setPhone (v : StringOrNumber) (f : FormValues) : FormValues :=
  {| name := name f; phone := v; nickname := nickname f;
     gender := gender f; birthday := birthday f; height := height f;
     weight := weight f; interests := interests f; avgHours := avgHours f;
     regularTime := regularTime f; level := level f |}.

Definition setNickname (v : string) (f : FormValues) : FormValues :=
  {| name := name f; phone := phone f; nickname := v;
     gender := gender f; birthday := birthday f; height := height f;
     weight := weight f; interests := interests f; avgHours := avgHours f;
     regularTime := regularTime f; level := level f |}.

Definition setGender (v : string) (f : FormValues) : FormValues :=
  {| name := name f; phone := phone f; nickname := nickname f;
     gender := v; birthday := birthday f; height := height f;
     weight := weight f; interests := interests f; avgHours := avgHours f;
     regularTime := regularTime f; level := level f |}.

Definition setBirthday (v : Z) (f : FormValues) : FormValues :=
  {| name := name f; phone := phone f; nickname := nickname f;
     gender := gender f; birthday := v; height := height f;
     weight := weight f; interests := interests f; avgHours := avgHours f;
     regularTime := regularTime f; level := level f |}.

Definition setHeight (v : option Z) (f : FormValues) : FormValues :=
  {| name := name f; phone := phone f; nickname := nickname f;
     gender := gender f; birthday := birthday f; height := v;
     weight := weight f; interests := interests f; avgHours := avgHours f;
     regularTime := regularTime f; level := level f |}.

Definition setWeight (v : option Z) (f : FormValues) : FormValues :=
  {| name := name f; phone := phone f; nickname := nickname f;
     gender := gender f; birthday := birthday f; height := height f;
     weight := v; interests := interests f; avgHours := avgHours f;
     regularTime := regularTime f; level := level f |}.

Definition setInterests (v : list string) (f : FormValues) : FormValues :=
  {| name := name f; phone := phone f; nickname := nickname f;
     gender := gender f; birthday := birthday f; height := height f;
     weight := weight f; interests := v; avgHours := avgHours f;
     regularTime := regularTime f; level := level f |}.

Definition setAvgHours (v : option Z) (f : FormValues) : FormValues :=
  {| name := name f; phone := phone f; nickname := nickname f;
     gender := gender f; birthday := birthday f; height := height f;
     weight := weight f; interests := interests f; avgHours := v;
     regularTime := regularTime f; level := level f |}.

Definition setRegularTime (v : list string) (f : FormValues) : FormValues :=
  {| name := name f; phone := phone f; nickname := nickname f;
     gender := gender f; birthday := birthday f; height := height f;
     weight := weight f; interests := interests f; avgHours := avgHours f;
     regularTime := v; level := level f |}.

(** What the user does on the page.  [CheckPrivacy] is the checkbox of the
    first screen; [ClickNext] is the button that calls [handleNextQ] (the
    start button of the first screen, the confirm button of the others);
    [ClickBack] is the back button; every other event is a change of the
    input bound to one field by [getInputProps], which stores the new
    value in the form.  A select of step 4 is bound to the path
    [level.index]: its change stores a new array under [level], and what
    that array is depends on how the form library writes the path, so
    [ChangeLevel] carries the array stored. *)
Inductive Event :=
| CheckPrivacy (checked : bool)
| ClickNext
| ClickBack
| ChangeName (v : string)
| ChangePhone (v : StringOrNumber)
| ChangeNickname (v : string)
| ChangeGender (v : string)
| ChangeBirthday (v : Z)
| ChangeHeight (v : option Z)
| ChangeWeight (v : option Z)
| ChangeInterests (v : list string)
| ChangeAvgHours (v : option Z)
| ChangeRegularTime (v : list string)
| ChangeLevel (stored : list (option string)).

(** Whether the page rendered at [s] has the control of [ev]: the first
    screen is rendered when [qnum === 0], the back and confirm buttons when
    [!!qnum], the inputs of step [n] when [qnum === n], and one select per
    selected interest at step 4. *)
Definition offered (s : State) (ev : Event) : bool :=
  match ev with
  | CheckPrivacy _ => qnum s =? 0
  | ClickNext => true
  | ClickBack => negb (qnum s =? 0)
  | ChangeName _ | ChangePhone _ | ChangeNickname _ | ChangeGender _ =>
      qnum s =? 1
  | ChangeBirthday _ | ChangeHeight _ | ChangeWeight _ => qnum s =? 2
  | ChangeInterests _ | ChangeAvgHours _ | ChangeRegularTime _ => qnum s =? 3
  | ChangeLevel _ =>
      (qnum s =? 4) && negb (Nat.eqb (List.length (interests (values s))) 0)
  end.

(** The text of the button that calls [handleNextQ]. *)
Definition nextLabel (s : State) : string :=
  if qnum s =? 0 then "我已知悉以上資訊，前往填寫"
  else if qnum s =? 6 then "提交表單" else "確定".

Definition change (u : FormValues -> FormValues) (s : State)
  : State * option Notification :=
  (setValues (u (values s)) s, None).

(** A click on the button that calls [handleNextQ].  What the handler
    throws is not caught by the page: the click then leaves the state as it
    was and shows nothing, since [handleNextQ] throws before it sets or
    shows anything. *)
Definition clickNext (s : State) : State * option Notification :=
  match handleNextQ s with
  | Normal r => r
  | Throw _ => (s, None)
  end.

(** One event: the state after it and the notification shown, if any.  An
    event whose control is not on the page does not happen. *)
Definition act (s : State) (ev : Event) : State * option Notification :=
  if negb (offered s ev) then (s, None)
  else
    match ev with
    | CheckPrivacy c => (setPrivacyCheck c s, None)
    | ClickNext => clickNext s
    | ClickBack => (handleBack s, None)
    | ChangeName v => change (setName v) s
    | ChangePhone v => change (setPhone v) s
    | ChangeNickname v => change (setNickname v) s
    | ChangeGender v => change (setGender v) s
    | ChangeBirthday v => change (setBirthday v) s
    | ChangeHeight v => change (setHeight v) s
    | ChangeWeight v => change (setWeight v) s
    | ChangeInterests v => change (setInterests v) s
    | ChangeAvgHours v => change (setAvgHours v) s
    | ChangeRegularTime v => change (setRegularTime v) s
    | ChangeLevel l => change (setLevel l) s
    end.

(** A run of events: the final state and the notifications shown. *)
Fixpoint run (s : State) (evs : list Event) : State * list Notification :=
  match evs with
  | [] => (s, [])
  | ev :: rest =>
      let '(s1, n) := act s ev in
      let '(s2, ns) := run s1 rest in
      (s2, (match n with Some x => [x] | None => [] end ++ ns)%list)
  end.

(** The page as first rendered. *)
Definition initialState : State :=
  {| qnum := 0; privacyCheck := false; values := initialValues |}.

(** *** Notions of the proofs *)

Definition note (t m : string) : Notification :=
  {| color := "red"; title := t; message := m |}.

(** The strings of [l] with [sep] between them. *)
Fixpoint joinWith (sep : string) (l : list string) : string :=
  match l with
  | [] => ""
  | [x] => x
  | x :: r => x ++ sep ++ joinWith sep r
  end.

Definition blank (s : string) : bool := Js.isEmpty (Js.trim s).

(** The labels of the fields of step 1 that are blank, in the order of the
    form, when the phone input holds the string [p]. *)
Definition blankFields1 (f : FormValues) (p : string) : list string :=
  ((if blank (name f) then ["姓名"] else [])
   ++ (if blank p then ["手機"] else [])
   ++ (if blank (nickname f) then ["暱稱"] else [])
   ++ (if blank (gender f) then ["性別"] else []))%list.

(** The labels of the fields of step 3 that are not filled in. *)
Definition blankFields3 (f : FormValues) : list string :=
  ((if Nat.eqb (List.length (interests f)) 0 then ["興趣"] else [])
   ++ (match avgHours f with None => ["運動時長"] | Some _ => [] end)
   ++ (if Nat.eqb (List.length (regularTime f)) 0 then ["運動時段"] else []))%list.

(** What the checks of the steps before [qnum s] ask of the state. *)
Definition step0Passed (s : State) : Prop := privacyCheck s = true.

Definition step1Passed (f : FormValues) : Prop :=
  blank (name f) = false /\
  (exists p, phone f = Str p /\ blank p = false) /\
  blank (nickname f) = false /\ blank (gender f) = false /\
  phoneRejected (phone f) = false.

Definition step2Passed (f : FormValues) : Prop :=
  (exists h, height f = Some h /\ 30 <= h) /\
  (exists w, weight f = Some w /\ 15 <= w).

Definition step3Passed (f : FormValues) : Prop :=
  interests f <> [] /\ regularTime f <> [] /\
  exists h, avgHours f = Some h /\ h < 168.

Definition step4Passed (f : FormValues) : Prop :=
  List.length (filterTrue (level f)) = List.length (interests f).

(** The checks of the steps before the current one hold of the state. *)
Definition passedBefore (s : State) : Prop :=
  (1 <= qnum s -> step0Passed s) /\
  (2 <= qnum s -> step1Passed (values s)) /\
  (3 <= qnum s -> step2Passed (values s)) /\
  (4 <= qnum s -> step3Passed (values s)) /\
  (5 <= qnum s -> step4Passed (values s)).

(** What a run keeps: the step is in range and the checks of the steps
    before it hold. *)
Definition Inv (s : State) : Prop := 0 <= qnum s <= 6 /\ passedBefore s.

(** The parts of [Inv] of a state built by setters. *)
Ltac inv_goals :=
  unfold Inv, passedBefore;
  cbn [fst qnum privacyCheck values setQnum setValues setPrivacyCheck];
  split; [|split; [|split; [|split; [|split]]]]; intros.

(** Closes a goal that an earlier part of the invariant gives. *)
Ltac earlier H0 H1 H2 H3 H4 :=
  first [ lia | apply H0; lia | apply H1; lia | apply H2; lia | apply H3; lia
        | apply H4; lia | idtac ].

(** A run through the whole survey. *)
Definition completeRun : list Event :=
  [CheckPrivacy true; ClickNext;
   ChangeName "Lin"; ChangePhone (Str "0912345678"); ChangeNickname "lin";
   ChangeGender "女"; ClickNext;
   ClickNext;
   ChangeInterests ["1"; "3"]; ChangeRegularTime ["2"]; ClickNext;
   ChangeLevel [Some "2"; Some "4"]; ClickNext;
   ClickNext].

(** The user accepts the privacy policy, fills in step 1 with the phone
    number typed without its leading zero, and confirms. *)
Definition numberPhoneRun : list Event :=
  [CheckPrivacy true; ClickNext;
   ChangeName "Lin"; ChangePhone (Num 912345678); ChangeNickname "lin";
   ChangeGender "女"; ClickNext].

End SurveyForm.

(** ** The invitation client ([addInvite], [deleteInvite]) *)

Module Invite.

Inductive Method := POST | DELETE.

Inductive Json :=
| JString (s : string)
| JNumber (n : Z).

(** What [client] is asked to send: the method, the path, and the [json]
    option when there is one, as the list of its keys and values. *)
Record Request := {
  method : Method;
  path : string;
  json : option (list (string * Json))
}.

(** An identifier is a JavaScript number.  The numbers taken here are the
    safe integers ([Number.isSafeInteger]): the integers of magnitude below
    2^53, each of which a number holds exactly. *)
Record SafeInteger := {
  value : Z;
  safe : (Z.abs value <? 2 ^ 53) = true
}.

(** [String(n)], as the [+] of a string and a number applies it: for a
    safe integer, the decimal numeral, with its sign when negative. *)
Definition numberToString (n : SafeInteger) : string :=
  DecimalString.NilZero.string_of_int (Z.to_int (value n)).

(** The request of [addInvite]; the call resolves when the request does
    and rejects with what the request rejects with. *)
Definition addInvite (Name : string) (Place sp_type DateTime : Z) (Other : string)
  : Request :=
  {| method := POST; path := "invite/invitation";
     json := Some [("Name", JString Name); ("Place", JNumber Place);
                   ("sp_type", JNumber sp_type); ("DateTime", JNumber DateTime);
                   ("Other", JString Other)] |}.

(** The request of [deleteInvite]. *)
Definition deleteInvite (i_id : SafeInteger) : Request :=
  {| method := DELETE; path := "invite/invitation/" ++ numberToString i_id;
     json := None |}.

(** Sample identifiers: 17, 71, and the largest safe integer, 2^53 - 1. *)
Definition id17 : SafeInteger := {| value := 17; safe := eq_refl |}.

Definition id71 : SafeInteger := {| value := 71; safe := eq_refl |}.

Definition maxSafeInteger : SafeInteger :=
  {| value := 9007199254740991; safe := eq_refl |}.

End Invite.

(** ** The profile page ([InfoPage]) *)

Module Info.

(** The user as the page reads it: [profileCompleted], by its truth
    value. *)
Record User := {
  profileCompleted : bool
}.

(** What [main] holds: the notice that asks to sign in, the profile page
    (which renders nothing), or the survey. *)
Inductive Body :=
| SignInNotice
| ProfilePage
| SurveyPage.

(** [user?.profileCompleted], by its truth value. *)
Definition completed (user : option User) : bool :=
  match user with
  | Some u => profileCompleted u
  | None => false
  end.

(** The title of the page and of the navigation bar. *)
Definition title (user : option User) : string :=
  if negb (completed user) then "註冊問卷" else "使用者的個人資料".

(** The children of [main], in order. *)
Definition main (user : option User) : list Body :=
  ((if negb (Chat.isSome user) then [SignInNotice] else [])
   ++ match user with
      | Some u =>
          (if profileCompleted u then [ProfilePage] else [])
          ++ (if negb (profileCompleted u) then [SurveyPage] else [])
      | None => []
      end)%list.

End Info.

(** ** The chat page: what it shows *)

Module ChatView.
Import Chat.

(** The children of the [styles.messages] element: an alert, by its colour
    and text, or the list of the rendered messages, each with its [key]. *)
Inductive Block :=
| Alert (color text : string)
| MessageList (items : list (Z * Bubble)).

Section View.

Variables InviteCreated UserJoined : Z.

Variables getHours getMinutes : Z -> Z.

(** [user?.id] *)
Variable userId : option Z.

(** The children of [styles.messages], in order. *)
Definition messagesView (p : Page) : list Block :=
  ((if negb (isSome (messages p)) && negb (isLoading p) && isSome (error p)
    then [Alert "red" "無法載入訊息，請稍後再試。"] else [])
   ++ (if negb (isSome (messages p)) && isLoading p
       then [Alert "blue" "正在載入訊息"] else [])
   ++ match messages p with
      | Some ms =>
          [MessageList
             (map (fun m =>
                     (id m,
                      renderMessage InviteCreated UserJoined getHours getMinutes
                        userId m)) ms)]
      | None => []
      end)%list.

End View.

(** *** Notions of the proofs *)

(** [formatTime] of a time whose hour is [h] and whose minute is [m]. *)
Definition clock (hm : Z * Z) : string :=
  formatTime (fun _ => fst hm) (fun _ => snd hm) 0.

(** The hours and minutes of a day. *)
Definition dayTimes : list (Z * Z) :=
  flat_map (fun h => map (fun m => (Z.of_nat h, Z.of_nat m)) (seq 0 60)) (seq 0 24).

(** No string occurs twice. *)
Fixpoint distinct (l : list string) : bool :=
  match l with
  | [] => true
  | x :: r => negb (existsb (String.eqb x) r) && distinct r
  end.

(** The requests for messages among the actions of a log. *)
Definition gets (log : list Action) : list (string * Z) :=
  flat_map (fun a => match a with Get c s => [(c, s)] | _ => [] end) log.

(** The server contract, asked of the responses to the fetches that are
    not cancelled. *)
Definition contractEvent (p : Page) (ev : Event) : Prop :=
  match ev with
  | FetchSettled r (Resolved m) =>
      forall f, findFetch r (inflight p) = Some f -> canceled f = false ->
                honoursContract (f_sinceId f) m
  | _ => True
  end.

Fixpoint contractRun (p : Page) (evs : list Event) : Prop :=
  match evs with
  | [] => True
  | ev :: rest => contractEvent p ev /\ contractRun (fst (step p ev)) rest
  end.

(** With no list of messages and the loading flag down, an error is
    stored. *)
Definition noticeInv (p : Page) : Prop :=
  messages p = None -> isLoading p = false -> error p <> None.

(** At most one post is awaited, and on a mounted page
    [isSendingMessage] is up exactly while one is. *)
Definition sendInv (p : Page) : Prop :=
  (List.length (posting p) <= 1)%nat /\
  (mounted p = true -> (isSendingMessage p = true <-> posting p <> [])).

(** While a mounted page with a chat identifier is loading, it awaits a
    fetch that is not cancelled. *)
Definition busyInv (p : Page) : Prop :=
  mounted p = true -> Js.isEmpty (chatId p) = false -> isLoading p = true ->
  exists f, In f (inflight p) /\ canceled f = false.

(** The state cells of the page, without the runtime objects. *)
Definition cells (p : Page) :=
  (isLoading p, error p, reloadCounter p, messages p, composingMessage p,
   firstScroll p, autoScroll p, lastAutoScrolledMessageId p, isSendingMessage p).

(** Whether [ev] makes the fetch effect of a mounted page run again or
    tears the page down. *)
Definition supersedes (p : Page) (ev : Event) : bool :=
  match ev with
  | RouteChange c => negb (String.eqb c (chatId p))
  | PostSettled r None => memNat r (posting p)
  | Unmount => true
  | _ => false
  end.

(** Sample data: [demoPage] once its first fetch has brought message 3,
    the same with the draft [hi] typed, and with that draft being sent. *)
Definition loadedPage : Page :=
  fst (step demoPage (FetchSettled 0 (Resolved [demoMessage 3]))).

Definition draftPage : Page := fst (step loadedPage (Input "hi")).

Definition sendingPage : Page := fst (step draftPage ClickSend).

End ChatView.

(** * Properties of the chat page *)

Module ChatFacts.
Import Chat.
#[local] Open Scope list_scope.

(** ** One round of effects *)

Lemma pollEffect_eq s acc :
  pollEffect s acc = (set_interval (negb (isLoading s)) acc, []).
Proof. reflexivity. Qed.

Lemma firstScrollEffect_eq s acc :
  firstScrollEffect s acc =
  (set_firstScroll (if firstFires s then false else firstScroll acc) acc,
   if firstFires s then [FirstScroll] else []).
Proof.
  unfold firstScrollEffect, firstFires.
  destruct (firstScroll s), (isSome (messages s)), (isLoading s), (isSome (scrollEl s));
    destruct acc; reflexivity.
Qed.

Lemma trackScrollEffect_eq s acc :
  trackScrollEffect s acc = (set_autoScroll (tracked s (autoScroll acc)) acc, []).
Proof.
  unfold trackScrollEffect, tracked. destruct (scrollEl s); destruct acc; reflexivity.
Qed.

Lemma autoScrollEffect_eq s acc :
  autoScrollEffect s acc =
  (set_lastAutoScrolledMessageId
     (if autoFires s then lastMessageId s else lastAutoScrolledMessageId acc) acc,
   if autoFires s then [AutoScroll (lastMessageId s)] else []).
Proof.
  unfold autoScrollEffect, autoFires.
  destruct (autoScroll s), (isSome (scrollEl s)),
    (lastMessageId s =? lastAutoScrolledMessageId s); destruct acc; reflexivity.
Qed.

Lemma fetchEffect_snd s acc :
  snd (fetchEffect s acc) =
  if Js.isEmpty (chatId s) then [] else [Get (chatId s) (lastIdOf (messages s))].
Proof. unfold fetchEffect. destruct (Js.isEmpty (chatId s)); reflexivity. Qed.

Lemma runIf_eq b eff s st :
  runIf b eff s st =
  if b then (fst (eff s (fst st)), snd st ++ snd (eff s (fst st))) else st.
Proof. unfold runIf. destruct b; [destruct (eff s (fst st))|]; reflexivity. Qed.

Lemma commit_tail b2 b3 b4 b5 s a o :
  runIf b5 autoScrollEffect s
    (runIf b4 trackScrollEffect s
       (runIf b3 firstScrollEffect s (runIf b2 pollEffect s (a, o)))) =
  (set_lastAutoScrolledMessageId
     (if b5 && autoFires s then lastMessageId s else lastAutoScrolledMessageId a)
     (set_autoScroll (if b4 then tracked s (autoScroll a) else autoScroll a)
        (set_firstScroll (if b3 && firstFires s then false else firstScroll a)
           (set_interval (if b2 then negb (isLoading s) else interval a) a))),
   o ++ (if b3 && firstFires s then [FirstScroll] else [])
     ++ (if b5 && autoFires s then [AutoScroll (lastMessageId s)] else [])).
Proof.
  rewrite !runIf_eq.
  rewrite !pollEffect_eq, !firstScrollEffect_eq, !trackScrollEffect_eq, !autoScrollEffect_eq.
  destruct b2, b3, b4, b5; cbn [andb fst snd];
    try destruct (firstFires s); try destruct (autoFires s); destruct a; cbn;
    rewrite <- ?app_assoc, ?app_nil_r; reflexivity.
Qed.

(** The page and the actions of one round of effects. *)
Lemma commit_eq prev s :
  commit prev s =
  let a := afterFetch (fetchDepsChanged prev s) s in
  (set_lastAutoScrolledMessageId
     (if autoScrollDepsChanged prev s && autoFires s
      then lastMessageId s else lastAutoScrolledMessageId a)
     (set_autoScroll
        (if trackScrollDepsChanged prev s then tracked s (autoScroll a) else autoScroll a)
        (set_firstScroll
           (if firstScrollDepsChanged prev s && firstFires s then false else firstScroll a)
           (set_interval
              (if pollDepsChanged prev s then negb (isLoading s) else interval a) a))),
   (if fetchDepsChanged prev s then snd (fetchEffect s s) else [])
   ++ (if firstScrollDepsChanged prev s && firstFires s then [FirstScroll] else [])
   ++ (if autoScrollDepsChanged prev s && autoFires s
       then [AutoScroll (lastMessageId s)] else [])).
Proof.
  unfold commit, afterFetch. rewrite (runIf_eq _ fetchEffect). cbn [fst snd].
  destruct (fetchDepsChanged prev s); apply commit_tail.
Qed.

Lemma changed_same {A} (dec : forall x y : A, {x = y} + {x <> y}) dep q s :
  dep q = dep s -> changed dec dep (Some q) s = false.
Proof. intros H. unfold changed. destruct (dec (dep q) (dep s)); [reflexivity | contradiction]. Qed.

Lemma changed_true {A} (dec : forall x y : A, {x = y} + {x <> y}) dep q s :
  changed dec dep (Some q) s = true -> dep q <> dep s.
Proof. unfold changed. destruct (dec (dep q) (dep s)); [discriminate | auto]. Qed.

Lemma changed_diff {A} (dec : forall x y : A, {x = y} + {x <> y}) dep q s :
  dep q <> dep s -> changed dec dep (Some q) s = true.
Proof. intros H. unfold changed. destruct (dec (dep q) (dep s)); [contradiction | reflexivity]. Qed.

Lemma afterFetch_eq b s :
  afterFetch b s =
  if b then
    if Js.isEmpty (chatId s) then set_cleanup None (set_inflight (cancelPending s) s)
    else
      set_error None
        (set_isLoading true
           (set_cleanup (Some (nextReq s))
              (set_nextReq (S (nextReq s))
                 (set_inflight (cancelPending s ++ [newFetch s]) s))))
  else s.
Proof.
  unfold afterFetch, fetchEffect, runCleanup, cancelPending, newFetch.
  destruct b; [|reflexivity].
  destruct s as [c ? ? ? ? ? ? ? ? ? ? ? ? ? cl ? ? ?]; cbn.
  destruct (Js.isEmpty c), cl; reflexivity.
Qed.

Section AfterFetch.

Variables (b : bool) (s : Page).

Let a := afterFetch b s.

Lemma afterFetch_frame :
  chatId a = chatId s /\ scrollEl a = scrollEl s /\ pos a = pos s /\
  mounted a = mounted s /\ reloadCounter a = reloadCounter s /\
  messages a = messages s /\ composingMessage a = composingMessage s /\
  firstScroll a = firstScroll s /\ autoScroll a = autoScroll s /\
  lastAutoScrolledMessageId a = lastAutoScrolledMessageId s /\
  isSendingMessage a = isSendingMessage s /\ interval a = interval s /\
  posting a = posting s.
Proof.
  subst a. rewrite afterFetch_eq.
  destruct b, (Js.isEmpty (chatId s)); repeat split; reflexivity.
Qed.

Lemma afterFetch_isLoading :
  isLoading a = if fetchStarts b s then true else isLoading s.
Proof.
  subst a. rewrite afterFetch_eq. unfold fetchStarts.
  destruct b, (Js.isEmpty (chatId s)); reflexivity.
Qed.

Lemma afterFetch_error :
  error a = if fetchStarts b s then None else error s.
Proof.
  subst a. rewrite afterFetch_eq. unfold fetchStarts.
  destruct b, (Js.isEmpty (chatId s)); reflexivity.
Qed.

Lemma afterFetch_inflight :
  inflight a =
  if b then
    if Js.isEmpty (chatId s) then cancelPending s else cancelPending s ++ [newFetch s]
  else inflight s.
Proof.
  subst a. rewrite afterFetch_eq.
  destruct b, (Js.isEmpty (chatId s)); reflexivity.
Qed.

Lemma afterFetch_cleanup :
  cleanup a =
  if b then if Js.isEmpty (chatId s) then None else Some (nextReq s) else cleanup s.
Proof.
  subst a. rewrite afterFetch_eq.
  destruct b, (Js.isEmpty (chatId s)); reflexivity.
Qed.

Lemma afterFetch_nextReq :
  nextReq a = if fetchStarts b s then S (nextReq s) else nextReq s.
Proof.
  subst a. rewrite afterFetch_eq. unfold fetchStarts.
  destruct b, (Js.isEmpty (chatId s)); reflexivity.
Qed.

End AfterFetch.

(** The renders that follow a handler: [p1] is the page it leaves, [prev]
    the render before it ([None] when [p1] is the first render). *)
Section Settle.

Variables (prev : option Page) (p1 : Page).

Let b1 := fetchDepsChanged prev p1.

Let a := afterFetch b1 p1.

Let p2 := fst (commit prev p1).

Let p3 := fst (commit (Some p1) p2).

(** The scrolls of the first and of the second round. *)
Let F1 := firstScrollDepsChanged prev p1 && firstFires p1.

Let A1 := autoScrollDepsChanged prev p1 && autoFires p1.

Let A2 := autoScrollDepsChanged (Some p1) p2 && autoFires p2.

Lemma settle_unfold :
  settle rounds prev p1 =
  (p3, snd (commit prev p1) ++ snd (commit (Some p1) p2)).
Proof.
  subst p3 p2. unfold rounds. cbn [settle].
  destruct (commit prev p1) as [q o]. cbn [fst snd].
  destruct (commit (Some p1) q) as [q' o']. cbn [fst snd].
  now rewrite app_nil_r.
Qed.

Lemma settle_fst : fst (settle rounds prev p1) = p3.
Proof. now rewrite settle_unfold. Qed.

Lemma round1_frame :
  chatId p2 = chatId p1 /\ scrollEl p2 = scrollEl p1 /\ pos p2 = pos p1 /\
  mounted p2 = mounted p1 /\ reloadCounter p2 = reloadCounter p1 /\
  messages p2 = messages p1 /\ composingMessage p2 = composingMessage p1 /\
  isSendingMessage p2 = isSendingMessage p1 /\ posting p2 = posting p1.
Proof.
  subst p2. rewrite commit_eq. fields.
  destruct (afterFetch_frame (fetchDepsChanged prev p1) p1)
    as (?&?&?&?&?&?&?&?&?&?&?&?&?).
  repeat split; assumption.
Qed.

Lemma round1_fetch :
  isLoading p2 = isLoading a /\ error p2 = error a /\ inflight p2 = inflight a /\
  cleanup p2 = cleanup a /\ nextReq p2 = nextReq a.
Proof. subst p2. rewrite commit_eq. fields. repeat split. Qed.

Lemma round1_interval :
  interval p2 =
  if pollDepsChanged prev p1 then negb (isLoading p1) else interval p1.
Proof.
  subst p2. rewrite commit_eq. fields.
  destruct (afterFetch_frame (fetchDepsChanged prev p1) p1)
    as (?&?&?&?&?&?&?&?&?&?&?&->&?). reflexivity.
Qed.

Lemma round1_firstScroll :
  firstScroll p2 = if F1 then false else firstScroll p1.
Proof.
  subst p2 F1. rewrite commit_eq. fields.
  destruct (afterFetch_frame (fetchDepsChanged prev p1) p1)
    as (?&?&?&?&?&?&?&->&?&?&?&?&?). reflexivity.
Qed.

Lemma round1_autoScroll :
  autoScroll p2 =
  if trackScrollDepsChanged prev p1 then tracked p1 (autoScroll p1)
  else autoScroll p1.
Proof.
  subst p2. rewrite commit_eq. fields.
  destruct (afterFetch_frame (fetchDepsChanged prev p1) p1)
    as (?&?&?&?&?&?&?&?&->&?&?&?&?). reflexivity.
Qed.

Lemma round1_lastAuto :
  lastAutoScrolledMessageId p2 =
  if A1 then lastMessageId p1 else lastAutoScrolledMessageId p1.
Proof.
  subst p2 A1. rewrite commit_eq. fields.
  destruct (afterFetch_frame (fetchDepsChanged prev p1) p1)
    as (?&?&?&?&?&?&?&?&?&->&?&?&?). reflexivity.
Qed.

Lemma round1_lastMessageId : lastMessageId p2 = lastMessageId p1.
Proof.
  unfold lastMessageId.
  destruct round1_frame as (?&?&?&?&?&->&?). reflexivity.
Qed.

(** The second round starts no fetch and tracks no scroll. *)
Lemma round2_fetch_idle : fetchDepsChanged (Some p1) p2 = false.
Proof.
  destruct round1_frame as (Hc&_&_&_&Hr&_).
  unfold fetchDepsChanged.
  rewrite (changed_same string_dec chatId), (changed_same Z.eq_dec reloadCounter); auto.
Qed.

Lemma round2_track_idle : trackScrollDepsChanged (Some p1) p2 = false.
Proof.
  destruct round1_frame as (_&_&Hp&_).
  unfold trackScrollDepsChanged. rewrite (changed_same Nat.eq_dec pos); auto.
Qed.

(** The first-load effect never scrolls in the second round: it runs there
    because it has just scrolled or because a fetch has just started. *)
Lemma round2_first_idle :
  firstScrollDepsChanged (Some p1) p2 && firstFires p2 = false.
Proof.
  destruct (firstScrollDepsChanged (Some p1) p2) eqn:E; [|reflexivity].
  cbn [andb]. unfold firstScrollDepsChanged in E.
  destruct round1_frame as (_&_&_&_&_&Hm&_).
  rewrite (changed_same messages_eq_dec messages) in E by auto.
  rewrite orb_false_r in E.
  unfold firstFires.
  apply orb_true_iff in E as [E|E]; apply changed_true in E.
  - rewrite round1_firstScroll in *. destruct F1; [reflexivity|congruence].
  - destruct round1_fetch as (Hl&_). rewrite Hl in *. subst a.
    rewrite afterFetch_isLoading in *.
    destruct (fetchStarts b1 p1); [|congruence].
    now rewrite !andb_false_r.
Qed.

(** An auto-scroll of the first round leaves the second with nothing to do. *)
Lemma round2_auto_once : A1 = true -> A2 = false.
Proof.
  intros H. subst A2. unfold autoFires.
  rewrite round1_lastAuto, H, round1_lastMessageId, Z.eqb_refl.
  now rewrite !andb_false_r.
Qed.

Lemma settle_frame :
  chatId p3 = chatId p1 /\ scrollEl p3 = scrollEl p1 /\ pos p3 = pos p1 /\
  mounted p3 = mounted p1 /\ reloadCounter p3 = reloadCounter p1 /\
  messages p3 = messages p1 /\ composingMessage p3 = composingMessage p1 /\
  isSendingMessage p3 = isSendingMessage p1 /\ posting p3 = posting p1.
Proof.
  destruct round1_frame as (?&?&?&?&?&?&?&?&?).
  subst p3. rewrite commit_eq. fields.
  destruct (afterFetch_frame (fetchDepsChanged (Some p1) p2) p2)
    as (->&->&->&->&->&->&->&?&?&?&->&?&->).
  repeat split; assumption.
Qed.

Lemma settle_fetch :
  isLoading p3 = isLoading a /\ error p3 = error a /\ inflight p3 = inflight a /\
  cleanup p3 = cleanup a /\ nextReq p3 = nextReq a.
Proof.
  destruct round1_fetch as (?&?&?&?&?).
  subst p3. rewrite commit_eq. fields. rewrite round2_fetch_idle. unfold afterFetch. fields.
  repeat split; assumption.
Qed.

Lemma settle_interval :
  interval p3 =
  if pollDepsChanged (Some p1) p2 then negb (isLoading a)
  else if pollDepsChanged prev p1 then negb (isLoading p1) else interval p1.
Proof.
  subst p3. rewrite commit_eq. fields. rewrite round2_fetch_idle. unfold afterFetch. fields.
  rewrite round1_interval. destruct round1_fetch as (->&_). reflexivity.
Qed.

Lemma settle_firstScroll :
  firstScroll p3 = if F1 then false else firstScroll p1.
Proof.
  subst p3. rewrite commit_eq. fields. rewrite round2_fetch_idle, round2_first_idle. unfold afterFetch. fields.
  apply round1_firstScroll.
Qed.

Lemma settle_autoScroll :
  autoScroll p3 =
  if trackScrollDepsChanged prev p1 then tracked p1 (autoScroll p1)
  else autoScroll p1.
Proof.
  subst p3. rewrite commit_eq. fields. rewrite round2_fetch_idle, round2_track_idle. unfold afterFetch. fields.
  apply round1_autoScroll.
Qed.

Lemma settle_lastAuto :
  lastAutoScrolledMessageId p3 =
  if A1 || A2 then lastMessageId p1 else lastAutoScrolledMessageId p1.
Proof.
  subst p3. rewrite commit_eq. fields. rewrite round2_fetch_idle. unfold afterFetch. fields.
  fold A2. rewrite round1_lastAuto, round1_lastMessageId.
  destruct A1, A2; reflexivity.
Qed.

Lemma settle_actions :
  snd (settle rounds prev p1) =
  (if b1 then snd (fetchEffect p1 p1) else [])
  ++ (if F1 then [FirstScroll] else [])
  ++ (if A1 || A2 then [AutoScroll (lastMessageId p1)] else []).
Proof.
  rewrite settle_unfold. cbn [snd].
  rewrite (commit_eq (Some p1) p2). cbn [snd].
  rewrite round2_fetch_idle, round2_first_idle. fold A2.
  rewrite round1_lastMessageId.
  rewrite (commit_eq prev p1). cbn [snd]. fold b1 F1 A1.
  rewrite <- !app_assoc. do 2 f_equal. cbn [app].
  destruct A1 eqn:E1.
  - rewrite (round2_auto_once E1). reflexivity.
  - destruct A2; reflexivity.
Qed.

(** A third round would run no effect that does anything. *)
Lemma settle_rest : commit (Some p2) p3 = (p3, []).
Proof.
  rewrite commit_eq. cbn zeta.
  assert (Hf : fetchDepsChanged (Some p2) p3 = false).
  { destruct round1_frame as (Hc&_&_&_&Hr&_).
    destruct settle_frame as (Hc'&_&_&_&Hr'&_).
    unfold fetchDepsChanged.
    rewrite (changed_same string_dec chatId), (changed_same Z.eq_dec reloadCounter)
      by congruence.
    reflexivity. }
  assert (Hp : pollDepsChanged (Some p2) p3 = false).
  { unfold pollDepsChanged. apply changed_same.
    destruct round1_fetch as (->&_). destruct settle_fetch as (->&_). reflexivity. }
  assert (Ht : trackScrollDepsChanged (Some p2) p3 = false).
  { unfold trackScrollDepsChanged. apply changed_same.
    destruct round1_frame as (_&_&->&_). destruct settle_frame as (_&_&->&_).
    reflexivity. }
  assert (Hs : firstScrollDepsChanged (Some p2) p3 = false).
  { unfold firstScrollDepsChanged.
    rewrite (changed_same bool_dec firstScroll), (changed_same messages_eq_dec messages),
      (changed_same bool_dec isLoading); auto.
    - destruct round1_fetch as (->&_). destruct settle_fetch as (->&_). reflexivity.
    - destruct round1_frame as (_&_&_&_&_&->&_).
      destruct settle_frame as (_&_&_&_&_&->&_). reflexivity.
    - rewrite settle_firstScroll, round1_firstScroll. reflexivity. }
  assert (Ha : autoScrollDepsChanged (Some p2) p3 && autoFires p3 = false).
  { destruct (autoFires p3) eqn:E; [|apply andb_false_r].
    rewrite andb_true_r. unfold autoScrollDepsChanged.
    assert (Hl : lastMessageId p3 = lastMessageId p1).
    { unfold lastMessageId. destruct settle_frame as (_&_&_&_&_&->&_). reflexivity. }
    rewrite (changed_same Z.eq_dec lastMessageId), (changed_same bool_dec autoScroll).
    - cbn [orb]. apply changed_same.
      unfold autoFires in E. rewrite Hl, settle_lastAuto in E.
      rewrite settle_lastAuto, round1_lastAuto.
      destruct A1 eqn:E1; cbn [orb] in *.
      + rewrite Z.eqb_refl, andb_false_r in E. discriminate.
      + destruct A2 eqn:E2.
        * rewrite Z.eqb_refl, andb_false_r in E. discriminate.
        * reflexivity.
    - rewrite settle_autoScroll, round1_autoScroll. reflexivity.
    - rewrite Hl, round1_lastMessageId. reflexivity. }
  rewrite Hf, Hp, Ht, Hs, Ha. unfold afterFetch. cbn [andb app].
  destruct p3; reflexivity.
Qed.

End Settle.

(** ** Lists of fetches *)

Lemma in_dropFetch r fs f :
  In f (dropFetch r fs) <-> In f fs /\ rid f <> r.
Proof.
  unfold dropFetch. rewrite filter_In, negb_true_iff, Nat.eqb_neq. tauto.
Qed.

Lemma findFetch_some r fs f :
  findFetch r fs = Some f -> In f fs /\ rid f = r.
Proof.
  unfold findFetch. intros H. apply find_some in H as [H1 H2].
  apply Nat.eqb_eq in H2. auto.
Qed.

Lemma findFetch_in r fs f :
  NoDup (map rid fs) -> In f fs -> rid f = r -> findFetch r fs = Some f.
Proof.
  unfold findFetch. induction fs as [|g fs IH]; cbn; [tauto|].
  intros Hnd [->|Hin] Hr; inversion Hnd as [|? ? Hn Hnd']; subst.
  - now rewrite Nat.eqb_refl.
  - destruct (Nat.eqb_spec (rid g) (rid f)) as [E|E].
    + exfalso. apply Hn. rewrite E. now apply in_map.
    + auto.
Qed.

Lemma NoDup_map_filter {A B} (g : A -> B) (P : A -> bool) l :
  NoDup (map g l) -> NoDup (map g (filter P l)).
Proof.
  induction l as [|x l IH]; cbn; [auto|].
  intros H. inversion H as [|? ? Hn Hnd]; subst.
  destruct (P x); cbn; auto.
  constructor; auto.
  intros Hin. apply Hn. apply in_map_iff in Hin as (y & <- & Hy).
  apply filter_In in Hy as [Hy _]. now apply in_map.
Qed.

Lemma map_rid_cancelFetch r fs : map rid (cancelFetch r fs) = map rid fs.
Proof.
  unfold cancelFetch. rewrite map_map. apply map_ext.
  intros f. destruct (Nat.eqb (rid f) r); reflexivity.
Qed.

Lemma in_cancelFetch r fs f :
  In f (cancelFetch r fs) ->
  exists g, In g fs /\ f = if Nat.eqb (rid g) r then cancel g else g.
Proof.
  unfold cancelFetch. intros H. apply in_map_iff in H as (g & <- & Hg). eauto.
Qed.

Lemma map_rid_cancelPending p : map rid (cancelPending p) = map rid (inflight p).
Proof.
  unfold cancelPending. destruct (cleanup p); [apply map_rid_cancelFetch | reflexivity].
Qed.

(** Once the pending cleanup has run, every fetch still awaited is
    cancelled. *)
Lemma cancelPending_all p f :
  (forall g, In g (inflight p) -> canceled g = false -> cleanup p = Some (rid g)) ->
  In f (cancelPending p) -> canceled f = true.
Proof.
  intros H. unfold cancelPending.
  destruct (cleanup p) as [r|] eqn:E.
  - intros Hin. apply in_cancelFetch in Hin as (g & Hg & ->).
    destruct (Nat.eqb_spec (rid g) r) as [Hr|Hr]; [reflexivity|].
    destruct (canceled g) eqn:Ec; [reflexivity|].
    specialize (H g Hg Ec). congruence.
  - intros Hin. destruct (canceled f) eqn:Ec; [reflexivity|].
    specialize (H f Hin Ec). discriminate.
Qed.

(** ** The fetch effect keeps the invariant *)

Lemma fetch_stage b p1 :
  freshIds p1 ->
  NoDup (map rid (inflight p1)) ->
  (forall g, In g (inflight p1) -> canceled g = false -> cleanup p1 = Some (rid g)) ->
  (b = true -> mounted p1 = true) ->
  (b = false -> activeOk p1) ->
  let a := afterFetch b p1 in
  activeOk a /\ freshIds a /\ NoDup (map rid (inflight a)).
Proof.
  intros Hf Hn Hc Hb Hb' a. subst a. rewrite afterFetch_eq.
  destruct b; [specialize (Hb eq_refl) | auto].
  destruct (Js.isEmpty (chatId p1)) eqn:Ee; unfold activeOk, freshIds; fields.
  - split; [|split].
    + intros f Hin Hcan. apply (cancelPending_all _ _ Hc) in Hin. congruence.
    + intros f Hin. assert (In (rid f) (map rid (cancelPending p1))) as Hr
        by now apply in_map.
      rewrite map_rid_cancelPending in Hr. apply in_map_iff in Hr as (g & <- & Hg).
      auto.
    + now rewrite map_rid_cancelPending.
  - split; [|split].
    + intros f Hin Hcan. apply in_app_or in Hin as [Hin|[<-|[]]].
      * apply (cancelPending_all _ _ Hc) in Hin. congruence.
      * unfold currentFetch, newFetch. fields. cbn. auto 10.
    + intros f Hin. apply in_app_or in Hin as [Hin|[<-|[]]].
      * assert (In (rid f) (map rid (cancelPending p1))) as Hr by now apply in_map.
        rewrite map_rid_cancelPending in Hr. apply in_map_iff in Hr as (g & <- & Hg).
        specialize (Hf g Hg). lia.
      * cbn. lia.
    + rewrite map_app, map_rid_cancelPending. cbn.
      apply NoDup_app; [assumption | repeat constructor; intros [] | ].
      intros x Hx [<-|[]]. apply in_map_iff in Hx as (g & Hr & Hg).
      specialize (Hf g Hg). lia.
Qed.

(** ** Handlers *)

Lemma fetchDeps_same p p1 :
  chatId p = chatId p1 -> reloadCounter p = reloadCounter p1 ->
  fetchDepsChanged (Some p) p1 = false.
Proof.
  intros H1 H2. unfold fetchDepsChanged.
  now rewrite (changed_same string_dec chatId), (changed_same Z.eq_dec reloadCounter).
Qed.

Lemma fetchDeps_false p p1 :
  fetchDepsChanged (Some p) p1 = false ->
  chatId p = chatId p1 /\ reloadCounter p = reloadCounter p1.
Proof.
  unfold fetchDepsChanged, changed. intros H.
  destruct (string_dec (chatId p) (chatId p1)); [|discriminate].
  destruct (Z.eq_dec (reloadCounter p) (reloadCounter p1)); [|discriminate].
  auto.
Qed.

(** A handler that leaves the fetches, the messages and the loading flag
    alone. *)
Lemma handlerOk_same p p1 :
  HookInv p ->
  inflight p1 = inflight p -> cleanup p1 = cleanup p -> messages p1 = messages p ->
  mounted p1 = mounted p -> interval p1 = interval p -> isLoading p1 = isLoading p ->
  (nextReq p <= nextReq p1)%nat ->
  (mounted p = false -> chatId p1 = chatId p /\ reloadCounter p1 = reloadCounter p) ->
  handlerOk p p1.
Proof.
  intros [Ha Hf Hn Hi] Ei Ec Em Emo Eint El Hnx Hun.
  assert (Hact : forall p2 : Page,
            inflight p2 = inflight p -> cleanup p2 = cleanup p ->
            messages p2 = messages p -> mounted p2 = mounted p ->
            chatId p2 = chatId p -> activeOk p2).
  { intros p2 E1 E2 E3 E4 E5 f Hin Hc. unfold currentFetch.
    rewrite E1 in Hin. rewrite E2, E3, E4, E5. exact (Ha f Hin Hc). }
  unfold handlerOk.
  split; [|split; [|split; [|split; [|split; [|split]]]]].
  - intros f Hin. rewrite Ei in Hin. specialize (Hf f Hin). lia.
  - rewrite Ei. exact Hn.
  - intros g Hg Hc. rewrite Ei in Hg. rewrite Ec. apply (Ha g Hg Hc).
  - intros Hd. rewrite Emo. destruct (mounted p); [reflexivity|].
    destruct (Hun eq_refl) as [H1 H2].
    rewrite fetchDeps_same in Hd by auto. discriminate.
  - intros Hd. apply fetchDeps_false in Hd as [Hd _]. now apply Hact.
  - intros M. rewrite Emo in M. auto.
  - intros M. rewrite Emo in M. rewrite Eint, El, Hi, M.
    repeat split. apply fetchDeps_same; symmetry; apply (Hun M).
Qed.

Lemma handlerOk_refl p : HookInv p -> handlerOk p p.
Proof. intros H. apply handlerOk_same; auto. Qed.

Lemma send_same p :
  let p1 := fst (send p) in
  inflight p1 = inflight p /\ cleanup p1 = cleanup p /\ messages p1 = messages p /\
  mounted p1 = mounted p /\ interval p1 = interval p /\ isLoading p1 = isLoading p /\
  (nextReq p <= nextReq p1)%nat /\ chatId p1 = chatId p /\
  reloadCounter p1 = reloadCounter p.
Proof.
  unfold send. destruct (isSendingMessage p); fields; repeat split; lia.
Qed.

Lemma handlerOk_send p : HookInv p -> handlerOk p (fst (send p)).
Proof.
  intros H. destruct (send_same p) as (?&?&?&?&?&?&?&?&?).
  apply handlerOk_same; auto.
Qed.

Lemma resumeSend_same failure p :
  let p1 := fst (resumeSend failure p) in
  inflight p1 = inflight p /\ cleanup p1 = cleanup p /\ messages p1 = messages p /\
  mounted p1 = mounted p /\ interval p1 = interval p /\ isLoading p1 = isLoading p /\
  nextReq p1 = nextReq p /\ chatId p1 = chatId p /\
  (mounted p = false -> reloadCounter p1 = reloadCounter p).
Proof.
  unfold resumeSend, setState.
  destruct failure; destruct (mounted p) eqn:E; fields;
    repeat (rewrite E; fields); repeat split; intros; congruence.
Qed.

Lemma handle_ok p ev : HookInv p -> handlerOk p (fst (handle p ev)).
Proof.
  intros H. destruct ev as [c| |r res|el|v|ic kc k| |r fl|]; cbn [handle].
  - (* RouteChange *)
    destruct (mounted p) eqn:M; cbn [negb fst]; [|now apply handlerOk_refl].
    apply handlerOk_same; auto; congruence.
  - (* IntervalTick *)
    destruct (mounted p) eqn:M; cbn [negb fst]; [|now apply handlerOk_refl].
    destruct (interval p); [|now apply handlerOk_refl].
    apply handlerOk_same; auto; congruence.
  - (* FetchSettled *)
    destruct (findFetch r (inflight p)) as [f|] eqn:F; [|now apply handlerOk_refl].
    apply findFetch_some in F as [Fin Fr].
    destruct H as [Ha Hf Hn Hi].
    set (p' := set_inflight (dropFetch r (inflight p)) p).
    assert (Hdrop : forall g, In g (dropFetch r (inflight p)) -> In g (inflight p) /\ rid g <> r)
      by (intros g; apply in_dropFetch).
    assert (Hshape :
      let p1 := fst (resume f res p') in
      inflight p1 = dropFetch r (inflight p) /\ cleanup p1 = cleanup p /\
      mounted p1 = mounted p /\ interval p1 = interval p /\ nextReq p1 = nextReq p /\
      chatId p1 = chatId p /\ reloadCounter p1 = reloadCounter p /\
      (mounted p = false -> isLoading p1 = isLoading p) /\
      (canceled f = true -> messages p1 = messages p)).
    { unfold resume, setState, appendMessages. subst p'.
      destruct res as [m|e]; destruct (canceled f);
        try destruct (negb (isSome (f_messages f)) || nonEmpty m);
        fields; destruct (mounted p) eqn:M; fields;
        repeat (rewrite M; fields); repeat split; intros; congruence. }
    cbv zeta in Hshape.
    destruct Hshape as (Ei&Ec&Emo&Eint&Enx&Ech&Erc&Eld&Emsg).
    unfold handlerOk, freshIds, activeOk.
    rewrite Ei, Ec, Emo, Eint, Enx.
    assert (Hd : fetchDepsChanged (Some p) (fst (resume f res p')) = false)
      by (apply fetchDeps_same; congruence).
    rewrite Hd.
    split; [|split; [|split; [|split; [|split; [|split]]]]].
    + intros g Hg. apply Hdrop in Hg as [Hg _]. auto.
    + apply NoDup_map_filter, Hn.
    + intros g Hg Hc. apply Hdrop in Hg as [Hg _]. apply (Ha g Hg Hc).
    + discriminate.
    + intros _ g Hg Hc. apply Hdrop in Hg as [Hg Hr].
      destruct (Ha g Hg Hc) as (Hm&Hcl&Hci&He&Hms&Hs).
      destruct (canceled f) eqn:Cf.
      * unfold currentFetch. rewrite Emo, Ec, Ech, (Emsg eq_refl). auto 10.
      * destruct (Ha f Fin Cf) as (_&Hcl'&_). congruence.
    + intros M. split; [reflexivity | assumption].
    + intros M. rewrite Hi, M. auto.
  - (* WindowScroll *)
    destruct (mounted p) eqn:M; cbn [negb fst]; [|now apply handlerOk_refl].
    apply handlerOk_same; auto; congruence.
  - (* Input *)
    destruct (mounted p) eqn:M; cbn [negb fst]; [|now apply handlerOk_refl].
    destruct (isSendingMessage p); [now apply handlerOk_refl|].
    apply handlerOk_same; auto; congruence.
  - (* KeyDown *)
    destruct (mounted p) eqn:M; cbn [negb fst]; [|now apply handlerOk_refl].
    destruct (isSendingMessage p); [now apply handlerOk_refl|].
    unfold handleKeyDown.
    destruct (negb (ic || (kc =? 229)) && String.eqb k "Enter"
              && negb (Js.isEmpty (Js.trim (composingMessage p))));
      [now apply handlerOk_send | now apply handlerOk_refl].
  - (* ClickSend *)
    destruct (mounted p) eqn:M; cbn [negb fst]; [|now apply handlerOk_refl].
    destruct (isSendingMessage p); [now apply handlerOk_refl|].
    now apply handlerOk_send.
  - (* PostSettled *)
    destruct (memNat r (posting p)); [|now apply handlerOk_refl].
    destruct (resumeSend_same fl (set_posting (removeNat r (posting p)) p))
      as (Ei&Ec&Em&Emo&Eint&El&Enx&Ech&Erc).
    fields in Ei. fields in Ec. fields in Em. fields in Emo. fields in Eint.
    fields in El. fields in Enx. fields in Ech. fields in Erc.
    apply handlerOk_same; auto; rewrite ?Enx; auto.
  - (* Unmount *)
    destruct (mounted p) eqn:M; cbn [negb fst]; [|now apply handlerOk_refl].
    destruct H as [Ha Hf Hn Hi].
    assert (Hshape :
      let p1 := set_mounted false (set_interval false (runCleanup p)) in
      inflight p1 = cancelPending p /\ mounted p1 = false /\ interval p1 = false /\
      nextReq p1 = nextReq p /\ chatId p1 = chatId p /\
      reloadCounter p1 = reloadCounter p /\ isLoading p1 = isLoading p).
    { unfold runCleanup, cancelPending. destruct (cleanup p); fields; auto 10. }
    cbv zeta in Hshape. destruct Hshape as (Ei&Emo&Eint&Enx&Ech&Erc&El).
    assert (Hall : forall g, In g (cancelPending p) -> canceled g = true).
    { intros g. apply cancelPending_all. intros h Hh Hc. apply (Ha h Hh Hc). }
    assert (Hd : fetchDepsChanged (Some p)
                   (set_mounted false (set_interval false (runCleanup p))) = false)
      by (apply fetchDeps_same; congruence).
    unfold handlerOk, freshIds, activeOk.
    rewrite Ei, Emo, Eint, Enx, Hd, map_rid_cancelPending.
    split; [|split; [|split; [|split; [|split; [|split]]]]].
    + intros g Hg.
      assert (In (rid g) (map rid (cancelPending p))) as Hr by now apply in_map.
      rewrite map_rid_cancelPending in Hr. apply in_map_iff in Hr as (h & <- & Hh).
      auto.
    + assumption.
    + intros g Hg Hc. apply Hall in Hg. congruence.
    + discriminate.
    + intros _ g Hg Hc. apply Hall in Hg. congruence.
    + discriminate.
    + auto.
Qed.

(** ** One event keeps the invariant *)

Lemma step_unfold p ev :
  step p ev =
  (fst (settle rounds (Some p) (fst (handle p ev))),
   snd (handle p ev) ++ snd (settle rounds (Some p) (fst (handle p ev)))).
Proof.
  unfold step. destruct (handle p ev) as [p1 o1]. cbn [fst snd].
  destruct (settle rounds (Some p) p1). reflexivity.
Qed.

Lemma pollDeps_false p p1 :
  pollDepsChanged (Some p) p1 = false -> isLoading p = isLoading p1.
Proof.
  unfold pollDepsChanged, changed.
  destruct (bool_dec (isLoading p) (isLoading p1)); [auto | discriminate].
Qed.

Lemma settle_inv prev p1 :
  let a := afterFetch (fetchDepsChanged prev p1) p1 in
  activeOk a -> freshIds a -> NoDup (map rid (inflight a)) ->
  (mounted p1 = true ->
   pollDepsChanged prev p1 = false -> interval p1 = negb (isLoading p1)) ->
  (mounted p1 = false ->
   interval p1 = false /\ pollDepsChanged prev p1 = false /\
   fetchDepsChanged prev p1 = false) ->
  HookInv (fst (settle rounds prev p1)).
Proof.
  intros a Ha Hf Hn Hm Hu.
  rewrite settle_unfold. cbn [fst].
  destruct (settle_frame prev p1) as (Ech&_&_&Emo&_&Ems&_).
  destruct (settle_fetch prev p1) as (El&_&Ei&Ec&Enx).
  destruct (afterFetch_frame (fetchDepsChanged prev p1) p1)
    as (Ach&_&_&Amo&_&Ams&_).
  fold a in El, Ei, Ec, Enx, Ach, Amo, Ams.
  split.
  - unfold activeOk, currentFetch. rewrite Ei, Ec, Emo, Ech, Ems.
    rewrite <- Amo, <- Ach, <- Ams. exact Ha.
  - unfold freshIds. rewrite Ei, Enx. exact Hf.
  - rewrite Ei. exact Hn.
  - rewrite settle_interval, El, Emo. fold a.
    destruct (round1_fetch prev p1) as (El2&_). fold a in El2.
    destruct (mounted p1) eqn:M.
    + cbn [andb].
      destruct (pollDepsChanged (Some p1) (fst (commit prev p1))) eqn:P2; [reflexivity|].
      apply pollDeps_false in P2. rewrite El2 in P2. rewrite <- P2.
      destruct (pollDepsChanged prev p1) eqn:P1; [reflexivity|].
      now apply Hm.
    + cbn [andb]. destruct (Hu eq_refl) as (Hi&Hp&Hd).
      assert (Ea : a = p1) by (subst a; rewrite Hd; reflexivity).
      rewrite Hp.
      unfold pollDepsChanged. rewrite changed_same; [assumption|].
      rewrite El2, Ea. reflexivity.
Qed.

Lemma step_inv p ev : HookInv p -> HookInv (fst (step p ev)).
Proof.
  intros H. rewrite step_unfold. cbn [fst].
  destruct (handle_ok p ev H) as (Hf&Hn&Hc&Hd1&Hd0&Hm&Hu).
  set (p1 := fst (handle p ev)) in *.
  destruct (fetch_stage (fetchDepsChanged (Some p) p1) p1 Hf Hn Hc Hd1 Hd0)
    as (Ha'&Hf'&Hn').
  apply settle_inv; auto.
  - intros M P. destruct (Hm M) as [Ei Mp].
    apply pollDeps_false in P. rewrite Ei, (inv_interval _ H), Mp, P. reflexivity.
  - intros M. destruct (Hu M) as (Hi&Hl&Hd). repeat split; auto.
    unfold pollDepsChanged. apply changed_same. auto.
Qed.

Lemma mount_inv chat el : HookInv (fst (mount chat el)).
Proof.
  unfold mount.
  assert (E : afterFetch (fetchDepsChanged None (initialPage chat el))
                (initialPage chat el) =
              let p0 := initialPage chat el in
              if Js.isEmpty chat then set_cleanup None (set_inflight [] p0)
              else
                set_error None
                  (set_isLoading true
                     (set_cleanup (Some O)
                        (set_nextReq 1%nat (set_inflight [newFetch p0] p0))))).
  { rewrite afterFetch_eq. reflexivity. }
  apply settle_inv; rewrite ?E; cbv zeta.
  - destruct (Js.isEmpty chat) eqn:Ee; unfold activeOk; fields.
    + intros f [].
    + intros f [<-|[]] _. unfold currentFetch; cbn. auto 10.
  - destruct (Js.isEmpty chat) eqn:Ee; unfold freshIds; fields.
    + intros f [].
    + intros f [<-|[]]. cbn. lia.
  - destruct (Js.isEmpty chat) eqn:Ee; fields; cbn; repeat constructor.
    intros [].
  - discriminate.
  - discriminate.
Qed.

Theorem reachable_inv p : reachable p -> HookInv p.
Proof.
  induction 1 as [chat el | p ev _ IH].
  - apply mount_inv.
  - now apply step_inv.
Qed.

(** ** Ascending message lists *)

Lemma lastId_cons x l : l <> [] -> lastId (x :: l) = lastId l.
Proof. destruct l; [congruence | reflexivity]. Qed.

Lemma lastId_in l : l <> [] -> exists m, In m l /\ lastId l = id m.
Proof.
  induction l as [|x l IH]; [congruence|]. intros _.
  destruct l as [|y l].
  - exists x. cbn. auto.
  - destruct IH as (m & Hm & E); [discriminate|].
    exists m. split; [now right | exact E].
Qed.

Lemma lastId_app l m : m <> [] -> lastId (l ++ m) = lastId m.
Proof.
  intros Hm. induction l as [|x l IH]; [reflexivity|].
  cbn [app]. rewrite lastId_cons; [exact IH|].
  destruct l; cbn; [assumption | discriminate].
Qed.

Lemma ascending_lastId_max l :
  ascending l -> forall y, In y l -> id y <= lastId l.
Proof.
  unfold ascending. induction l as [|x l IH]; cbn [map]; intros H y Hy; [destruct Hy|].
  apply StronglySorted_inv in H as [Hs Hx].
  destruct l as [|z l].
  - destruct Hy as [->|[]]. cbn. lia.
  - rewrite lastId_cons by discriminate.
    destruct Hy as [->|Hy]; [|now apply IH].
    destruct (lastId_in (z :: l)) as (m & Hm & ->); [discriminate|].
    rewrite Forall_forall in Hx.
    specialize (Hx (id m) (in_map id _ _ Hm)). lia.
Qed.

Lemma StronglySorted_lt_app (l1 l2 : list Z) :
  StronglySorted Z.lt l1 -> StronglySorted Z.lt l2 ->
  (forall x y, In x l1 -> In y l2 -> x < y) ->
  StronglySorted Z.lt (l1 ++ l2).
Proof.
  induction l1 as [|a l1 IH]; cbn [app]; intros H1 H2 H; [assumption|].
  apply StronglySorted_inv in H1 as [Hs Ha].
  constructor.
  - apply IH; auto. intros x y Hx Hy. apply H; [now right | assumption].
  - apply Forall_app. split; [assumption|].
    apply Forall_forall. intros y Hy. apply H; [now left | assumption].
Qed.

Lemma StronglySorted_lt_NoDup (l : list Z) :
  StronglySorted Z.lt l -> NoDup l.
Proof.
  induction 1 as [|a l Hs IH Ha]; constructor; [|assumption].
  intros Hin. rewrite Forall_forall in Ha. specialize (Ha a Hin). lia.
Qed.

(** Appending a response that honours the contract for the cursor of the
    known messages keeps them ascending. *)
Lemma ascending_append old m :
  ascending old -> honoursContract (lastId old) m -> ascending (old ++ m).
Proof.
  intros Ho [Hn Hm]. unfold ascending. rewrite map_app.
  apply StronglySorted_lt_app; auto.
  intros x y Hx Hy.
  apply in_map_iff in Hx as (a & <- & Ha). apply in_map_iff in Hy as (b & <- & Hb).
  rewrite Forall_forall in Hn. specialize (Hn b Hb).
  pose proof (ascending_lastId_max old Ho a Ha). lia.
Qed.

(** ** A fetch settles *)

Lemma settle_hook_idle prev p1 :
  fetchDepsChanged prev p1 = false ->
  let p3 := fst (settle rounds prev p1) in
  isLoading p3 = isLoading p1 /\ error p3 = error p1 /\
  inflight p3 = inflight p1 /\ cleanup p3 = cleanup p1 /\
  nextReq p3 = nextReq p1 /\ messages p3 = messages p1 /\
  chatId p3 = chatId p1 /\ mounted p3 = mounted p1 /\
  reloadCounter p3 = reloadCounter p1.
Proof.
  intros Hd p3. subst p3. rewrite settle_unfold. cbn [fst].
  destruct (settle_frame prev p1) as (Ech&_&_&Emo&Erc&Ems&_).
  destruct (settle_fetch prev p1) as (El&Ee&Ei&Ec&Enx).
  rewrite Hd in El, Ee, Ei, Ec, Enx. unfold afterFetch in *.
  auto 10.
Qed.

Lemma handle_fetchSettled p f res :
  NoDup (map rid (inflight p)) -> In f (inflight p) ->
  handle p (FetchSettled (rid f) res) =
  resume f res (set_inflight (dropFetch (rid f) (inflight p)) p).
Proof.
  intros Hn Hin. cbn [handle]. now rewrite (findFetch_in (rid f) _ f Hn Hin eq_refl).
Qed.

Lemma resume_deps f res p :
  let p1 := fst (resume f res p) in
  chatId p1 = chatId p /\ reloadCounter p1 = reloadCounter p.
Proof.
  unfold resume, setState, appendMessages.
  destruct res as [m|e]; destruct (canceled f);
    try destruct (negb (isSome (f_messages f)) || nonEmpty m);
    destruct (mounted p) eqn:M; fields; repeat (rewrite M; fields); auto.
Qed.

(** The page right after a fetch of a reachable page settles. *)
Lemma step_fetchSettled p f res :
  HookInv p -> In f (inflight p) ->
  let p1 := fst (resume f res (set_inflight (dropFetch (rid f) (inflight p)) p)) in
  let p' := fst (step p (FetchSettled (rid f) res)) in
  isLoading p' = isLoading p1 /\ error p' = error p1 /\
  inflight p' = inflight p1 /\ cleanup p' = cleanup p1 /\
  nextReq p' = nextReq p1 /\ messages p' = messages p1 /\
  chatId p' = chatId p1 /\ mounted p' = mounted p1 /\
  reloadCounter p' = reloadCounter p1.
Proof.
  intros H Hin p1 p'. subst p'. rewrite step_unfold. cbn [fst].
  rewrite (handle_fetchSettled p f res (inv_nodup _ H) Hin). fold p1.
  apply settle_hook_idle.
  destruct (resume_deps f res (set_inflight (dropFetch (rid f) (inflight p)) p))
    as [E1 E2].
  apply fetchDeps_same; symmetry; assumption.
Qed.

Lemma get_in_step p ev c s :
  In (Get c s) (snd (step p ev)) ->
  c = chatId (fst (step p ev)) /\ s = lastIdOf (messages (fst (step p ev))).
Proof.
  rewrite step_unfold. cbn [fst snd].
  set (p1 := fst (handle p ev)).
  destruct (settle_frame (Some p) p1) as (Ech&_&_&_&_&Ems&_).
  rewrite settle_unfold. cbn [fst]. rewrite Ech, Ems.
  rewrite <- settle_unfold, settle_actions.
  intros Hin. apply in_app_or in Hin as [Hin|Hin].
  - exfalso. subst p1.
    destruct ev as [ch| |r res|el|v|ic kc k| |r fl|]; cbn [handle] in Hin.
    + destruct (negb (mounted p)); destruct Hin.
    + destruct (negb (mounted p)); [destruct Hin|].
      destruct (interval p); destruct Hin.
    + destruct (findFetch r (inflight p)) as [f|]; [|destruct Hin].
      unfold resume in Hin.
      destruct res; [destruct (canceled f); destruct Hin|].
      destruct Hin as [Hin|[]]. discriminate.
    + destruct (negb (mounted p)); destruct Hin.
    + destruct (negb (mounted p)); [destruct Hin|].
      destruct (isSendingMessage p); destruct Hin.
    + destruct (negb (mounted p)); [destruct Hin|].
      destruct (isSendingMessage p) eqn:S; [destruct Hin|].
      unfold handleKeyDown, send in Hin. rewrite S in Hin.
      destruct (negb (ic || (kc =? 229)) && String.eqb k "Enter"
                && negb (Js.isEmpty (Js.trim (composingMessage p))));
        [destruct Hin as [Hin|[]]; discriminate | destruct Hin].
    + destruct (negb (mounted p)); [destruct Hin|].
      destruct (isSendingMessage p) eqn:S; [destruct Hin|].
      unfold send in Hin. rewrite S in Hin.
      destruct Hin as [Hin|[]]; discriminate.
    + destruct (memNat r (posting p)); [|destruct Hin].
      unfold resumeSend in Hin. destruct fl; [|destruct Hin].
      destruct Hin as [Hin|[]]. discriminate.
    + destruct (negb (mounted p)); destruct Hin.
  - apply in_app_or in Hin as [Hin|Hin].
    + destruct (fetchDepsChanged (Some p) p1); [|destruct Hin].
      rewrite fetchEffect_snd in Hin.
      destruct (Js.isEmpty (chatId p1)); [destruct Hin|].
      destruct Hin as [E|[]]. inversion E. auto.
    + exfalso. apply in_app_or in Hin as [Hin|Hin].
      * destruct (_ && _) in Hin; [destruct Hin as [E|[]]; discriminate | destruct Hin].
      * destruct (_ || _) in Hin; [destruct Hin as [E|[]]; discriminate | destruct Hin].
Qed.

(** ** The poll timer *)

Lemma commit_same p : commit (Some p) p = (p, []).
Proof.
  rewrite commit_eq. cbv zeta.
  assert (Hf : fetchDepsChanged (Some p) p = false) by now apply fetchDeps_same.
  unfold pollDepsChanged, firstScrollDepsChanged, trackScrollDepsChanged,
    autoScrollDepsChanged.
  rewrite Hf, !changed_same by reflexivity.
  unfold afterFetch. cbn [orb andb app]. destruct p; reflexivity.
Qed.

Lemma settle_same p : settle rounds (Some p) p = (p, []).
Proof. unfold rounds. cbn [settle]. now rewrite !commit_same. Qed.

(** A handler that leaves alone what the scroll effects depend on: the
    renders after it scroll nothing. *)
Lemma settle_actions_quiet p p1 :
  firstScroll p1 = firstScroll p -> messages p1 = messages p ->
  isLoading p1 = isLoading p -> pos p1 = pos p ->
  autoScroll p1 = autoScroll p ->
  lastAutoScrolledMessageId p1 = lastAutoScrolledMessageId p ->
  snd (settle rounds (Some p) p1) =
  if fetchDepsChanged (Some p) p1 then snd (fetchEffect p1 p1) else [].
Proof.
  intros Ef Em El Ep Ea Ela. rewrite settle_actions.
  assert (Elm : lastMessageId p = lastMessageId p1)
    by (unfold lastMessageId; now rewrite Em).
  assert (F : firstScrollDepsChanged (Some p) p1 = false).
  { unfold firstScrollDepsChanged. now rewrite !changed_same by auto. }
  assert (A : autoScrollDepsChanged (Some p) p1 = false).
  { unfold autoScrollDepsChanged. now rewrite !changed_same by auto. }
  assert (T : trackScrollDepsChanged (Some p) p1 = false).
  { unfold trackScrollDepsChanged. now rewrite !changed_same by auto. }
  assert (A2 : autoScrollDepsChanged (Some p1) (fst (commit (Some p) p1)) = false).
  { unfold autoScrollDepsChanged.
    rewrite !changed_same; [reflexivity| | |].
    - rewrite round1_lastAuto, A. reflexivity.
    - rewrite round1_autoScroll, T. reflexivity.
    - now rewrite round1_lastMessageId. }
  rewrite F, A, A2. cbn [andb orb]. now rewrite !app_nil_r.
Qed.

Lemma tick_actions p :
  mounted p = true -> interval p = true ->
  snd (step p IntervalTick) =
  if Js.isEmpty (chatId p) then []
  else [Get (chatId p) (lastIdOf (messages p))].
Proof.
  intros M I. rewrite step_unfold. cbn [handle fst snd]. rewrite M, I.
  cbn [negb fst snd app].
  rewrite settle_actions_quiet by reflexivity.
  assert (D : fetchDepsChanged (Some p) (set_reloadCounter (reloadCounter p + 1) p) = true).
  { unfold fetchDepsChanged.
    rewrite (changed_diff Z.eq_dec reloadCounter); [apply orb_true_r|].
    fields. lia. }
  rewrite D, fetchEffect_snd. fields. reflexivity.
Qed.

Lemma tick_idle p :
  interval p = false -> step p IntervalTick = (p, []).
Proof.
  intros I. rewrite step_unfold. cbn [handle]. rewrite I.
  destruct (negb (mounted p)); cbn [fst snd]; now rewrite settle_same.
Qed.

Lemma resume_rejected f e p :
  mounted p = true ->
  resume f (Rejected e) p =
  (set_isLoading false (set_error (Some e) p), [ConsoleError e]).
Proof.
  intros M. unfold resume, setState. rewrite M. fields. now rewrite M.
Qed.

(** C4.  When a fetch of a reachable page that is awaited and not
    cancelled fails, the messages are unchanged (nothing is appended), the
    failure is the error value, the loading flag is down and the poll timer
    is armed; the next tick sends a request for the messages after the last
    one known. *)
Theorem failed_fetch_keeps_polling p f e :
  reachable p -> In f (inflight p) -> canceled f = false ->
  let p' := fst (step p (FetchSettled (rid f) (Rejected e))) in
  messages p' = messages p /\
  error p' = Some e /\
  isLoading p' = false /\
  interval p' = true /\
  snd (step p' IntervalTick) = [Get (chatId p') (lastId (known p'))].
Proof.
  intros Hr Hin Hc p'.
  pose proof (reachable_inv p Hr) as H.
  destruct (inv_active _ H f Hin Hc) as (Hmo&Hcl&Hch&He&Hms&Hs).
  destruct (step_fetchSettled p f (Rejected e) H Hin)
    as (El&Ee&_&_&_&Em&Ech&Emo&_).
  fold p' in El, Ee, Em, Ech, Emo.
  rewrite resume_rejected in El, Ee, Em, Ech, Emo by exact Hmo.
  fields in El. fields in Ee. fields in Em. fields in Ech. fields in Emo.
  assert (Hr' : reachable p') by (apply reachable_step; assumption).
  pose proof (inv_interval _ (reachable_inv p' Hr')) as Hi.
  rewrite Emo, El, Hmo in Hi. cbn [andb negb] in Hi.
  split; [exact Em|]. split; [exact Ee|]. split; [exact El|]. split; [exact Hi|].
  rewrite tick_actions by congruence.
  rewrite Ech, He. unfold lastIdOf, known. destruct (messages p'); reflexivity.
Qed.

(** ** Single flight *)

Lemma loading_same p p1 :
  inflight p1 = inflight p -> isLoading p1 = isLoading p ->
  loadingWhileActive p -> loadingWhileActive p1.
Proof. unfold loadingWhileActive. intros -> ->. auto. Qed.

Lemma handle_loading p ev :
  HookInv p -> loadingWhileActive p -> staleFailure p ev = false ->
  loadingWhileActive (fst (handle p ev)).
Proof.
  intros H K S. destruct ev as [c| |r res|el|v|ic kc k| |r fl|]; cbn [handle].
  - destruct (mounted p); cbn [negb fst]; [|assumption].
    now apply (loading_same p).
  - destruct (mounted p); cbn [negb fst]; [|assumption].
    destruct (interval p); [|assumption]. now apply (loading_same p).
  - cbn [staleFailure] in S.
    destruct (findFetch r (inflight p)) as [f|] eqn:F; [|assumption].
    apply findFetch_some in F as [Fin Fr].
    intros g Hg Hc.
    assert (Hi : inflight (fst (resume f res (set_inflight (dropFetch r (inflight p)) p)))
                 = dropFetch r (inflight p)).
    { unfold resume, setState, appendMessages.
      destruct res as [m|e]; destruct (canceled f);
        try destruct (negb (isSome (f_messages f)) || nonEmpty m);
        fields; destruct (mounted p) eqn:M; fields;
        repeat (rewrite M; fields); reflexivity. }
    rewrite Hi in Hg. apply in_dropFetch in Hg as [Hg Hr].
    destruct (canceled f) eqn:Cf.
    + destruct res as [m|e]; [|discriminate].
      unfold resume. rewrite Cf. fields. apply (K g Hg Hc).
    + destruct (inv_active _ H f Fin Cf) as (_&Hcl&_).
      destruct (inv_active _ H g Hg Hc) as (_&Hcl'&_). congruence.
  - destruct (mounted p); cbn [negb fst]; [|assumption].
    now apply (loading_same p).
  - destruct (mounted p); cbn [negb fst]; [|assumption].
    destruct (isSendingMessage p); [assumption|]. now apply (loading_same p).
  - destruct (mounted p); cbn [negb fst]; [|assumption].
    destruct (isSendingMessage p); [assumption|].
    unfold handleKeyDown.
    destruct (negb (ic || (kc =? 229)) && String.eqb k "Enter"
              && negb (Js.isEmpty (Js.trim (composingMessage p)))); [|assumption].
    destruct (send_same p) as (?&?&?&?&?&?&?). now apply (loading_same p).
  - destruct (mounted p); cbn [negb fst]; [|assumption].
    destruct (isSendingMessage p); [assumption|].
    destruct (send_same p) as (?&?&?&?&?&?&?). now apply (loading_same p).
  - destruct (memNat r (posting p)); [|assumption].
    destruct (resumeSend_same fl (set_posting (removeNat r (posting p)) p))
      as (Ei&_&_&_&_&El&_).
    now apply (loading_same p).
  - destruct (mounted p); cbn [negb fst]; [|assumption].
    intros g Hg Hc. exfalso.
    assert (Hi : inflight (set_mounted false (set_interval false (runCleanup p)))
                 = cancelPending p).
    { unfold runCleanup, cancelPending. destruct (cleanup p); reflexivity. }
    rewrite Hi in Hg. apply cancelPending_all in Hg; [congruence|].
    intros h Hh Hc'. apply (inv_active _ H h Hh Hc').
Qed.

Lemma step_loading p ev :
  HookInv p -> loadingWhileActive p -> staleFailure p ev = false ->
  loadingWhileActive (fst (step p ev)).
Proof.
  intros H K S. rewrite step_unfold. cbn [fst].
  pose proof (handle_loading p ev H K S) as K1.
  destruct (handle_ok p ev H) as (_&_&Hc&_).
  set (p1 := fst (handle p ev)) in *.
  rewrite settle_unfold. cbn [fst].
  destruct (settle_fetch (Some p) p1) as (El&_&Ei&_).
  unfold loadingWhileActive. rewrite El, Ei, afterFetch_eq.
  destruct (fetchDepsChanged (Some p) p1); [|exact K1].
  destruct (Js.isEmpty (chatId p1)); fields.
  - intros f Hf Hcf. apply (cancelPending_all _ _ Hc) in Hf. congruence.
  - reflexivity.
Qed.

Lemma mount_loading chat el : loadingWhileActive (fst (mount chat el)).
Proof.
  unfold mount, loadingWhileActive. rewrite settle_unfold. cbn [fst].
  destruct (settle_fetch None (initialPage chat el)) as (->&_).
  rewrite afterFetch_isLoading. intros _ _ _.
  destruct (fetchStarts _ _); reflexivity.
Qed.

Lemma run_cons p ev rest :
  run p (ev :: rest) =
  (fst (run (fst (step p ev)) rest),
   snd (step p ev) ++ snd (run (fst (step p ev)) rest)).
Proof.
  cbn [run]. destruct (step p ev) as [p1 o1]. cbn [fst snd].
  destruct (run p1 rest). reflexivity.
Qed.

Lemma run_reachable p evs : reachable p -> reachable (fst (run p evs)).
Proof.
  revert p. induction evs as [|ev rest IH]; intros p H; [exact H|].
  rewrite run_cons. cbn [fst]. apply IH. now apply reachable_step.
Qed.

Lemma run_loading p evs :
  reachable p -> loadingWhileActive p -> noStaleFailure p evs = true ->
  loadingWhileActive (fst (run p evs)).
Proof.
  revert p. induction evs as [|ev rest IH]; intros p Hr K S; [exact K|].
  rewrite run_cons. cbn [fst]. cbn [noStaleFailure] in S.
  apply andb_true_iff in S as [S1 S2]. apply negb_true_iff in S1.
  apply IH; [now apply reachable_step | | assumption].
  apply step_loading; auto. now apply reachable_inv.
Qed.

Lemma runFromMount_eq chat el evs :
  runFromMount chat el evs =
  (fst (run (fst (mount chat el)) evs),
   snd (mount chat el) ++ snd (run (fst (mount chat el)) evs)).
Proof.
  unfold runFromMount. destruct (mount chat el) as [p0 o0]. cbn [fst snd].
  destruct (run p0 evs). reflexivity.
Qed.

(** ** The requests of the fetch cycles *)








(** C3, amended.  In every run from the mount of the page: the poll timer
    is armed exactly while the page is mounted and the loading flag is down,
    and a tick with the timer not armed does nothing; at most one of the
    fetches in flight is not cancelled; and, in a run in which no cancelled
    fetch has failed, while a fetch that is not cancelled is awaited the
    loading flag is up, the timer is not armed and a tick starts no fetch. *)
Theorem poll_timer_single_flight chat el evs :
  let p := fst (runFromMount chat el evs) in
  (* armed exactly while mounted and not loading *)
  interval p = mounted p && negb (isLoading p) /\
  (interval p = false -> step p IntervalTick = (p, [])) /\
  (* at most one fetch in flight is not cancelled *)
  (forall f g, In f (inflight p) -> In g (inflight p) ->
     canceled f = false -> canceled g = false -> f = g) /\
  (* and while it is awaited the timer starts nothing, unless a cancelled
     fetch has failed *)
  (noStaleFailure (fst (mount chat el)) evs = true ->
   forall f, In f (inflight p) -> canceled f = false ->
     isLoading p = true /\ interval p = false /\ step p IntervalTick = (p, [])).
Proof.
  intros p. subst p. rewrite runFromMount_eq. cbn [fst].
  set (p := fst (run (fst (mount chat el)) evs)).
  assert (Hr : reachable p) by (apply run_reachable, reachable_mount).
  pose proof (reachable_inv p Hr) as H.
  split; [apply (inv_interval _ H)|].
  split; [apply tick_idle|].
  split.
  - intros f g Hf Hg Cf Cg.
    destruct (inv_active _ H f Hf Cf) as (_&Ef&_).
    destruct (inv_active _ H g Hg Cg) as (_&Eg&_).
    assert (E : rid f = rid g) by congruence.
    pose proof (findFetch_in (rid f) _ f (inv_nodup _ H) Hf eq_refl) as F1.
    pose proof (findFetch_in (rid f) _ g (inv_nodup _ H) Hg (eq_sym E)) as F2.
    congruence.
  - intros S f Hf Cf.
    assert (K : loadingWhileActive p).
    { apply run_loading; auto using reachable_mount, mount_loading. }
    assert (L : isLoading p = true) by apply (K f Hf Cf).
    assert (I : interval p = false).
    { rewrite (inv_interval _ H), L. apply andb_false_r. }
    auto using tick_idle.
Qed.

(** ** Scrolling *)

Lemma autoIds_app a b : autoIds (a ++ b) = autoIds a ++ autoIds b.
Proof. unfold autoIds. apply flat_map_app. Qed.

Lemma firstScrolls_app a b : firstScrolls (a ++ b) = (firstScrolls a + firstScrolls b)%nat.
Proof. unfold firstScrolls. now rewrite filter_app, length_app. Qed.

(** Handlers scroll nothing themselves. *)
Lemma handle_no_scroll p ev :
  autoIds (snd (handle p ev)) = [] /\ firstScrolls (snd (handle p ev)) = O.
Proof.
  destruct ev as [c| |r res|el|v|ic kc k| |r fl|]; cbn [handle].
  - destruct (negb (mounted p)); auto.
  - destruct (negb (mounted p)); auto. destruct (interval p); auto.
  - destruct (findFetch r (inflight p)) as [f|]; auto.
    unfold resume. destruct res; [destruct (canceled f)|]; auto.
  - destruct (negb (mounted p)); auto.
  - destruct (negb (mounted p)); auto. destruct (isSendingMessage p); auto.
  - destruct (negb (mounted p)); auto.
    destruct (isSendingMessage p) eqn:S; auto.
    unfold handleKeyDown, send. rewrite S.
    destruct (_ && _); auto.
  - destruct (negb (mounted p)); auto.
    destruct (isSendingMessage p) eqn:S; auto. unfold send. rewrite S. auto.
  - destruct (memNat r (posting p)); auto.
    unfold resumeSend. destruct fl; auto.
  - destruct (negb (mounted p)); auto.
Qed.

Lemma lastId_grows old m :
  Forall (fun x => lastId old < id x) m -> lastId old <= lastId (old ++ m).
Proof.
  intros H. destruct m as [|x m]; [rewrite app_nil_r; lia|].
  rewrite lastId_app by discriminate.
  destruct (lastId_in (x :: m)) as (y & Hy & ->); [discriminate|].
  rewrite Forall_forall in H. specialize (H y Hy). lia.
Qed.

(** The cells of the scroll effects that no handler writes, and what comes
    with a change of the messages or of the scroll position. *)
Lemma handle_cells p ev :
  let p1 := fst (handle p ev) in
  lastAutoScrolledMessageId p1 = lastAutoScrolledMessageId p /\
  firstScroll p1 = firstScroll p /\
  (messages p1 <> messages p -> isLoading p1 = false /\ isSome (messages p1) = true) /\
  (pos p1 <> pos p ->
   messages p1 = messages p /\ autoScroll p1 = autoScroll p).
Proof.
  assert (Same : forall p1 : Page,
    lastAutoScrolledMessageId p1 = lastAutoScrolledMessageId p ->
    firstScroll p1 = firstScroll p ->
    messages p1 = messages p -> pos p1 = pos p ->
    lastAutoScrolledMessageId p1 = lastAutoScrolledMessageId p /\
    firstScroll p1 = firstScroll p /\
    (messages p1 <> messages p -> isLoading p1 = false /\ isSome (messages p1) = true) /\
    (pos p1 <> pos p -> messages p1 = messages p /\ autoScroll p1 = autoScroll p)).
  { intros p1 E1 E2 E4 E5. rewrite E1, E2, E4, E5.
    repeat split; auto; congruence. }
  destruct ev as [c| |r res|el|v|ic kc k| |r fl|]; cbn [handle].
  - destruct (negb (mounted p)); cbn [fst]; now apply Same.
  - destruct (negb (mounted p)); cbn [fst]; [now apply Same|].
    destruct (interval p); now apply Same.
  - destruct (findFetch r (inflight p)) as [f|] eqn:F; [|now apply Same].
    unfold resume, setState, appendMessages.
    destruct res as [m|e]; [destruct (canceled f); [now apply Same|] |];
      try destruct (negb (isSome (f_messages f)) || nonEmpty m);
      fields; destruct (mounted p) eqn:M; fields; repeat (rewrite M; fields);
      repeat split; auto; congruence.
  - destruct (negb (mounted p)); cbn [fst]; [now apply Same|].
    fields. repeat split; auto; congruence.
  - destruct (negb (mounted p)); cbn [fst]; [now apply Same|].
    destruct (isSendingMessage p); now apply Same.
  - destruct (negb (mounted p)); cbn [fst]; [now apply Same|].
    destruct (isSendingMessage p) eqn:S; [now apply Same|].
    unfold handleKeyDown, send. rewrite S.
    destruct (_ && _); now apply Same.
  - destruct (negb (mounted p)); cbn [fst]; [now apply Same|].
    destruct (isSendingMessage p) eqn:S; [now apply Same|].
    unfold send. rewrite S. now apply Same.
  - destruct (memNat r (posting p)); [|now apply Same].
    unfold resumeSend, setState.
    destruct fl; fields; destruct (mounted p) eqn:M; fields;
      repeat (rewrite M; fields); repeat split; auto; congruence.
  - destruct (negb (mounted p)); cbn [fst]; [now apply Same|].
    unfold runCleanup. destruct (cleanup p); now apply Same.
Qed.

(** What a handler leaves of the cells the scroll effects read. *)
Lemma handle_view p ev :
  HookInv p -> eventOk p ev ->
  let p1 := fst (handle p ev) in
  lastAutoScrolledMessageId p1 = lastAutoScrolledMessageId p /\
  firstScroll p1 = firstScroll p /\
  (isSome (scrollEl p) = true -> isSome (scrollEl p1) = true) /\
  lastMessageId p <= lastMessageId p1 /\
  (messages p1 <> messages p -> isLoading p1 = false /\ isSome (messages p1) = true) /\
  (pos p1 <> pos p ->
   messages p1 = messages p /\ autoScroll p1 = autoScroll p).
Proof.
  intros H Hev.
  assert (Same : forall p1 : Page,
    lastAutoScrolledMessageId p1 = lastAutoScrolledMessageId p ->
    firstScroll p1 = firstScroll p -> scrollEl p1 = scrollEl p ->
    messages p1 = messages p -> pos p1 = pos p ->
    lastAutoScrolledMessageId p1 = lastAutoScrolledMessageId p /\
    firstScroll p1 = firstScroll p /\
    (isSome (scrollEl p) = true -> isSome (scrollEl p1) = true) /\
    lastMessageId p <= lastMessageId p1 /\
    (messages p1 <> messages p -> isLoading p1 = false /\ isSome (messages p1) = true) /\
    (pos p1 <> pos p -> messages p1 = messages p /\ autoScroll p1 = autoScroll p)).
  { intros p1 E1 E2 E3 E4 E5. unfold lastMessageId. rewrite E1, E2, E3, E4, E5.
    repeat split; auto; try lia; congruence. }
  destruct ev as [c| |r res|el|v|ic kc k| |r fl|]; cbn [handle].
  - destruct (negb (mounted p)); cbn [fst]; now apply Same.
  - destruct (negb (mounted p)); cbn [fst]; [now apply Same|].
    destruct (interval p); now apply Same.
  - destruct (findFetch r (inflight p)) as [f|] eqn:F; [|now apply Same].
    cbn [eventOk] in Hev.
    pose proof (findFetch_some _ _ _ F) as [Fin Fr].
    set (p' := set_inflight (dropFetch r (inflight p)) p).
    destruct res as [m|e].
    + specialize (Hev f F). destruct Hev as [Hnew _].
      unfold resume. destruct (canceled f) eqn:Cf; [now apply Same|].
      destruct (inv_active _ H f Fin Cf) as (Hmo&_&_&_&Hms&Hs).
      unfold setState, appendMessages. subst p'. fields. rewrite Hmo.
      destruct (negb (isSome (f_messages f)) || nonEmpty m) eqn:C;
        fields; repeat (rewrite Hmo; fields).
      * unfold lastMessageId. fields.
        repeat split; auto; try congruence.
        rewrite Hs in Hnew. unfold lastIdOf in *.
        destruct (messages p) as [old|].
        -- now apply lastId_grows.
        -- apply (lastId_grows [] m Hnew).
      * unfold lastMessageId. fields. repeat split; auto; try lia; congruence.
    + unfold resume, setState. subst p'. fields.
      destruct (mounted p) eqn:M; fields; repeat (rewrite M; fields);
        unfold lastMessageId; fields; repeat split; auto; try lia; congruence.
  - cbn [eventOk] in Hev.
    destruct (negb (mounted p)); cbn [fst]; [now apply Same|].
    unfold lastMessageId. fields. repeat split; auto; try lia; congruence.
  - destruct (negb (mounted p)); cbn [fst]; [now apply Same|].
    destruct (isSendingMessage p); now apply Same.
  - destruct (negb (mounted p)); cbn [fst]; [now apply Same|].
    destruct (isSendingMessage p) eqn:S; [now apply Same|].
    unfold handleKeyDown, send. rewrite S.
    destruct (_ && _); now apply Same.
  - destruct (negb (mounted p)); cbn [fst]; [now apply Same|].
    destruct (isSendingMessage p) eqn:S; [now apply Same|].
    unfold send. rewrite S. now apply Same.
  - destruct (memNat r (posting p)); [|now apply Same].
    unfold resumeSend, setState.
    destruct fl; fields; destruct (mounted p) eqn:M; fields;
      repeat (rewrite M; fields); unfold lastMessageId; fields;
      repeat split; auto; try lia; congruence.
  - destruct (negb (mounted p)); cbn [fst]; [now apply Same|].
    unfold runCleanup. destruct (cleanup p); now apply Same.
Qed.

(** What the renders after a handler scroll. *)
Lemma settle_autoIds prev p1 :
  autoIds (snd (settle rounds prev p1)) =
  if autoScrollDepsChanged prev p1 && autoFires p1
     || autoScrollDepsChanged (Some p1) (fst (commit prev p1))
        && autoFires (fst (commit prev p1))
  then [lastMessageId p1] else [].
Proof.
  rewrite settle_actions, !autoIds_app.
  replace (autoIds (if fetchDepsChanged prev p1 then snd (fetchEffect p1 p1) else []))
    with (@nil Z).
  2:{ destruct (fetchDepsChanged prev p1); [|reflexivity].
      rewrite fetchEffect_snd. destruct (Js.isEmpty (chatId p1)); reflexivity. }
  destruct (firstScrollDepsChanged prev p1 && firstFires p1);
    destruct (_ || _); reflexivity.
Qed.

Lemma settle_firstScrolls prev p1 :
  firstScrolls (snd (settle rounds prev p1)) =
  if firstScrollDepsChanged prev p1 && firstFires p1 then 1%nat else O.
Proof.
  rewrite settle_actions, !firstScrolls_app.
  replace (firstScrolls (if fetchDepsChanged prev p1 then snd (fetchEffect p1 p1) else []))
    with O.
  2:{ destruct (fetchDepsChanged prev p1); [|reflexivity].
      rewrite fetchEffect_snd. destruct (Js.isEmpty (chatId p1)); reflexivity. }
  destruct (firstScrollDepsChanged prev p1 && firstFires p1);
    destruct (_ || _); reflexivity.
Qed.

Lemma autoDeps_false p p1 :
  autoScrollDepsChanged (Some p) p1 = false ->
  lastMessageId p = lastMessageId p1 /\ autoScroll p = autoScroll p1 /\
  lastAutoScrolledMessageId p = lastAutoScrolledMessageId p1.
Proof.
  unfold autoScrollDepsChanged, changed. intros H.
  destruct (Z.eq_dec (lastMessageId p) (lastMessageId p1)); [|discriminate].
  destruct (bool_dec (autoScroll p) (autoScroll p1)); [|discriminate].
  destruct (Z.eq_dec (lastAutoScrolledMessageId p) (lastAutoScrolledMessageId p1));
    [|discriminate].
  auto.
Qed.

Lemma autoFires_true s :
  autoFires s = true ->
  autoScroll s = true /\ lastMessageId s <> lastAutoScrolledMessageId s.
Proof.
  unfold autoFires. intros H.
  apply andb_true_iff in H as [H Hn]. apply andb_true_iff in H as [Ha _].
  apply negb_true_iff, Z.eqb_neq in Hn. auto.
Qed.

Lemma sorted_snoc (l : list Z) x :
  StronglySorted Z.lt l -> Forall (fun y => y < x) l -> StronglySorted Z.lt (l ++ [x]).
Proof.
  intros Hs Hl. apply StronglySorted_lt_app; auto.
  - repeat constructor.
  - intros a b Ha [<-|[]]. rewrite Forall_forall in Hl. auto.
Qed.

Section StepView.

Variables (p : Page) (log : list Action) (ev : Event).

Hypothesis (H : HookInv p) (V : ViewInv p log) (Hev : eventOk p ev).

Let p1 := fst (handle p ev).

Let p2 := fst (commit (Some p) p1).

Let p3 := fst (step p ev).

Let A1 := autoScrollDepsChanged (Some p) p1 && autoFires p1.

Let A2 := autoScrollDepsChanged (Some p1) p2 && autoFires p2.

Let F1 := firstScrollDepsChanged (Some p) p1 && firstFires p1.

Lemma step_p3 : p3 = fst (commit (Some p1) p2).
Proof. subst p3. rewrite step_unfold. cbn [fst]. now rewrite settle_unfold. Qed.

Lemma step_autoIds :
  autoIds (snd (step p ev)) = if A1 || A2 then [lastMessageId p1] else [].
Proof.
  rewrite step_unfold. cbn [snd]. rewrite autoIds_app, settle_autoIds.
  now destruct (handle_no_scroll p ev) as [-> _].
Qed.

Lemma step_firstScrolls :
  firstScrolls (snd (step p ev)) = if F1 then 1%nat else O.
Proof.
  rewrite step_unfold. cbn [snd]. rewrite firstScrolls_app, settle_firstScrolls.
  now destruct (handle_no_scroll p ev) as [_ ->].
Qed.

Lemma step_view_fields :
  lastMessageId p3 = lastMessageId p1 /\
  scrollEl p3 = scrollEl p1 /\
  messages p3 = messages p1 /\
  lastAutoScrolledMessageId p3 =
    (if A1 || A2 then lastMessageId p1 else lastAutoScrolledMessageId p1) /\
  firstScroll p3 = (if F1 then false else firstScroll p1) /\
  autoScroll p3 = autoScroll p2.
Proof.
  rewrite step_p3. unfold A2, p2.
  destruct (settle_frame (Some p) p1) as (_&Es&_&_&_&Em&_).
  repeat split.
  - unfold lastMessageId. now rewrite Em.
  - exact Es.
  - exact Em.
  - apply settle_lastAuto.
  - apply settle_firstScroll.
  - rewrite settle_autoScroll, round1_autoScroll. reflexivity.
Qed.

(** The auto-scroll effect scrolls for an id above the one recorded. *)
Lemma fired_above :
  A1 || A2 = true ->
  lastAutoScrolledMessageId p < lastMessageId p1.
Proof.
  destruct (handle_view p ev H Hev) as (Ela&_&_&Hle&_).
  fold p1 in Ela, Hle.
  pose proof (v_le _ _ V) as Hv.
  intros HA. apply orb_true_iff in HA as [HA|HA].
  - apply andb_true_iff in HA as [_ HA]. apply autoFires_true in HA as [_ Hn].
    rewrite Ela in Hn. lia.
  - destruct A1 eqn:E1.
    + assert (E2 : A2 = false) by exact (round2_auto_once (Some p) p1 E1).
      rewrite E2 in HA. discriminate.
    + apply andb_true_iff in HA as [_ HA]. apply autoFires_true in HA as [_ Hn].
      unfold p2 in Hn. rewrite round1_lastMessageId, round1_lastAuto in Hn.
      fold A1 in Hn. rewrite E1, Ela in Hn. lia.
Qed.

Lemma step_view : ViewInv p3 (log ++ snd (step p ev)).
Proof.
  destruct (handle_view p ev H Hev) as (Ela&Efs&Hel&Hle&Hms&Hpos).
  fold p1 in Ela, Efs, Hel, Hle, Hms, Hpos.
  destruct step_view_fields as (Elm3&Eel3&Ems3&Ela3&Efs3&Eas3).
  destruct V as [Vel Vle Vrec Vb Vs Ven Vf Vd].
  split.
  - rewrite Eel3. auto.
  - rewrite Elm3, Ela3. destruct (A1 || A2); lia.
  - rewrite Ela3, autoIds_app, step_autoIds.
    apply in_or_app. destruct (A1 || A2); [right; now left | left; congruence].
  - rewrite Ela3, autoIds_app, step_autoIds. apply Forall_app.
    destruct (A1 || A2) eqn:HA.
    + pose proof (fired_above HA) as Hlt. split.
      * eapply Forall_impl; [|exact Vb]. cbn. intros; lia.
      * repeat constructor. lia.
    + split; [|constructor]. rewrite Ela. exact Vb.
  - rewrite autoIds_app, step_autoIds.
    destruct (A1 || A2) eqn:HA; [|now rewrite app_nil_r].
    pose proof (fired_above HA) as Hlt.
    apply sorted_snoc; [assumption|].
    eapply Forall_impl; [|exact Vb]. cbn. intros; lia.
  - rewrite Ela3, Elm3, Eas3. intros Hen.
    destruct (A1 || A2) eqn:HA; [reflexivity|].
    apply orb_false_iff in HA as [HA1 HA2].
    destruct (Z.eq_dec (lastAutoScrolledMessageId p1) (lastMessageId p1)) as [E|N];
      [exact E | exfalso].
    assert (Hel1 : isSome (scrollEl p1) = true) by auto.
    assert (Hf2 : autoFires p2 = true).
    { unfold autoFires. unfold p2 at 3 4.
      rewrite round1_lastMessageId, round1_lastAuto. fold A1. rewrite HA1, Hen.
      destruct (round1_frame (Some p) p1) as (_&Es2&_). fold p2 in Es2.
      rewrite Es2, Hel1. cbn [andb].
      apply negb_true_iff, Z.eqb_neq. congruence. }
    unfold A2 in HA2. rewrite Hf2, andb_true_r in HA2.
    apply autoDeps_false in HA2 as (_&Ea2&_).
    assert (Hf1 : autoFires p1 = true).
    { unfold autoFires. rewrite Ea2, Hen, Hel1. cbn [andb].
      apply negb_true_iff, Z.eqb_neq. congruence. }
    unfold A1 in HA1. rewrite Hf1, andb_true_r in HA1.
    apply autoDeps_false in HA1 as (Elm&Ea1&Ela1).
    apply N. rewrite <- Ela1, <- Elm. apply Ven. congruence.
  - rewrite Efs3, Ems3, firstScrolls_app, step_firstScrolls.
    destruct F1 eqn:HF; [discriminate|].
    rewrite Efs. intros Hfs. destruct (Vf Hfs) as [Hc Hn].
    split; [lia|].
    destruct (messages_eq_dec (messages p1) (messages p)) as [E|N]; [congruence|].
    exfalso. destruct (Hms N) as [Hl Hs].
    unfold F1 in HF.
    assert (Hd : firstScrollDepsChanged (Some p) p1 = true).
    { unfold firstScrollDepsChanged.
      rewrite (changed_diff messages_eq_dec messages) by congruence.
      now rewrite orb_true_r. }
    rewrite Hd in HF. cbn [andb] in HF.
    unfold firstFires in HF. rewrite Efs, Hfs, Hs, Hl, Hel in HF by assumption.
    discriminate.
  - rewrite Efs3, firstScrolls_app, step_firstScrolls.
    destruct F1 eqn:HF.
    + intros _. unfold F1 in HF. apply andb_true_iff in HF as [_ HF].
      unfold firstFires in HF.
      apply andb_true_iff in HF as [HF _]. apply andb_true_iff in HF as [HF _].
      apply andb_true_iff in HF as [HF _]. rewrite Efs in HF.
      destruct (Vf HF) as [-> _]. reflexivity.
    + rewrite Efs. intros Hfs. rewrite (Vd Hfs). lia.
Qed.

(** The auto-scroll effect scrolls only into an enabled page. *)
Lemma step_auto_enabled x :
  In (AutoScroll x) (snd (step p ev)) -> autoScroll p3 = true.
Proof.
  intros Hin.
  assert (Hx : In x (autoIds (snd (step p ev)))).
  { unfold autoIds. apply in_flat_map. exists (AutoScroll x). cbn. auto. }
  rewrite step_autoIds in Hx.
  destruct (A1 || A2) eqn:HA; [|destruct Hx].
  destruct step_view_fields as (_&_&_&_&_&->).
  destruct (handle_cells p ev) as (Ela&_&_&Hpos). fold p1 in Ela, Hpos.
  destruct A1 eqn:E1.
  - unfold A1 in E1. apply andb_true_iff in E1 as [Hd Hf].
    apply autoFires_true in Hf as [Ha _].
    unfold p2. rewrite round1_autoScroll.
    destruct (trackScrollDepsChanged (Some p) p1) eqn:T; [|exact Ha].
    exfalso. apply changed_true in T.
    assert (N : pos p1 <> pos p) by congruence.
    destruct (Hpos N) as [Em Ea].
    unfold autoScrollDepsChanged in Hd.
    rewrite !changed_same in Hd; [discriminate|congruence|congruence|].
    unfold lastMessageId. congruence.
  - cbn [orb] in HA. unfold A2 in HA. apply andb_true_iff in HA as [_ Hf].
    now apply autoFires_true in Hf as [Ha _].
Qed.

End StepView.

Lemma ViewInv_some p log :
  ViewInv p log -> (firstScroll p = false -> isSome (messages p) = true) ->
  firstScrolls log = if isSome (messages p) then 1%nat else O.
Proof.
  intros V Hs. destruct (firstScroll p) eqn:F.
  - destruct (v_first _ _ V F) as [-> ->]. reflexivity.
  - rewrite (v_done _ _ V F), (Hs eq_refl). reflexivity.
Qed.

Lemma step_scrolledWithMessages p ev :
  scrolledWithMessages p -> scrolledWithMessages (fst (step p ev)).
Proof.
  unfold scrolledWithMessages. intros Hp.
  destruct (step_view_fields p ev) as (_&_&->&_&->&_).
  destruct (handle_cells p ev) as (_&Efs&Hms&_).
  destruct (firstScrollDepsChanged _ _ && firstFires _) eqn:HF.
  - intros _. apply andb_true_iff in HF as [_ HF]. unfold firstFires in HF.
    apply andb_true_iff in HF as [HF _]. apply andb_true_iff in HF as [HF _].
    now apply andb_true_iff in HF as [_ HF].
  - rewrite Efs. intros Hfs.
    destruct (messages_eq_dec (messages (fst (handle p ev))) (messages p)) as [E|N].
    + rewrite E. auto.
    + now destruct (Hms N).
Qed.

Lemma mount_view chat el :
  let r := mount chat (Some el) in
  ViewInv (fst r) (snd r) /\ scrolledWithMessages (fst r).
Proof.
  unfold mount. set (p0 := initialPage chat (Some el)).
  assert (A : autoScrollDepsChanged None p0 && autoFires p0 = true) by reflexivity.
  assert (F : firstScrollDepsChanged None p0 && firstFires p0 = false) by reflexivity.
  cbv zeta. rewrite settle_fst.
  destruct (settle_frame None p0) as (_&Es&_&_&_&Em&_).
  pose proof (settle_lastAuto None p0) as La. rewrite A in La. cbn [orb] in La.
  pose proof (settle_firstScroll None p0) as Fs. rewrite F in Fs.
  pose proof (settle_autoIds None p0) as Ai. rewrite A in Ai. cbn [orb] in Ai.
  pose proof (settle_firstScrolls None p0) as Fc. rewrite F in Fc.
  assert (Lm : lastMessageId
                 (fst (commit (Some p0) (fst (commit None p0)))) = 0).
  { unfold lastMessageId. rewrite Em. reflexivity. }
  split; [split|].
  - rewrite Es. reflexivity.
  - rewrite La, Lm. cbn. lia.
  - rewrite La, Ai. now left.
  - rewrite La, Ai. repeat constructor. cbn. lia.
  - rewrite Ai. repeat constructor.
  - intros _. rewrite La, Lm. reflexivity.
  - intros _. rewrite Fc, Em. auto.
  - rewrite Fs. discriminate.
  - unfold scrolledWithMessages. rewrite Fs. discriminate.
Qed.

Lemma run_view evs :
  forall p log,
    reachable p -> ViewInv p log -> scrolledWithMessages p -> wellBehaved p evs ->
    ViewInv (fst (run p evs)) (log ++ snd (run p evs)) /\
    scrolledWithMessages (fst (run p evs)).
Proof.
  induction evs as [|ev rest IH]; intros p log Hr V S W.
  - cbn. now rewrite app_nil_r.
  - rewrite run_cons. cbn [fst snd]. destruct W as [Hev W].
    rewrite app_assoc. apply IH; auto.
    + now apply reachable_step.
    + apply step_view; auto. now apply reachable_inv.
    + now apply step_scrolledWithMessages.
Qed.

(** C5, amended.  Take a run from the mount of a page whose scrolling element
    exists and whose server honours its contract.  The auto-scroll effect
    has scrolled at most once for any newest-message id; if auto-scroll is
    enabled, it has scrolled exactly once for the current newest id; an
    event makes it scroll only into a page whose auto-scroll is enabled,
    never while disabled; and the first-load effect has scrolled exactly
    once if a fetch has succeeded (the messages are no longer [None]) and
    not at all before, whatever the auto-scroll flag.  The first load is
    that of the page, whichever chat it is for: the cells live as long as
    the page does, and a change of the chat resets none of them. *)
Theorem scroll_once_per_newest_message chat el evs :
  wellBehaved (fst (mount chat (Some el))) evs ->
  let r := runFromMount chat (Some el) evs in
  let p := fst r in
  let log := snd r in
  (forall x, (count_occ Z.eq_dec (autoIds log) x <= 1)%nat) /\
  (autoScroll p = true ->
   count_occ Z.eq_dec (autoIds log) (lastMessageId p) = 1%nat) /\
  (forall ev x, In (AutoScroll x) (snd (step p ev)) ->
     autoScroll (fst (step p ev)) = true) /\
  firstScrolls log = (if isSome (messages p) then 1%nat else O).
Proof.
  intros W r p log. subst p log r. rewrite runFromMount_eq. cbn [fst snd].
  destruct (mount_view chat el) as [V0 S0]. cbv zeta in V0, S0.
  destruct (run_view evs _ _ (reachable_mount chat (Some el)) V0 S0 W) as [V S].
  set (p := fst (run (fst (mount chat (Some el))) evs)) in *.
  set (log := snd (mount chat (Some el)) ++ snd (run (fst (mount chat (Some el))) evs)) in *.
  assert (N : NoDup (autoIds log)) by apply StronglySorted_lt_NoDup, (v_sorted _ _ V).
  split; [|split; [|split]].
  - now apply NoDup_count_occ.
  - intros Ha. apply NoDup_count_occ'; [exact N|].
    rewrite <- (v_enabled _ _ V Ha). apply (v_rec _ _ V).
  - intros ev x. apply step_auto_enabled.
  - now apply ViewInv_some.
Qed.

(** C5 as stated fails.  In [secondChatRun] the first fetch of chat 42
    completes, which scrolls for the first load; the user scrolls up, which
    disables auto-scroll; the route changes to chat 43.  The fetch for chat
    43 then succeeds with a message: it is the first successful fetch for
    that chat, the loading flag is down after it, and the page does not
    scroll at all. *)
Lemma first_fetch_of_second_chat_scrolls_nothing :
  ~ (forall chat el evs r f m,
       let p0 := fst (mount chat (Some el)) in
       let p := fst (run p0 evs) in
       wellBehaved p0 (evs ++ [FetchSettled r (Resolved m)]) ->
       findFetch r (inflight p) = Some f -> canceled f = false ->
       ~ In (f_chatId f) (loadedChats p0 evs) ->
       existsb isScroll (snd (step p (FetchSettled r (Resolved m)))) = true).
Proof.
  intros H.
  specialize (H "42" demoEl secondChatRun 1%nat secondChatFetch [demoMessage 4]).
  cbv zeta in H.
  assert (W : wellBehaved (fst (mount "42" (Some demoEl)))
                (secondChatRun ++ [FetchSettled 1 (Resolved [demoMessage 4])])).
  { vm_compute.
    repeat match goal with
    | |- _ /\ _ => split
    | |- True => exact I
    | |- true = true => reflexivity
    | |- forall _, _ => intros f0 E; inversion E; subst; repeat constructor
    end. }
  assert (F : findFetch 1 (inflight (fst (run (fst (mount "42" (Some demoEl)))
                                            secondChatRun))) = Some secondChatFetch)
    by (vm_compute; reflexivity).
  assert (L : ~ In (f_chatId secondChatFetch)
                (loadedChats (fst (mount "42" (Some demoEl))) secondChatRun)).
  { vm_compute. intros [E|[]]. discriminate E. }
  specialize (H W F eq_refl L).
  assert (E : existsb isScroll
                (snd (step (fst (run (fst (mount "42" (Some demoEl))) secondChatRun))
                        (FetchSettled 1 (Resolved [demoMessage 4])))) = false)
    by (vm_compute; reflexivity).
  rewrite E in H. discriminate H.
Qed.

(** ** Cancellation, the scroll threshold and the send flow *)

(** C1, where it fails.  The chat identifier changes from 42 to 43 while
    the first fetch is awaited, which cancels that fetch ([staleFetch]); its
    request then fails with status 500.  [go] reaches its [catch] without
    looking at [canceled]: the stale failure becomes the error value, the
    loading flag drops and the poll timer is armed, while the fetch for
    chat 43 is still awaited.  Before that the page had no error, was
    loading and had no timer. *)
Theorem cancelled_failure_mutates_state :
  let p := fst (step demoPage (RouteChange "43")) in
  let p' := fst (step p (FetchSettled 0 (Rejected (HTTPError 500)))) in
  In staleFetch (inflight p) /\
  error p = None /\ isLoading p = true /\ interval p = false /\
  error p' = Some (HTTPError 500) /\ isLoading p' = false /\ interval p' = true.
Proof. vm_compute. intuition. Qed.

(** A render whose dependencies are all those of the previous render runs
    no effect. *)
Lemma commit_idle p p1 :
  chatId p1 = chatId p -> reloadCounter p1 = reloadCounter p ->
  isLoading p1 = isLoading p -> firstScroll p1 = firstScroll p ->
  messages p1 = messages p -> pos p1 = pos p -> autoScroll p1 = autoScroll p ->
  lastAutoScrolledMessageId p1 = lastAutoScrolledMessageId p ->
  commit (Some p) p1 = (p1, []).
Proof.
  intros Ec Er El Ef Em Ep Ea Ela. rewrite commit_eq. cbv zeta.
  assert (Elm : lastMessageId p = lastMessageId p1)
    by (unfold lastMessageId; now rewrite Em).
  unfold fetchDepsChanged, pollDepsChanged, firstScrollDepsChanged,
    trackScrollDepsChanged, autoScrollDepsChanged.
  rewrite !changed_same by auto.
  unfold afterFetch. cbn [orb andb app]. destruct p1; reflexivity.
Qed.

(** The other half of C1 holds: a cancelled fetch that succeeds is
    discarded.  The page keeps every state cell and nothing is done: no
    request, no scroll, no log. *)
Lemma cancelled_success_discarded p f m :
  reachable p -> In f (inflight p) -> canceled f = true ->
  step p (FetchSettled (rid f) (Resolved m)) =
  (set_inflight (dropFetch (rid f) (inflight p)) p, []).
Proof.
  intros Hr Hin Hc. pose proof (reachable_inv p Hr) as H.
  rewrite step_unfold, (handle_fetchSettled p f _ (inv_nodup _ H) Hin).
  unfold resume. rewrite Hc. cbn [fst snd].
  unfold rounds. cbn [settle].
  rewrite commit_idle by reflexivity.
  rewrite commit_same. reflexivity.
Qed.

(** C3 as stated fails.  In [reloadedRun] a tick starts fetch 1; a send
    succeeds and reloads, which starts fetch 3 and cancels fetch 1 without
    aborting its request; fetch 3 completes, and the next tick starts
    fetch 4 while the request of fetch 1 is still awaited. *)
Lemma tick_during_cancelled_fetch :
  ~ (forall chat el evs,
       let p := fst (runFromMount chat el evs) in
       inflight p <> [] ->
       forall c s, ~ In (Get c s) (snd (step p IntervalTick))).
Proof.
  intros H.
  refine (H "42" (Some demoEl) reloadedRun _ "42" 1 _).
  - vm_compute. discriminate.
  - vm_compute. now left.
Qed.

(** C6, amended.  After a scroll event of a mounted page auto-scroll is
    disabled exactly when the distance from the bottom of the content is 64
    or more, and enabled exactly when it is below 64; and it is enabled
    right after a send of a mounted page succeeds. *)
Theorem auto_scroll_follows_distance p el :
  mounted p = true ->
  let p' := fst (step p (WindowScroll (Some el))) in
  (autoScroll p' = false <-> 64 <= distanceFromBottom el) /\
  (autoScroll p' = true <-> distanceFromBottom el < 64) /\
  (forall r, memNat r (posting p) = true ->
     autoScroll (fst (step p (PostSettled r None))) = true).
Proof.
  intros M p'.
  assert (E : autoScroll p' = (distanceFromBottom el <? 64)).
  { subst p'. destruct (step_view_fields p (WindowScroll (Some el))) as (_&_&_&_&_&->).
    rewrite round1_autoScroll. cbn [handle]. rewrite M. cbn [negb fst].
    unfold trackScrollDepsChanged.
    rewrite (changed_diff Nat.eq_dec pos) by (fields; lia).
    reflexivity. }
  rewrite E. split; [|split].
  - rewrite Z.ltb_ge. reflexivity.
  - rewrite Z.ltb_lt. reflexivity.
  - intros r Hr.
    destruct (step_view_fields p (PostSettled r None)) as (_&_&_&_&_&->).
    rewrite round1_autoScroll. cbn [handle]. rewrite Hr.
    unfold resumeSend, setState. fields. rewrite M. fields.
    repeat (rewrite M; fields).
    unfold trackScrollDepsChanged. rewrite changed_same by reflexivity.
    reflexivity.
Qed.

(** C6 as stated fails: at a distance of exactly 64, which does not
    exceed the threshold, auto-scroll is disabled. *)
Lemma scroll_at_threshold_disables :
  ~ (forall p el,
       mounted p = true ->
       (autoScroll (fst (step p (WindowScroll (Some el)))) = false
        <-> 64 < distanceFromBottom el)).
Proof.
  intros H. destruct (H demoPage elAt64 eq_refl) as [H1 _].
  assert (E : autoScroll (fst (step demoPage (WindowScroll (Some elAt64)))) = false)
    by (vm_compute; reflexivity).
  specialize (H1 E). vm_compute in H1. discriminate.
Qed.

(** C7, where it fails.  The draft is three spaces and no send is in
    flight.  The Enter key does nothing, but a click on the send button
    posts the blank draft and raises [isSendingMessage]: [send] itself never
    looks at the draft, only [handleKeyDown] does. *)
Theorem button_posts_blank_draft :
  composingMessage blankDraftPage = "   " /\
  isSendingMessage blankDraftPage = false /\
  step blankDraftPage (KeyDown false 13 "Enter") = (blankDraftPage, []) /\
  snd (step blankDraftPage ClickSend) = [Post "42" "   "] /\
  isSendingMessage (fst (step blankDraftPage ClickSend)) = true.
Proof. vm_compute. intuition. Qed.

(** A handler that changes no dependency of any effect is followed by no
    effect. *)
Lemma settle_idle p p1 :
  chatId p1 = chatId p -> reloadCounter p1 = reloadCounter p ->
  isLoading p1 = isLoading p -> firstScroll p1 = firstScroll p ->
  messages p1 = messages p -> pos p1 = pos p -> autoScroll p1 = autoScroll p ->
  lastAutoScrolledMessageId p1 = lastAutoScrolledMessageId p ->
  settle rounds (Some p) p1 = (p1, []).
Proof.
  intros. unfold rounds. cbn [settle].
  rewrite commit_idle by assumption. now rewrite commit_same.
Qed.

(** The rest of C7 holds.  With a draft that is not blank and no send in
    flight, the Enter key posts the draft and raises [isSendingMessage]. *)
Lemma enter_posts_draft p kc :
  mounted p = true -> isSendingMessage p = false -> kc <> 229 ->
  Js.isEmpty (Js.trim (composingMessage p)) = false ->
  let r := step p (KeyDown false kc "Enter") in
  snd r = [Post (chatId p) (composingMessage p)] /\
  isSendingMessage (fst r) = true /\
  composingMessage (fst r) = composingMessage p.
Proof.
  intros M S K D r. subst r. rewrite step_unfold. cbn [handle].
  rewrite M, S. cbn [negb]. unfold handleKeyDown.
  apply Z.eqb_neq in K. rewrite K, D. cbn [orb negb andb String.eqb Ascii.eqb Bool.eqb].
  unfold send. rewrite S. cbn [fst snd].
  rewrite settle_idle by reflexivity. cbn [fst snd]. fields. auto.
Qed.

(** When the post succeeds the draft is cleared, auto-scroll is enabled,
    the reload counter goes up, which starts a fetch, and the send is over. *)
Lemma post_success_reloads p r :
  mounted p = true -> memNat r (posting p) = true ->
  let q := step p (PostSettled r None) in
  composingMessage (fst q) = "" /\ autoScroll (fst q) = true /\
  isSendingMessage (fst q) = false /\
  reloadCounter (fst q) = reloadCounter p + 1 /\
  (Js.isEmpty (chatId p) = false ->
   In (Get (chatId p) (lastIdOf (messages p))) (snd q)).
Proof.
  intros M R q. subst q.
  set (p1 := set_isSendingMessage false
               (set_composingMessage ""
                  (set_reloadCounter (reloadCounter p + 1)
                     (set_autoScroll true
                        (set_posting (removeNat r (posting p)) p))))).
  assert (E : handle p (PostSettled r None) = (p1, [])).
  { cbn [handle]. rewrite R. unfold resumeSend, setState. fields.
    repeat (rewrite M; fields). reflexivity. }
  assert (D : fetchDepsChanged (Some p) p1 = true).
  { unfold fetchDepsChanged.
    rewrite (changed_diff Z.eq_dec reloadCounter); [apply orb_true_r|].
    subst p1. fields. lia. }
  assert (T : trackScrollDepsChanged (Some p) p1 = false).
  { unfold trackScrollDepsChanged. now rewrite changed_same. }
  destruct (settle_frame (Some p) p1) as (_&_&_&_&Erc&_&Ecm&Es&_).
  pose proof (settle_autoScroll (Some p) p1) as Ea. rewrite T in Ea.
  rewrite step_unfold, E. cbn [fst snd]. rewrite settle_fst.
  split; [exact Ecm|]. split; [exact Ea|]. split; [exact Es|].
  split; [exact Erc|].
  intros C. rewrite settle_actions, D, fetchEffect_snd.
  replace (chatId p1) with (chatId p) by reflexivity.
  replace (messages p1) with (messages p) by reflexivity.
  rewrite C. now left.
Qed.

(** When the post fails the draft stays and the failure is only logged. *)
Lemma post_failure_keeps_draft p r e :
  mounted p = true -> memNat r (posting p) = true ->
  step p (PostSettled r (Some e)) =
  (set_isSendingMessage false (set_posting (removeNat r (posting p)) p),
   [ConsoleError e]).
Proof.
  intros M R. rewrite step_unfold. cbn [handle]. rewrite R.
  unfold resumeSend, setState. fields. rewrite M. cbn [fst snd].
  rewrite settle_idle by reflexivity. reflexivity.
Qed.

(** A blank draft is not sent by the Enter key, and nothing is sent while a
    send is in flight. *)
Lemma blank_enter_ignored p ic kc k :
  Js.isEmpty (Js.trim (composingMessage p)) = true ->
  step p (KeyDown ic kc k) = (p, []).
Proof.
  intros D. rewrite step_unfold. cbn [handle]. unfold handleKeyDown.
  rewrite D, !andb_false_r.
  destruct (negb (mounted p)), (isSendingMessage p); cbn [fst snd];
    now rewrite settle_same.
Qed.

Lemma send_in_flight_ignored p ic kc k :
  isSendingMessage p = true ->
  step p ClickSend = (p, []) /\ step p (KeyDown ic kc k) = (p, []).
Proof.
  intros S. rewrite !step_unfold. cbn [handle]. rewrite S.
  destruct (negb (mounted p)); cbn [fst snd]; now rewrite settle_same.
Qed.

(** ** Service messages *)

(** C10.  For a message whose type is neither [InviteCreated] nor
    [UserJoined], [formatServiceMessage] returns no text; the page renders
    every message of a type other than 0 as a service line with the result
    of [formatServiceMessage] as its text.  So a message of an unknown type
    other than 0 is a service line with no event text. *)
Theorem unknown_type_renders_empty_service_bubble
    (InviteCreated UserJoined : Z) (getHours getMinutes : Z -> Z)
    (userId : option Z) (m : Message) :
  type m <> InviteCreated -> type m <> UserJoined ->
  formatServiceMessage InviteCreated UserJoined m = None /\
  (type m <> 0 ->
   exists self,
     renderMessage InviteCreated UserJoined getHours getMinutes userId m =
     ServiceBubble self None (formatTime getHours getMinutes (createdAt m))).
Proof.
  intros Hi Hu.
  assert (E : formatServiceMessage InviteCreated UserJoined m = None).
  { unfold formatServiceMessage.
    apply Z.eqb_neq in Hi, Hu. now rewrite Hi, Hu. }
  split; [exact E|].
  intros H0. unfold renderMessage. apply Z.eqb_neq in H0. rewrite H0.
  cbn [negb]. rewrite E. eexists. reflexivity.
Qed.

(** Witness of C10: with the tags 1 and 2, a message of type 5. *)
Lemma unknown_type_renders_empty_service_bubble_witness :
  type pollMessage <> 1 /\ type pollMessage <> 2 /\ type pollMessage <> 0 /\
  formatServiceMessage 1 2 pollMessage = None /\
  exists self,
    renderMessage 1 2 (fun _ => 9) (fun _ => 5) (Some 7) pollMessage =
    ServiceBubble self None (formatTime (fun _ => 9) (fun _ => 5) 1700000000000).
Proof.
  assert (H1 : type pollMessage <> 1) by (cbn; lia).
  assert (H2 : type pollMessage <> 2) by (cbn; lia).
  assert (H0 : type pollMessage <> 0) by (cbn; lia).
  destruct (unknown_type_renders_empty_service_bubble 1 2 (fun _ => 9) (fun _ => 5)
              (Some 7) pollMessage H1 H2) as [E R].
  repeat split; auto.
Defined.

(** ** Witnesses *)

Lemma demoPage_reachable : reachable demoPage.
Proof. apply reachable_mount. Qed.

Lemma demoFetch_awaited : In demoFetch (inflight demoPage).
Proof. vm_compute. now left. Qed.


(** Witness of C4: the first fetch of [demoPage] fails with status 503. *)
Lemma failed_fetch_keeps_polling_witness :
  reachable demoPage /\ In demoFetch (inflight demoPage) /\
  canceled demoFetch = false /\
  snd (step (fst (step demoPage (FetchSettled 0 (Rejected (HTTPError 503)))))
         IntervalTick) = [Get "42" 0].
Proof.
  destruct (failed_fetch_keeps_polling demoPage demoFetch (HTTPError 503)
              demoPage_reachable demoFetch_awaited eq_refl) as (_&_&_&_&H).
  split; [exact demoPage_reachable|]. split; [exact demoFetch_awaited|].
  split; [reflexivity|]. exact H.
Defined.

(** Witness of C3: after [quietRun] the fetch of the tick is awaited and
    the timer is not armed. *)
Lemma poll_timer_single_flight_witness :
  noStaleFailure (fst (mount "42" (Some demoEl))) quietRun = true /\
  In {| rid := 1; f_chatId := "42"; f_sinceId := 3;
        f_messages := Some [demoMessage 3]; canceled := false |}
     (inflight (fst (runFromMount "42" (Some demoEl) quietRun))) /\
  interval (fst (runFromMount "42" (Some demoEl) quietRun)) = false.
Proof.
  assert (S : noStaleFailure (fst (mount "42" (Some demoEl))) quietRun = true)
    by (vm_compute; reflexivity).
  assert (I : In {| rid := 1; f_chatId := "42"; f_sinceId := 3;
                    f_messages := Some [demoMessage 3]; canceled := false |}
                (inflight (fst (runFromMount "42" (Some demoEl) quietRun))))
    by (vm_compute; now left).
  destruct (poll_timer_single_flight "42" (Some demoEl) quietRun) as (_&_&_&H).
  destruct (H S _ I eq_refl) as (_&Hi&_).
  split; [exact S|]. split; [exact I|]. exact Hi.
Defined.

Lemma busyRun_wellBehaved : wellBehaved (fst (mount "42" (Some demoEl))) busyRun.
Proof.
  vm_compute.
  repeat match goal with
  | |- _ /\ _ => split
  | |- True => exact I
  | |- true = true => reflexivity
  | |- forall _, _ => intros f0 E; inversion E; subst; repeat constructor
  end.
Qed.

(** Witness of C5: [busyRun] scrolls for the newest ids 0, 3 and 6, once
    each, and once for the first load. *)
Lemma scroll_once_per_newest_message_witness :
  wellBehaved (fst (mount "42" (Some demoEl))) busyRun /\
  autoIds (snd (runFromMount "42" (Some demoEl) busyRun)) = [0; 3; 6] /\
  firstScrolls (snd (runFromMount "42" (Some demoEl) busyRun)) = 1%nat.
Proof.
  destruct (scroll_once_per_newest_message "42" demoEl busyRun busyRun_wellBehaved)
    as (_&_&_&H).
  split; [exact busyRun_wellBehaved|].
  split; [vm_compute; reflexivity | exact H].
Defined.

(** Witness of C6: a scroll of [demoPage] to a distance of 64. *)
Lemma auto_scroll_follows_distance_witness :
  mounted demoPage = true /\
  autoScroll (fst (step demoPage (WindowScroll (Some elAt64)))) = false.
Proof.
  destruct (auto_scroll_follows_distance demoPage elAt64 eq_refl) as (H&_&_).
  split; [reflexivity|]. apply H. vm_compute. discriminate.
Defined.

End ChatFacts.

(** * Properties of the survey *)

Module SurveyFacts.
Import Survey.

Lemma digit_not_space c : Js.isDecimalDigit c = true -> Js.isWhiteSpace c = false.
Proof.
  destruct c as [b0 b1 b2 b3 b4 b5 b6 b7].
  destruct b0, b1, b2, b3, b4, b5, b6, b7; vm_compute; congruence.
Qed.

Lemma trimStart_digits s :
  Js.allChars Js.isDecimalDigit s = true -> Js.trimStart s = s.
Proof.
  destruct s as [|c r]; [reflexivity|]. cbn [Js.allChars Js.trimStart].
  intros H. apply andb_true_iff in H as [H _].
  now rewrite (digit_not_space c H).
Qed.

Lemma trimEnd_digits s :
  Js.allChars Js.isDecimalDigit s = true -> Js.trimEnd s = s.
Proof.
  induction s as [|c r IH]; [reflexivity|]. cbn [Js.allChars Js.trimEnd].
  intros H. apply andb_true_iff in H as [Hc Hr].
  rewrite (IH Hr). destruct r; [|reflexivity].
  now rewrite (digit_not_space c Hc).
Qed.

Lemma skipDigits_digits s :
  Js.allChars Js.isDecimalDigit s = true -> Js.skipDigits s = "".
Proof.
  induction s as [|c r IH]; [reflexivity|]. cbn [Js.allChars Js.skipDigits].
  intros H. apply andb_true_iff in H as [Hc Hr]. rewrite Hc. auto.
Qed.

(** [Number] of a non-empty string of decimal digits is a number. *)
Lemma digits_are_numeric s :
  s <> "" -> Js.allChars Js.isDecimalDigit s = true -> Js.Number_isNaN s = false.
Proof.
  intros Hne Hd. unfold Js.Number_isNaN, Js.isStringNumericLiteral, Js.trim.
  rewrite (trimStart_digits s Hd), (trimEnd_digits s Hd).
  destruct s as [|c r]; [congruence|].
  assert (Hs : Js.skipDigits (String c r) = "") by now apply skipDigits_digits.
  cbn [Js.allChars] in Hd. apply andb_true_iff in Hd as [Hc Hr].
  assert (E : Js.isStrDecimalLiteral (String c r) = true).
  { unfold Js.isStrDecimalLiteral, Js.isStrUnsignedDecimalLiteral.
    rewrite Hs. cbn [Js.startsWithDigit Js.isExponentPartOpt].
    destruct c as [b0 b1 b2 b3 b4 b5 b6 b7].
    destruct b0, b1, b2, b3, b4, b5, b6, b7;
      try (vm_compute in Hc; discriminate Hc); cbn; reflexivity. }
  rewrite E. cbn. reflexivity.
Qed.

Lemma charIs_iff o c : Js.charIs o c = true <-> o = Some c.
Proof.
  unfold Js.charIs. destruct o as [d|]; [|split; discriminate].
  rewrite Ascii.eqb_eq. split; congruence.
Qed.

Lemma phoneRejected_false p :
  phoneRejected (Str p) = false <->
  String.length p = 10%nat /\ Js.Number_isNaN p = false /\
  Js.charAt p 0 = Some "0"%char /\ Js.charAt p 1 = Some "9"%char.
Proof.
  unfold phoneRejected.
  rewrite !orb_false_iff, !negb_false_iff, Nat.eqb_eq, !charIs_iff. tauto.
Qed.

(** Step 1 with a string under [phone] and no blank field: the phone test
    decides. *)
Lemma step1_decided pc f p :
  phone f = Str p ->
  Js.isEmpty (Js.trim (name f)) = false ->
  Js.isEmpty (Js.trim p) = false ->
  Js.isEmpty (Js.trim (nickname f)) = false ->
  Js.isEmpty (Js.trim (gender f)) = false ->
  handleNextQ (atStep 1 pc f) =
  if phoneRejected (Str p)
  then Normal (atStep 1 pc f,
               Some {| color := "red"; title := "手機號碼不正確！";
                       message := "請再檢查一次您的手機號碼" |})
  else Normal (setQnum 2 (atStep 1 pc f), None).
Proof.
  intros Ep Hn Hp Hk Hg. unfold handleNextQ, step1Blank, reject, advance.
  cbn [qnum values atStep]. rewrite Ep, Hn, Hp, Hk, Hg. cbn.
  destruct (_ || _); reflexivity.
Qed.

(** Step 1 with a number under [phone]: the call throws, whatever the other
    fields hold. *)
Lemma step1_number_throws pc f n :
  phone f = Num n -> handleNextQ (atStep 1 pc f) = Throw TypeError.
Proof.
  intros Ep. unfold handleNextQ, step1Blank. cbn [qnum values atStep].
  rewrite Ep. reflexivity.
Qed.

(** C8, where it fails.  The fields of step 1 are filled in and the phone
    number is typed without its leading zero, 912345678, which the number
    input stores as a number and not as a string.  The value is not of the
    shape 09 followed by eight digits, so the claim has the click refused
    with the notification of the phone field.  Instead [f.phone.trim()]
    throws a TypeError: the click shows no notification at all and the page
    stays on step 1.  The run [numberPhoneRun] brings the page from its
    first render to this state.  The digits 0912345678, which the input
    stores as a string, are accepted, and the string 912345678 would have
    been refused with the notification. *)
Theorem number_phone_throws :
  let s := atStep 1 true numberPhoneForm in
  handleNextQ s = Throw TypeError /\
  SurveyForm.act s SurveyForm.ClickNext = (s, None) /\
  SurveyForm.run SurveyForm.initialState SurveyForm.numberPhoneRun = (s, []) /\
  handleNextQ (atStep 1 true (SurveyForm.setPhone (Str "0912345678") numberPhoneForm))
  = Normal (atStep 2 true (SurveyForm.setPhone (Str "0912345678") numberPhoneForm), None) /\
  handleNextQ (atStep 1 true (SurveyForm.setPhone (Str "912345678") numberPhoneForm))
  = Normal (atStep 1 true (SurveyForm.setPhone (Str "912345678") numberPhoneForm),
            Some {| color := "red"; title := "手機號碼不正確！";
                    message := "請再檢查一次您的手機號碼" |}).
Proof. vm_compute. repeat split; reflexivity. Qed.

(** C9.  At step 4 [handleNextQ] stays and shows a notification exactly
    when the number of interests differs from the number of self-ratings
    collected, and advances to step 5 exactly when the two are equal.  With
    interests 1 and 2, the single rating 3 blocks and the ratings 3 and 4
    advance. *)
Theorem step4_needs_every_rating pc f :
  let s := atStep 4 pc f in
  let rated := List.length (filterTrue (level f)) in
  (List.length (interests f) <> rated <->
   exists n, handleNextQ s = Normal (s, Some n)) /\
  (List.length (interests f) = rated <-> handleNextQ s = Normal (setQnum 5 s, None)) /\
  (exists n, handleNextQ (atStep 4 pc (sampleForm "0912345678" ["1"; "2"] [Some "3"]))
             = Normal (atStep 4 pc (sampleForm "0912345678" ["1"; "2"] [Some "3"]), Some n)) /\
  handleNextQ (atStep 4 pc (sampleForm "0912345678" ["1"; "2"] [Some "3"; Some "4"]))
  = Normal (atStep 5 pc (sampleForm "0912345678" ["1"; "2"] [Some "3"; Some "4"]), None).
Proof.
  intros s rated. subst rated s. set (s := atStep 4 pc f).
  assert (E : handleNextQ s =
              if Nat.eqb (List.length (interests f)) (List.length (filterTrue (level f)))
              then Normal (setQnum 5 s, None)
              else Normal (s, Some {| color := "red"; title := "尚有欄位未填寫喔！";
                               message := "再檢查一遍是否所有題目都填寫了吧！" |})).
  { unfold handleNextQ, reject, advance. subst s. cbn [qnum values atStep].
    cbn [Z.eqb Pos.eqb].
    destruct (Nat.eqb _ _); reflexivity. }
  rewrite E.
  destruct (Nat.eqb_spec (List.length (interests f))
              (List.length (filterTrue (level f)))) as [Hq|Hq].
  - split; [|split; [|split]].
    + split; [contradiction | intros [n Hn]; discriminate Hn].
    + tauto.
    + eexists. reflexivity.
    + reflexivity.
  - split; [|split; [|split]].
    + split; [eexists; reflexivity | auto].
    + split; [contradiction | intros Hn; discriminate Hn].
    + eexists. reflexivity.
    + reflexivity.
Qed.

End SurveyFacts.

(** * Further properties of the chat page *)

Module ChatPageFacts.
Import Chat ChatView ChatFacts.
#[local] Open Scope list_scope.

(** ** The time of a message *)

Lemma distinct_inj {A} (f : A -> string) l :
  distinct (map f l) = true ->
  forall x y, In x l -> In y l -> f x = f y -> x = y.
Proof.
  induction l as [|a l IH]; cbn [map distinct]; intros H x y Hx Hy E; [destruct Hx|].
  apply andb_true_iff in H as [H1 H2]. apply negb_true_iff in H1.
  assert (N : forall z, In z l -> f a <> f z).
  { intros z Hz Ez.
    assert (T : existsb (String.eqb (f a)) (map f l) = true).
    { apply existsb_exists. exists (f z). split; [now apply in_map|].
      now apply String.eqb_eq. }
    congruence. }
  destruct Hx as [<-|Hx], Hy as [<-|Hy]; auto.
  - exfalso. now apply (N y).
  - exfalso. apply (N x Hx). now symmetry.
Qed.

Lemma dayTimes_distinct : distinct (map clock dayTimes) = true.
Proof. vm_compute. reflexivity. Qed.

Lemma in_dayTimes h m : 0 <= h < 24 -> 0 <= m < 60 -> In (h, m) dayTimes.
Proof.
  intros Hh Hm. unfold dayTimes. apply in_flat_map.
  exists (Z.to_nat h). split; [apply in_seq; lia|].
  apply in_map_iff. exists (Z.to_nat m). split; [|apply in_seq; lia].
  f_equal; lia.
Qed.

(** X10.  The time [formatTime] shows is that of a twelve-hour clock.  For times
    whose hour is in 0..23 and whose minute is in 0..59: two times are shown
    alike exactly when they have the same hour and minute; and the text is
    上午 or 下午 (下午 from 12 o'clock on), a space, an hour from 1 to 12 that
    is the hour modulo 12, a colon, and the minute in two digits. *)
Theorem formatTime_is_a_twelve_hour_clock (getHours getMinutes : Z -> Z) t t' :
  0 <= getHours t < 24 -> 0 <= getMinutes t < 60 ->
  0 <= getHours t' < 24 -> 0 <= getMinutes t' < 60 ->
  (formatTime getHours getMinutes t = formatTime getHours getMinutes t' <->
   getHours t = getHours t' /\ getMinutes t = getMinutes t') /\
  exists H MM,
    formatTime getHours getMinutes t =
    ((if (getHours t <? 12)%Z then "上午" else "下午") ++ " " ++ decimal H ++ ":" ++ MM)%string
    /\ 1 <= H <= 12 /\ H mod 12 = getHours t mod 12
    /\ String.length MM = 2%nat
    /\ MM = ((if (getMinutes t <? 10)%Z then "0" else "") ++ decimal (getMinutes t))%string.
Proof.
  intros Hh Hm Hh' Hm'.
  assert (C : forall u, formatTime getHours getMinutes u = clock (getHours u, getMinutes u))
    by reflexivity.
  split.
  - split.
    + rewrite !C. intros E.
      apply (distinct_inj clock dayTimes dayTimes_distinct) in E;
        [inversion E; auto | now apply in_dayTimes | now apply in_dayTimes].
    + intros [E1 E2]. unfold formatTime. now rewrite E1, E2.
  - exists (if getHours t mod 12 =? 0 then 12 else getHours t mod 12),
      (padStart2 (decimal (getMinutes t))).
    assert (P : forallb (fun hm : Z * Z =>
                  Nat.eqb (String.length (padStart2 (decimal (snd hm)))) 2
                  && String.eqb (padStart2 (decimal (snd hm)))
                       ((if (snd hm <? 10)%Z then "0" else "") ++ decimal (snd hm))%string)
                  dayTimes = true) by (vm_compute; reflexivity).
    rewrite forallb_forall in P.
    specialize (P _ (in_dayTimes _ _ Hh Hm)). cbn [snd] in P.
    apply andb_true_iff in P as [P1 P2].
    apply Nat.eqb_eq in P1. apply String.eqb_eq in P2.
    split; [|split; [|split; [|split]]]; try assumption.
    + unfold formatTime.
      destruct (Z.leb_spec 12 (getHours t)), (Z.ltb_spec (getHours t) 12);
        try lia; reflexivity.
    + destruct (Z.eqb_spec (getHours t mod 12) 0); [lia|].
      pose proof (Z.mod_pos_bound (getHours t) 12). lia.
    + destruct (Z.eqb_spec (getHours t mod 12) 0) as [E|E].
      * rewrite E. reflexivity.
      * now rewrite Z.mod_mod.
Qed.

(** Witness of X10: with times counted in minutes from midnight, five past
    midnight, noon, and five past noon. *)
Lemma formatTime_is_a_twelve_hour_clock_witness :
  formatTime (fun t => t / 60) (fun t => t mod 60) 5 = "上午 12:05" /\
  formatTime (fun t => t / 60) (fun t => t mod 60) 720 = "下午 12:00" /\
  formatTime (fun t => t / 60) (fun t => t mod 60) 5
  <> formatTime (fun t => t / 60) (fun t => t mod 60) 725.
Proof.
  split; [reflexivity|]. split; [reflexivity|].
  intros E.
  apply (formatTime_is_a_twelve_hour_clock (fun t => t / 60) (fun t => t mod 60) 5 725)
    in E; [destruct E as [E _]; discriminate E | cbn; lia ..].
Defined.

(** ** What a handler does to the cells of [useMessages] *)

(** A handler leaves the messages, the loading flag and the error alone,
    unless it is the rest of [go] for a fetch of a mounted page. *)
Lemma handle_hook_cells p ev :
  let p1 := fst (handle p ev) in
  (messages p1 = messages p /\ isLoading p1 = isLoading p /\ error p1 = error p) \/
  (exists r res f,
     ev = FetchSettled r res /\ findFetch r (inflight p) = Some f /\
     mounted p = true /\ isLoading p1 = false /\
     match res with
     | Resolved m =>
         canceled f = false /\ error p1 = error p /\
         messages p1 =
           if negb (isSome (f_messages f)) || nonEmpty m
           then Some (known p ++ m) else messages p
     | Rejected e => messages p1 = messages p /\ error p1 = Some e
     end).
Proof.
  destruct ev as [c| |r res|el|v|ic kc k| |r fl|]; cbn [handle].
  - left. destruct (negb (mounted p)); auto.
  - left. destruct (negb (mounted p)); [auto|]. destruct (interval p); auto.
  - destruct (findFetch r (inflight p)) as [f|] eqn:F; [|left; auto].
    destruct (mounted p) eqn:M.
    + destruct res as [m|e].
      * destruct (canceled f) eqn:Cf.
        -- left. unfold resume. rewrite Cf. auto.
        -- right. exists r, (Resolved m), f.
           unfold resume, setState, appendMessages, known. rewrite Cf. fields.
           rewrite M.
           destruct (negb (isSome (f_messages f)) || nonEmpty m); fields;
             repeat (rewrite M; fields); destruct (messages p); auto 10.
      * right. exists r, (Rejected e), f.
        rewrite resume_rejected by (fields; exact M). fields. auto 10.
    + left. unfold resume, setState.
      destruct res as [m|e]; [destruct (canceled f); [auto|] |];
        try destruct (negb (isSome (f_messages f)) || nonEmpty m);
        fields; repeat (rewrite M; fields); auto.
  - left. destruct (negb (mounted p)); auto.
  - left. destruct (negb (mounted p)); [auto|]. destruct (isSendingMessage p); auto.
  - left. destruct (negb (mounted p)); [auto|].
    destruct (isSendingMessage p) eqn:S; [auto|].
    unfold handleKeyDown, send. rewrite S. destruct (_ && _); auto.
  - left. destruct (negb (mounted p)); [auto|].
    destruct (isSendingMessage p) eqn:S; [auto|].
    unfold send. rewrite S. auto.
  - left. destruct (memNat r (posting p)); [|auto].
    unfold resumeSend, setState.
    destruct fl; fields; destruct (mounted p) eqn:M; fields;
      repeat (rewrite M; fields); auto.
  - left. destruct (negb (mounted p)); [auto|].
    unfold runCleanup. destruct (cleanup p); auto.
Qed.

(** The cells of [useMessages] after an event, from those its handler
    leaves. *)
Lemma step_hook_cells p ev :
  let p1 := fst (handle p ev) in
  let p' := fst (step p ev) in
  let starts := fetchStarts (fetchDepsChanged (Some p) p1) p1 in
  messages p' = messages p1 /\
  isLoading p' = (if starts then true else isLoading p1) /\
  error p' = (if starts then None else error p1).
Proof.
  intros p1 p' starts. subst p'. rewrite step_unfold. cbn [fst]. fold p1.
  rewrite settle_unfold. cbn [fst].
  destruct (settle_frame (Some p) p1) as (_&_&_&_&_&Em&_).
  destruct (settle_fetch (Some p) p1) as (El&Ee&_).
  rewrite Em, El, Ee, afterFetch_isLoading, afterFetch_error. auto.
Qed.

(** ** The message list *)

Lemma step_known p ev :
  (exists m, known (fst (step p ev)) = known p ++ m) /\
  (isSome (messages p) = true -> isSome (messages (fst (step p ev))) = true).
Proof.
  destruct (step_hook_cells p ev) as (Em&_). unfold known at 1. rewrite Em.
  destruct (handle_hook_cells p ev) as [(E&_)|(r&res&f&_&_&_&_&H)].
  - rewrite E. fold (known p). split; [exists []; now rewrite app_nil_r | auto].
  - destruct res as [m|e].
    + destruct H as (_&_&E). rewrite E.
      destruct (negb (isSome (f_messages f)) || nonEmpty m).
      * split; [now exists m | reflexivity].
      * fold (known p). split; [exists []; now rewrite app_nil_r | auto].
    + destruct H as (E&_). rewrite E. fold (known p).
      split; [exists []; now rewrite app_nil_r | auto].
Qed.

(** X11.  The message list only grows.  Along any run of events, from any page,
    the messages known at the end are those known at the start, in the same
    order, followed by what was received since; and once there is a list
    (after the first successful fetch) there is one ever after. *)
Theorem messages_only_grow p evs :
  let p' := fst (run p evs) in
  (exists m, known p' = known p ++ m) /\
  (isSome (messages p) = true -> isSome (messages p') = true).
Proof.
  revert p. induction evs as [|ev rest IH]; intros p p'; subst p'.
  - cbn. split; [exists []; now rewrite app_nil_r | auto].
  - rewrite run_cons. cbn [fst].
    destruct (step_known p ev) as [(m1&E1) S1].
    destruct (IH (fst (step p ev))) as [(m2&E2) S2].
    split; [|auto].
    exists (m1 ++ m2). now rewrite E2, E1, app_assoc.
Qed.

Lemma run_keeps_list p evs :
  isSome (messages p) = true -> isSome (messages (fst (run p evs))) = true.
Proof.
  revert p. induction evs as [|ev rest IH]; intros p H; [exact H|].
  rewrite run_cons. cbn [fst]. apply IH. now apply step_known.
Qed.

Lemma known_lastId q : lastIdOf (messages q) = lastId (known q).
Proof. unfold lastIdOf, known. destruct (messages q); reflexivity. Qed.

Lemma step_ascending p ev :
  reachable p -> contractEvent p ev -> ascending (known p) ->
  ascending (known (fst (step p ev))).
Proof.
  intros Hr Hc Ha. pose proof (reachable_inv p Hr) as H.
  destruct (step_hook_cells p ev) as (Em&_). unfold known at 1. rewrite Em.
  destruct (handle_hook_cells p ev) as [(E&_)|(r&res&f&Eev&F&M&_&K)].
  - rewrite E. exact Ha.
  - destruct res as [m|e].
    + destruct K as (Cf&_&E). rewrite E. subst ev. cbn [contractEvent] in Hc.
      specialize (Hc f F Cf).
      apply findFetch_some in F as [Fin _].
      destruct (inv_active _ H f Fin Cf) as (_&_&_&_&_&Es).
      rewrite Es, known_lastId in Hc.
      destruct (negb (isSome (f_messages f)) || nonEmpty m); [|exact Ha].
      now apply ascending_append.
    + destruct K as (E&_). rewrite E. exact Ha.
Qed.

Lemma run_ascending p evs :
  reachable p -> contractRun p evs -> ascending (known p) ->
  ascending (known (fst (run p evs))).
Proof.
  revert p. induction evs as [|ev rest IH]; intros p Hr Hc Ha; [exact Ha|].
  rewrite run_cons. cbn [fst]. destruct Hc as [Hc1 Hc2].
  apply IH; [now apply reachable_step | assumption | now apply step_ascending].
Qed.

(** X12.  As long as the responses to the fetches that are not cancelled honour
    the server contract, the message list is strictly ascending by id in every
    state of a run from mount, so no id occurs twice, the [key]s of the
    rendered messages are distinct, and the id of the last message, the cursor
    of the next request, is the greatest. *)
Theorem messages_stay_ascending chat el evs :
  contractRun (fst (mount chat el)) evs ->
  let p := fst (runFromMount chat el evs) in
  ascending (known p) /\
  NoDup (map id (known p)) /\
  (forall x, In x (known p) -> id x <= lastMessageId p) /\
  (forall ic uj gh gm u items,
     messagesView ic uj gh gm u p = [MessageList items] -> NoDup (map fst items)).
Proof.
  intros Hc p. subst p. rewrite runFromMount_eq. cbn [fst].
  set (p := fst (run (fst (mount chat el)) evs)).
  assert (A : ascending (known p)).
  { apply run_ascending; [apply reachable_mount | assumption |].
    assert (E : messages (fst (mount chat el)) = None).
    { unfold mount. rewrite settle_fst.
      destruct (settle_frame None (initialPage chat el)) as (_&_&_&_&_&->&_).
      reflexivity. }
    unfold known. rewrite E. constructor. }
  assert (N : NoDup (map id (known p))) by now apply StronglySorted_lt_NoDup.
  split; [exact A|]. split; [exact N|]. split.
  - intros x Hx. unfold lastMessageId. rewrite known_lastId.
    now apply ascending_lastId_max.
  - intros ic uj gh gm u items E. unfold messagesView in E.
    unfold known in N.
    destruct (messages p) as [ms|]; cbn [isSome negb andb app] in E.
    + inversion E. rewrite map_map. cbn [fst]. exact N.
    + destruct (isLoading p); cbn in E; [discriminate|].
      destruct (error p); cbn in E; discriminate.
Qed.

(** ** The notices *)

Lemma step_notice p ev :
  reachable p -> noticeInv p -> noticeInv (fst (step p ev)).
Proof.
  intros Hr Hn. pose proof (reachable_inv p Hr) as H. unfold noticeInv in *.
  destruct (step_hook_cells p ev) as (Em&El&Ee). rewrite Em, El, Ee.
  destruct (fetchStarts _ _); [discriminate|].
  destruct (handle_hook_cells p ev) as [(E1&E2&E3)|(r&res&f&_&F&M&_&K)].
  - rewrite E1, E2, E3. exact Hn.
  - destruct res as [m|e].
    + destruct K as (Cf&_&E). rewrite E.
      apply findFetch_some in F as [Fin _].
      destruct (inv_active _ H f Fin Cf) as (_&_&_&_&Ems&_).
      rewrite Ems.
      destruct (messages p); cbn [isSome negb orb]; [|discriminate].
      destruct (nonEmpty m); discriminate.
    + destruct K as (_&E). rewrite E. discriminate.
Qed.

Lemma mount_cells chat el :
  let p := fst (mount chat el) in
  messages p = None /\ isLoading p = true /\ error p = None.
Proof.
  intros p. subst p. unfold mount. rewrite settle_fst.
  destruct (settle_frame None (initialPage chat el)) as (_&_&_&_&_&->&_).
  destruct (settle_fetch None (initialPage chat el)) as (->&->&_).
  rewrite afterFetch_isLoading, afterFetch_error.
  destruct (fetchStarts _ _); auto.
Qed.

Lemma reachable_notice p : reachable p -> noticeInv p.
Proof.
  induction 1 as [chat el | p ev Hr IH].
  - destruct (mount_cells chat el) as (_&E&_). unfold noticeInv. congruence.
  - now apply step_notice.
Qed.

(** X13.  The page shows exactly one of three things.  Before the first
    successful fetch it shows the loading notice while the loading flag is up,
    and the error notice otherwise, with an error stored; it is never left
    with neither.  From the first successful fetch on it shows the list of
    messages, one entry per message in order, and neither notice. *)
Theorem page_shows_notice_or_messages ic uj gh gm u p :
  reachable p ->
  (messages p = None /\ isLoading p = true /\
   messagesView ic uj gh gm u p = [Alert "blue" "正在載入訊息"]) \/
  (messages p = None /\ isLoading p = false /\ (exists e, error p = Some e) /\
   messagesView ic uj gh gm u p = [Alert "red" "無法載入訊息，請稍後再試。"]) \/
  (exists ms, messages p = Some ms /\
     messagesView ic uj gh gm u p =
     [MessageList (map (fun m => (id m, renderMessage ic uj gh gm u m)) ms)]).
Proof.
  intros Hr. pose proof (reachable_notice p Hr) as Hn. unfold noticeInv in Hn.
  unfold messagesView.
  destruct (messages p) as [ms|] eqn:Em; cbn [isSome negb andb app].
  - right. right. exists ms. auto.
  - destruct (isLoading p) eqn:El; cbn [negb andb app].
    + left. auto.
    + right. left. destruct (error p) as [e|] eqn:Ee; [|now destruct Hn].
      cbn [isSome app]. eauto 6.
Qed.

(** X14.  Once the page has a list of messages, a failed fetch is never shown:
    whatever happens next, failures included, the page shows the list of
    messages and no notice. *)
Theorem failures_are_silent_after_first_load ic uj gh gm u p evs :
  isSome (messages p) = true ->
  exists items, messagesView ic uj gh gm u (fst (run p evs)) = [MessageList items].
Proof.
  intros Hs. pose proof (run_keeps_list p evs Hs) as S.
  unfold messagesView.
  destruct (messages (fst (run p evs))) as [ms|]; [|discriminate].
  cbn [isSome negb andb app]. eexists. reflexivity.
Qed.

(** ** The requests for messages *)

Lemma gets_app a b : gets (a ++ b) = gets a ++ gets b.
Proof. unfold gets. apply flat_map_app. Qed.

Lemma in_gets log c s : In (Get c s) log <-> In (c, s) (gets log).
Proof.
  unfold gets. rewrite in_flat_map. split.
  - intros H. exists (Get c s). split; [assumption | now left].
  - intros (a & Ha & Hin). destruct a; cbn in Hin; try contradiction.
    destruct Hin as [E|[]]. inversion E. now subst.
Qed.

(** Handlers send no request for messages. *)
Lemma handle_gets p ev : gets (snd (handle p ev)) = [].
Proof.
  destruct ev as [c| |r res|el|v|ic kc k| |r fl|]; cbn [handle].
  - destruct (negb (mounted p)); reflexivity.
  - destruct (negb (mounted p)); [reflexivity|]. destruct (interval p); reflexivity.
  - destruct (findFetch r (inflight p)) as [f|]; [|reflexivity].
    unfold resume. destruct res; [destruct (canceled f)|]; reflexivity.
  - destruct (negb (mounted p)); reflexivity.
  - destruct (negb (mounted p)); [reflexivity|].
    destruct (isSendingMessage p); reflexivity.
  - destruct (negb (mounted p)); [reflexivity|].
    destruct (isSendingMessage p) eqn:S; [reflexivity|].
    unfold handleKeyDown, send. rewrite S. destruct (_ && _); reflexivity.
  - destruct (negb (mounted p)); [reflexivity|].
    destruct (isSendingMessage p) eqn:S; [reflexivity|].
    unfold send. rewrite S. reflexivity.
  - destruct (memNat r (posting p)); [|reflexivity].
    unfold resumeSend. destruct fl; reflexivity.
  - destruct (negb (mounted p)); reflexivity.
Qed.

Lemma settle_gets prev p1 :
  gets (snd (settle rounds prev p1)) =
  if fetchStarts (fetchDepsChanged prev p1) p1
  then [(chatId p1, lastIdOf (messages p1))] else [].
Proof.
  rewrite settle_actions, !gets_app, fetchEffect_snd. unfold fetchStarts.
  destruct (fetchDepsChanged prev p1); cbn [andb];
    [destruct (Js.isEmpty (chatId p1)); cbn [negb gets flat_map app]|];
    destruct (_ && _); destruct (_ || _); reflexivity.
Qed.

(** The handlers that change a dependency of the fetch effect. *)
Lemma handle_deps p ev :
  fetchDepsChanged (Some p) (fst (handle p ev)) = true ->
  mounted p = true /\
  ((exists c, ev = RouteChange c /\ c <> chatId p) \/
   (ev = IntervalTick /\ interval p = true) \/
   (exists r, ev = PostSettled r None /\ memNat r (posting p) = true)).
Proof.
  assert (Same : fetchDepsChanged (Some p) p = true -> False).
  { rewrite fetchDeps_same by reflexivity. discriminate. }
  destruct ev as [c| |r res|el|v|ic kc k| |r fl|]; cbn [handle].
  - destruct (mounted p) eqn:M; cbn [negb fst]; [|intros H; now apply Same in H].
    intros H. split; [reflexivity|]. left. exists c. split; [reflexivity|].
    intros ->. revert H. rewrite fetchDeps_same by reflexivity. discriminate.
  - destruct (mounted p) eqn:M; cbn [negb fst]; [|intros H; now apply Same in H].
    destruct (interval p) eqn:I; cbn [fst]; [|intros H; now apply Same in H].
    auto.
  - destruct (findFetch r (inflight p)) as [f|]; cbn [fst];
      [|intros H; now apply Same in H].
    destruct (resume_deps f res (set_inflight (dropFetch r (inflight p)) p)) as [E1 E2].
    rewrite fetchDeps_same by (symmetry; assumption). discriminate.
  - destruct (negb (mounted p)); cbn [fst]; [intros H; now apply Same in H|].
    rewrite fetchDeps_same by reflexivity. discriminate.
  - destruct (negb (mounted p)); cbn [fst]; [intros H; now apply Same in H|].
    destruct (isSendingMessage p); cbn [fst]; [intros H; now apply Same in H|].
    rewrite fetchDeps_same by reflexivity. discriminate.
  - destruct (negb (mounted p)); cbn [fst]; [intros H; now apply Same in H|].
    destruct (isSendingMessage p); cbn [fst]; [intros H; now apply Same in H|].
    unfold handleKeyDown. destruct (_ && _); [|intros H; now apply Same in H].
    destruct (send_same p) as (_&_&_&_&_&_&_&E1&E2).
    rewrite fetchDeps_same by (symmetry; assumption). discriminate.
  - destruct (negb (mounted p)); cbn [fst]; [intros H; now apply Same in H|].
    destruct (isSendingMessage p); cbn [fst]; [intros H; now apply Same in H|].
    destruct (send_same p) as (_&_&_&_&_&_&_&E1&E2).
    rewrite fetchDeps_same by (symmetry; assumption). discriminate.
  - destruct (memNat r (posting p)) eqn:R; cbn [fst]; [|intros H; now apply Same in H].
    destruct (mounted p) eqn:M.
    + destruct fl as [e|].
      * unfold resumeSend, setState. fields. rewrite M. fields.
        rewrite fetchDeps_same by reflexivity. discriminate.
      * intros _. split; [reflexivity|]. right. right. eauto.
    + destruct (resumeSend_same fl (set_posting (removeNat r (posting p)) p))
        as (_&_&_&_&_&_&_&E1&E2).
      rewrite fetchDeps_same; [discriminate | now rewrite E1 | now rewrite E2].
  - destruct (negb (mounted p)); cbn [fst]; [intros H; now apply Same in H|].
    unfold runCleanup. destruct (cleanup p); rewrite fetchDeps_same by reflexivity;
      discriminate.
Qed.

(** X15.  One event sends at most one request for messages, and only when it is
    a change of the chat, a tick of the poll timer or the success of a send,
    on a mounted page.  The request is for the chat of the route as it is after
    the event, which is not empty, with the id of the last message known as
    its cursor. *)
Theorem requests_are_for_the_current_chat p ev :
  let p' := fst (step p ev) in
  (List.length (gets (snd (step p ev))) <= 1)%nat /\
  (forall c s, In (Get c s) (snd (step p ev)) ->
     c = chatId p' /\ Js.isEmpty c = false /\ s = lastMessageId p' /\
     mounted p = true /\
     ((exists c', ev = RouteChange c' /\ c' <> chatId p) \/
      (ev = IntervalTick /\ interval p = true) \/
      (exists r, ev = PostSettled r None /\ memNat r (posting p) = true))).
Proof.
  intros p'.
  assert (G : gets (snd (step p ev)) =
              if fetchStarts (fetchDepsChanged (Some p) (fst (handle p ev)))
                   (fst (handle p ev))
              then [(chatId (fst (handle p ev)), lastIdOf (messages (fst (handle p ev))))]
              else []).
  { rewrite step_unfold. cbn [snd]. now rewrite gets_app, handle_gets, settle_gets. }
  split.
  - rewrite G. destruct (fetchStarts _ _); cbn; lia.
  - intros c s Hin. pose proof Hin as Hin'. apply get_in_step in Hin' as [Ec Es].
    fold p' in Ec, Es. apply in_gets in Hin. rewrite G in Hin.
    unfold fetchStarts in Hin.
    destruct (fetchDepsChanged _ _) eqn:D; [|destruct Hin].
    destruct (Js.isEmpty (chatId (fst (handle p ev)))) eqn:Ee; [destruct Hin|].
    destruct Hin as [Hin|[]]. inversion Hin. subst c s.
    destruct (handle_deps p ev D) as [M K]. auto 6.
Qed.

(** ** Mount, a change of the chat, a successful fetch *)

(** X16.  The first render.  With a chat identifier the page sends the request
    for all the messages (cursor 0); with none (the route has no chat
    identifier yet) it sends nothing, and a tick would do nothing.  Either way
    the loading flag stays up, no timer is armed, and the page shows the
    loading notice.  When the scrolling element exists the page also scrolls to
    the bottom once, for the newest id 0 of the empty list, and sets
    auto-scroll from the scroll position. *)
Theorem mount_starts_the_first_fetch ic uj gh gm u chat el :
  let p := fst (mount chat el) in
  snd (mount chat el) =
    (if Js.isEmpty chat then [] else [Get chat 0])
    ++ (if isSome el then [AutoScroll 0] else []) /\
  inflight p =
    (if Js.isEmpty chat then []
     else [{| rid := 0; f_chatId := chat; f_sinceId := 0; f_messages := None;
              canceled := false |}]) /\
  cells p =
    (true, None, 0, None, ""%string, true,
     match el with Some e => distanceFromBottom e <? 64 | None => true end,
     (if isSome el then 0 else -1), false) /\
  interval p = false /\
  step p IntervalTick = (p, []) /\
  messagesView ic uj gh gm u p = [Alert "blue" "正在載入訊息"].
Proof.
  intros p. set (p0 := initialPage chat el).
  assert (B : fetchDepsChanged None p0 = true) by reflexivity.
  assert (F : firstScrollDepsChanged None p0 && firstFires p0 = false) by reflexivity.
  assert (A1 : autoScrollDepsChanged None p0 && autoFires p0 = isSome el).
  { unfold autoFires. cbn. now rewrite andb_true_r. }
  assert (Es : scrollEl (fst (commit None p0)) = el).
  { destruct (round1_frame None p0) as (_&->&_). reflexivity. }
  assert (A2 : isSome el = false ->
               autoScrollDepsChanged (Some p0) (fst (commit None p0))
               && autoFires (fst (commit None p0)) = false).
  { intros E. unfold autoFires. rewrite Es, E.
    now rewrite andb_false_r, andb_false_l, andb_false_r. }
  assert (A : autoScrollDepsChanged None p0 && autoFires p0
              || autoScrollDepsChanged (Some p0) (fst (commit None p0))
                 && autoFires (fst (commit None p0)) = isSome el).
  { rewrite A1. destruct (isSome el) eqn:E; [reflexivity|]. now rewrite A2. }
  assert (Hi : interval p = false).
  { pose proof (inv_interval _ (mount_inv chat el)) as I. fold p in I.
    destruct (mount_cells chat el) as (_&L&_). fold p in L.
    rewrite I, L. apply andb_false_r. }
  split; [|split; [|split; [|split; [|split]]]].
  - unfold mount. fold p0. rewrite settle_actions.
    rewrite B, F, A, fetchEffect_snd. reflexivity.
  - subst p. unfold mount. fold p0. rewrite settle_fst.
    destruct (settle_fetch None p0) as (_&_&->&_).
    rewrite afterFetch_inflight, B. destruct (Js.isEmpty (chatId p0)) eqn:E;
      cbn in E; rewrite E; reflexivity.
  - subst p. unfold mount, cells. fold p0. rewrite settle_fst.
    destruct (settle_frame None p0) as (_&_&_&_&->&->&->&->&_).
    destruct (settle_fetch None p0) as (->&->&_).
    rewrite settle_firstScroll, settle_autoScroll, settle_lastAuto, F, A.
    rewrite afterFetch_isLoading, afterFetch_error.
    destruct (fetchStarts _ _), el; reflexivity.
  - exact Hi.
  - now apply tick_idle.
  - destruct (mount_cells chat el) as (Em&El&_). fold p in Em, El.
    unfold messagesView. now rewrite Em, El.
Qed.

(** X17.  A change of the chat does not clear the message list.  When the route
    of a mounted page changes to another chat, the page keeps the messages of
    the previous chat on screen, and the one request it sends for the new chat
    carries the id of the last of them as its cursor.  The loading flag goes
    up, the error is cleared, the timer is disarmed, and the only fetch
    awaited that is not cancelled is the new one. *)
Theorem chat_change_keeps_the_messages p c :
  reachable p -> mounted p = true -> c <> chatId p -> Js.isEmpty c = false ->
  let p' := fst (step p (RouteChange c)) in
  snd (step p (RouteChange c)) = [Get c (lastMessageId p)] /\
  chatId p' = c /\ messages p' = messages p /\
  isLoading p' = true /\ error p' = None /\ interval p' = false /\
  (forall f, In f (inflight p') -> canceled f = false ->
     f_chatId f = c /\ f_sinceId f = lastMessageId p /\ ~ In f (inflight p)).
Proof.
  intros Hr M Hc He p'.
  pose proof (reachable_inv p Hr) as H.
  assert (Hr' : reachable p') by now apply reachable_step.
  pose proof (reachable_inv p' Hr') as H'.
  set (p1 := set_chatId c p).
  assert (Eh : handle p (RouteChange c) = (p1, [])).
  { cbn [handle]. now rewrite M. }
  assert (D : fetchDepsChanged (Some p) p1 = true).
  { unfold fetchDepsChanged. rewrite (changed_diff string_dec chatId); [reflexivity|].
    subst p1. fields. congruence. }
  assert (S : fetchStarts (fetchDepsChanged (Some p) p1) p1 = true).
  { unfold fetchStarts. rewrite D. subst p1. fields. now rewrite He. }
  destruct (step_hook_cells p (RouteChange c)) as (Em&El&Ee).
  rewrite Eh in Em, El, Ee. cbn [fst] in Em, El, Ee. fold p' in Em, El, Ee.
  rewrite S in El, Ee.
  assert (Ec : chatId p' = c).
  { subst p'. rewrite step_unfold, Eh. cbn [fst]. rewrite settle_fst.
    destruct (settle_frame (Some p) p1) as (->&_). reflexivity. }
  assert (Ecl : cleanup p' = Some (nextReq p)).
  { subst p'. rewrite step_unfold, Eh. cbn [fst]. rewrite settle_fst.
    destruct (settle_fetch (Some p) p1) as (_&_&_&->&_).
    rewrite afterFetch_cleanup, D. subst p1. fields. now rewrite He. }
  split; [|split; [|split; [|split; [|split; [|split]]]]]; auto.
  - rewrite step_unfold, Eh. cbn [fst snd app].
    rewrite settle_actions_quiet by reflexivity.
    rewrite D, fetchEffect_snd. subst p1. fields. now rewrite He.
  - rewrite (inv_interval _ H'), El. apply andb_false_r.
  - intros f Hin Cf.
    destruct (inv_active _ H' f Hin Cf) as (_&Hcl&Hch&_&_&Hs).
    rewrite Ec in Hch. rewrite Em in Hs. split; [exact Hch|]. split; [exact Hs|].
    intros Hold. pose proof (inv_fresh _ H f Hold) as Hf.
    rewrite Ecl in Hcl. inversion Hcl. lia.
Qed.

(** X18.  When a fetch that is awaited and not cancelled succeeds, the loading
    flag goes down and the timer is armed; the error value is left as it is.
    The id of the last message is then that of the last message received, or
    the old one after an empty response, and the next tick sends the request
    for the messages after it. *)
Theorem successful_fetch_moves_the_cursor p f m :
  reachable p -> In f (inflight p) -> canceled f = false ->
  let p' := fst (step p (FetchSettled (rid f) (Resolved m))) in
  isLoading p' = false /\ error p' = error p /\ interval p' = true /\
  lastMessageId p' = (if nonEmpty m then lastId m else lastMessageId p) /\
  snd (step p' IntervalTick) = [Get (chatId p) (lastMessageId p')].
Proof.
  intros Hr Hin Hc p'.
  pose proof (reachable_inv p Hr) as H.
  destruct (inv_active _ H f Hin Hc) as (Hmo&Hcl&Hch&He&Hms&Hs).
  destruct (step_fetchSettled p f (Resolved m) H Hin)
    as (El&Ee&_&_&_&Em&Ech&Emo&_).
  fold p' in El, Ee, Em, Ech, Emo.
  assert (R : forall q, mounted q = true ->
            let q1 := fst (resume f (Resolved m) q) in
            isLoading q1 = false /\ error q1 = error q /\ chatId q1 = chatId q /\
            mounted q1 = true /\
            messages q1 = if negb (isSome (f_messages f)) || nonEmpty m
                          then Some (known q ++ m) else messages q).
  { intros q Mq. unfold resume, setState, appendMessages, known. rewrite Hc.
    destruct (negb (isSome (f_messages f)) || nonEmpty m); fields;
      repeat (rewrite Mq; fields); destruct (messages q); auto. }
  destruct (R (set_inflight (dropFetch (rid f) (inflight p)) p) Hmo)
    as (R1&R2&R3&R4&R5).
  rewrite R1 in El. rewrite R2 in Ee. rewrite R3 in Ech. rewrite R4 in Emo.
  rewrite R5 in Em. fields in Ee. fields in Ech.
  replace (known (set_inflight (dropFetch (rid f) (inflight p)) p))
    with (known p) in Em by reflexivity.
  replace (messages (set_inflight (dropFetch (rid f) (inflight p)) p))
    with (messages p) in Em by reflexivity.
  assert (Hr' : reachable p') by now apply reachable_step.
  pose proof (inv_interval _ (reachable_inv p' Hr')) as Hi.
  rewrite Emo, El in Hi. cbn [andb negb] in Hi.
  assert (L : lastMessageId p' = if nonEmpty m then lastId m else lastMessageId p).
  { unfold lastMessageId at 1. rewrite Em, Hms.
    destruct m as [|x m]; cbn [nonEmpty].
    - rewrite orb_false_r. destruct (messages p) eqn:Eo; cbn [isSome negb].
      + unfold lastMessageId. now rewrite Eo.
      + unfold lastMessageId, known. rewrite Eo. reflexivity.
    - rewrite orb_true_r. cbn [lastIdOf]. apply lastId_app. discriminate. }
  split; [exact El|]. split; [exact Ee|]. split; [exact Hi|]. split; [exact L|].
  rewrite tick_actions by congruence.
  rewrite Ech, He. reflexivity.
Qed.

(** ** Fetches that are superseded, and the page once torn down *)

Lemma in_cancelFetch_self r fs f :
  In f fs -> rid f = r -> In (cancel f) (cancelFetch r fs).
Proof.
  intros Hin Hr. unfold cancelFetch. apply in_map_iff. exists f.
  split; [|assumption]. now rewrite Hr, Nat.eqb_refl.
Qed.

(** The fetches awaited after an event that supersedes the fetch [f]. *)
Lemma superseded_inflight p f ev :
  reachable p -> In f (inflight p) -> canceled f = false ->
  supersedes p ev = true ->
  In (cancel f) (inflight (fst (step p ev))).
Proof.
  intros Hr Hin Hc Hs. pose proof (reachable_inv p Hr) as H.
  destruct (inv_active _ H f Hin Hc) as (M&Hcl&_).
  rewrite step_unfold. cbn [fst]. rewrite settle_fst.
  set (p1 := fst (handle p ev)).
  destruct (settle_fetch (Some p) p1) as (_&_&->&_).
  rewrite afterFetch_inflight.
  assert (C : In (cancel f) (cancelPending p)).
  { unfold cancelPending. rewrite Hcl. now apply in_cancelFetch_self. }
  destruct ev as [c| |r res|el|v|ic kc k| |r [e|]|]; try discriminate Hs;
    cbn [supersedes] in Hs.
  - (* RouteChange *)
    assert (E : p1 = set_chatId c p) by (subst p1; cbn [handle]; now rewrite M).
    assert (D : fetchDepsChanged (Some p) p1 = true).
    { unfold fetchDepsChanged. rewrite (changed_diff string_dec chatId); [reflexivity|].
      rewrite E. fields. apply negb_true_iff, String.eqb_neq in Hs. congruence. }
    rewrite D.
    replace (cancelPending p1) with (cancelPending p) by (now rewrite E).
    destruct (Js.isEmpty (chatId p1)); [exact C | apply in_or_app; now left].
  - (* PostSettled, success *)
    assert (E : p1 = set_isSendingMessage false
                       (set_composingMessage ""
                          (set_reloadCounter (reloadCounter p + 1)
                             (set_autoScroll true
                                (set_posting (removeNat r (posting p)) p))))).
    { subst p1. cbn [handle]. rewrite Hs. unfold resumeSend, setState. fields.
      repeat (rewrite M; fields). reflexivity. }
    assert (D : fetchDepsChanged (Some p) p1 = true).
    { unfold fetchDepsChanged.
      rewrite (changed_diff Z.eq_dec reloadCounter); [apply orb_true_r|].
      rewrite E. fields. lia. }
    rewrite D.
    replace (cancelPending p1) with (cancelPending p) by (now rewrite E).
    destruct (Js.isEmpty (chatId p1)); [exact C | apply in_or_app; now left].
  - (* Unmount *)
    assert (E : p1 = set_mounted false (set_interval false (runCleanup p)))
      by (subst p1; cbn [handle]; now rewrite M).
    assert (D : fetchDepsChanged (Some p) p1 = false).
    { apply fetchDeps_same; rewrite E; unfold runCleanup; destruct (cleanup p);
        reflexivity. }
    rewrite D, E. unfold runCleanup. rewrite Hcl. fields.
    now apply in_cancelFetch_self.
Qed.

(** X19.  A fetch that has been superseded is discarded when it succeeds.  Take
    a fetch that is awaited and not cancelled, and let the chat of the route
    change, or a send succeed (which reloads), or the page be torn down.  The
    request of the fetch is not aborted: the fetch is still awaited, now
    cancelled.  When its response arrives nothing happens: no state cell
    changes, and nothing is sent, scrolled or logged. *)
Theorem superseded_fetch_is_discarded p f ev m :
  reachable p -> In f (inflight p) -> canceled f = false ->
  supersedes p ev = true ->
  let p1 := fst (step p ev) in
  let r := step p1 (FetchSettled (rid f) (Resolved m)) in
  In (cancel f) (inflight p1) /\
  r = (set_inflight (dropFetch (rid f) (inflight p1)) p1, []) /\
  cells (fst r) = cells p1.
Proof.
  intros Hr Hin Hc Hs p1 r.
  pose proof (superseded_inflight p f ev Hr Hin Hc Hs) as Hin1. fold p1 in Hin1.
  assert (Hr1 : reachable p1) by now apply reachable_step.
  assert (E : r = (set_inflight (dropFetch (rid f) (inflight p1)) p1, [])).
  { subst r. exact (cancelled_success_discarded p1 (cancel f) m Hr1 Hin1 eq_refl). }
  split; [exact Hin1|]. split; [exact E|]. now rewrite E.
Qed.

Lemma step_unmounted p ev :
  mounted p = false ->
  let r := step p ev in
  cells (fst r) = cells p /\ mounted (fst r) = false /\
  interval (fst r) = interval p /\
  (forall a, In a (snd r) -> exists e, a = ConsoleError e).
Proof.
  intros M r. subst r. rewrite step_unfold.
  assert (K : cells (fst (handle p ev)) = cells p /\
              mounted (fst (handle p ev)) = false /\
              interval (fst (handle p ev)) = interval p /\
              chatId (fst (handle p ev)) = chatId p /\
              pos (fst (handle p ev)) = pos p /\
              (forall a, In a (snd (handle p ev)) -> exists e, a = ConsoleError e)).
  { destruct ev as [c| |r res|el|v|ic kc k| |r fl|]; cbn [handle]; rewrite ?M;
      cbn [negb fst snd]; try (repeat split; auto; intros a []).
    - destruct (findFetch r (inflight p)) as [f|];
        [|repeat split; auto; intros a []].
      unfold resume, setState, cells.
      destruct res as [m|e]; [destruct (canceled f)|];
        try destruct (negb (isSome (f_messages f)) || nonEmpty m);
        fields; repeat (rewrite M; fields); repeat split; auto;
        try (intros a []); try contradiction; subst; eauto.
    - destruct (memNat r (posting p)); [|repeat split; auto; intros a []].
      unfold resumeSend, setState, cells.
      destruct fl; fields; repeat (rewrite M; fields); repeat split; auto;
        try (intros a []); try contradiction; subst; eauto. }
  destruct K as (Kc&Km&Ki&Kch&Kp&Ka). unfold cells in Kc.
  inversion Kc as [[E1 E2 E3 E4 E5 E6 E7 E8 E9]].
  rewrite settle_idle by auto.
  cbn [fst snd]. rewrite app_nil_r. auto.
Qed.

(** X20.  Unmounting tears the page down for good.  It clears the poll timer and
    cancels the fetch that was awaited; from then on, whatever happens, the
    requests still under way settling included, no state cell changes, the
    timer stays cleared, and nothing is sent or scrolled: at most a failure is
    logged. *)
Theorem unmounted_page_is_left_alone p evs :
  reachable p ->
  let q := fst (step p Unmount) in
  mounted q = false /\ interval q = false /\
  (forall f, In f (inflight q) -> canceled f = true) /\
  cells (fst (run q evs)) = cells q /\
  interval (fst (run q evs)) = false /\
  (forall a, In a (snd (run q evs)) -> exists e, a = ConsoleError e).
Proof.
  intros Hr q.
  assert (Hq : reachable q) by now apply reachable_step.
  pose proof (reachable_inv q Hq) as H.
  assert (M : mounted q = false).
  { subst q. rewrite step_unfold. cbn [fst]. rewrite settle_fst.
    destruct (settle_frame (Some p) (fst (handle p Unmount))) as (_&_&_&->&_).
    cbn [handle]. destruct (mounted p) eqn:Mp; cbn [negb fst]; [reflexivity | exact Mp]. }
  assert (I : interval q = false) by (rewrite (inv_interval _ H), M; reflexivity).
  split; [exact M|]. split; [exact I|]. split.
  { intros f Hin. destruct (canceled f) eqn:Cf; [reflexivity|].
    destruct (inv_active _ H f Hin Cf) as (Mq&_). congruence. }
  clear Hr Hq H. revert M I. generalize q. clear q p.
  induction evs as [|ev rest IH]; intros q M I.
  - cbn. repeat split; auto. intros a [].
  - rewrite run_cons. cbn [fst snd].
    destruct (step_unmounted q ev M) as (Sc&Sm&Si&Sa).
    destruct (IH (fst (step q ev)) Sm) as (Rc&Ri&Ra); [congruence|].
    split; [congruence|]. split; [exact Ri|].
    intros a Ha. apply in_app_or in Ha as [Ha|Ha]; auto.
Qed.

(** ** Sending a message *)

(** X21.  The Enter key.  On a mounted page a key press sends the draft exactly
    when no send is under way, no input-method composition is in progress
    (neither [isComposing] nor key code 229), the key is Enter, and the draft
    is not blank once trimmed.  It then posts the draft as it is, untrimmed, to
    the chat of the route and raises [isSendingMessage], keeping the draft; in
    every other case the key press does nothing. *)
Theorem enter_key_sends_exactly_when p ic kc k :
  mounted p = true ->
  let sends :=
    negb (isSendingMessage p) && negb (ic || (kc =? 229))
    && String.eqb k "Enter" && negb (Js.isEmpty (Js.trim (composingMessage p))) in
  let r := step p (KeyDown ic kc k) in
  (sends = true ->
   snd r = [Post (chatId p) (composingMessage p)] /\
   isSendingMessage (fst r) = true /\
   composingMessage (fst r) = composingMessage p /\
   posting (fst r) = posting p ++ [nextReq p]) /\
  (sends = false -> r = (p, [])).
Proof.
  intros M sends r. subst sends r. rewrite step_unfold. cbn [handle].
  rewrite M. cbn [negb]. unfold handleKeyDown.
  destruct (isSendingMessage p) eqn:S; cbn [negb andb].
  - split; [discriminate|]. intros _. cbn [fst snd]. now rewrite settle_same.
  - destruct (negb (ic || (kc =? 229)) && String.eqb k "Enter"
              && negb (Js.isEmpty (Js.trim (composingMessage p)))) eqn:C.
    + split; [intros _ | discriminate].
      unfold send. rewrite S. cbn [fst snd].
      rewrite settle_idle by reflexivity. cbn [fst snd]. fields. auto.
    + split; [discriminate | intros _].
      cbn [fst snd]. now rewrite settle_same.
Qed.

Lemma post_success_handle p r :
  mounted p = true -> memNat r (posting p) = true ->
  handle p (PostSettled r None) =
  (set_isSendingMessage false
     (set_composingMessage ""
        (set_reloadCounter (reloadCounter p + 1)
           (set_autoScroll true (set_posting (removeNat r (posting p)) p)))), []).
Proof.
  intros M R. cbn [handle]. rewrite R. unfold resumeSend, setState. fields.
  repeat (rewrite M; fields). reflexivity.
Qed.

(** X22.  When a post succeeds on a mounted page: the draft is cleared, the
    send is over, auto-scroll is enabled, and the reload starts a fetch at
    once, with the id of the last message known as its cursor.  If auto-scroll
    was disabled and the newest message has not been scrolled to yet, the page
    scrolls to the bottom; nothing else is done. *)
Theorem successful_send_reloads_and_clears p r :
  mounted p = true -> memNat r (posting p) = true ->
  let q := step p (PostSettled r None) in
  composingMessage (fst q) = ""%string /\
  isSendingMessage (fst q) = false /\
  autoScroll (fst q) = true /\
  reloadCounter (fst q) = reloadCounter p + 1 /\
  messages (fst q) = messages p /\
  snd q =
    (if Js.isEmpty (chatId p) then [] else [Get (chatId p) (lastMessageId p)])
    ++ (if negb (autoScroll p) && isSome (scrollEl p)
           && negb (lastMessageId p =? lastAutoScrolledMessageId p)
        then [AutoScroll (lastMessageId p)] else []).
Proof.
  intros M R q. subst q.
  set (p1 := set_isSendingMessage false
               (set_composingMessage ""
                  (set_reloadCounter (reloadCounter p + 1)
                     (set_autoScroll true
                        (set_posting (removeNat r (posting p)) p))))).
  pose proof (post_success_handle p r M R) as E. fold p1 in E.
  assert (D : fetchDepsChanged (Some p) p1 = true).
  { unfold fetchDepsChanged.
    rewrite (changed_diff Z.eq_dec reloadCounter); [apply orb_true_r|].
    subst p1. fields. lia. }
  assert (T : trackScrollDepsChanged (Some p) p1 = false).
  { unfold trackScrollDepsChanged. now rewrite changed_same. }
  assert (F : firstScrollDepsChanged (Some p) p1 = false).
  { unfold firstScrollDepsChanged. now rewrite !changed_same. }
  assert (A1 : autoScrollDepsChanged (Some p) p1 && autoFires p1 =
               negb (autoScroll p) && isSome (scrollEl p)
               && negb (lastMessageId p =? lastAutoScrolledMessageId p)).
  { unfold autoScrollDepsChanged, autoFires.
    rewrite (changed_same Z.eq_dec lastMessageId),
      (changed_same Z.eq_dec lastAutoScrolledMessageId) by reflexivity.
    replace (lastMessageId p1) with (lastMessageId p) by reflexivity.
    subst p1. fields. unfold changed.
    destruct (bool_dec (autoScroll p) true) as [Ea|Ea].
    - rewrite Ea. reflexivity.
    - apply not_true_is_false in Ea. rewrite Ea. reflexivity. }
  assert (A2 : autoScrollDepsChanged (Some p) p1 && autoFires p1 = false ->
               autoScrollDepsChanged (Some p1) (fst (commit (Some p) p1))
               && autoFires (fst (commit (Some p) p1)) = false).
  { intros N. unfold autoScrollDepsChanged.
    rewrite !changed_same; [reflexivity| | |].
    - rewrite round1_lastAuto, N. reflexivity.
    - rewrite round1_autoScroll, T. reflexivity.
    - now rewrite round1_lastMessageId. }
  destruct (settle_frame (Some p) p1) as (_&_&_&_&Erc&Em&Ecm&Es&_).
  pose proof (settle_autoScroll (Some p) p1) as Ea. rewrite T in Ea.
  rewrite step_unfold, E. cbn [fst snd app]. rewrite settle_fst.
  split; [exact Ecm|]. split; [exact Es|]. split; [exact Ea|].
  split; [exact Erc|]. split; [exact Em|].
  rewrite settle_actions, D, F, fetchEffect_snd. cbn [andb app].
  replace (chatId p1) with (chatId p) by reflexivity.
  replace (messages p1) with (messages p) by reflexivity.
  replace (lastMessageId p1) with (lastMessageId p) by reflexivity.
  f_equal. rewrite <- A1.
  destruct (autoScrollDepsChanged (Some p) p1 && autoFires p1) eqn:N;
    [reflexivity|]. now rewrite A2.
Qed.

(** X23.  When a post fails on a mounted page the draft is left as it is for
    another try, the send is over, and the failure is logged; no other state
    cell changes, and there is no reload and no retry. *)
Theorem failed_send_keeps_the_draft p r e :
  mounted p = true -> memNat r (posting p) = true ->
  let q := step p (PostSettled r (Some e)) in
  snd q = [ConsoleError e] /\
  composingMessage (fst q) = composingMessage p /\
  isSendingMessage (fst q) = false /\
  cells (fst q) = cells (set_isSendingMessage false p).
Proof.
  intros M R q. subst q. rewrite (post_failure_keeps_draft p r e M R).
  cbn [fst snd]. fields. auto.
Qed.

Lemma resume_frame f res q :
  let q1 := fst (resume f res q) in
  posting q1 = posting q /\ isSendingMessage q1 = isSendingMessage q /\
  mounted q1 = mounted q.
Proof.
  unfold resume, setState, appendMessages.
  destruct res as [m|e]; [destruct (canceled f)|];
    try destruct (negb (isSome (f_messages f)) || nonEmpty m);
    fields; destruct (mounted q) eqn:M; fields; repeat (rewrite M; fields); auto.
Qed.

Lemma resumeSend_frame fl q :
  let q1 := fst (resumeSend fl q) in
  posting q1 = posting q /\ mounted q1 = mounted q /\
  (mounted q = true -> isSendingMessage q1 = false).
Proof.
  unfold resumeSend, setState.
  destruct fl; fields; destruct (mounted q) eqn:M; fields;
    repeat (rewrite M; fields); auto; repeat split; auto; discriminate.
Qed.

Lemma handle_send p ev :
  sendInv p -> sendInv (fst (handle p ev)).
Proof.
  intros [L I]. unfold sendInv.
  assert (Same : forall p1 : Page,
            posting p1 = posting p -> isSendingMessage p1 = isSendingMessage p ->
            mounted p1 = mounted p \/ mounted p1 = false ->
            (List.length (posting p1) <= 1)%nat /\
            (mounted p1 = true -> (isSendingMessage p1 = true <-> posting p1 <> []))).
  { intros p1 -> -> [ -> | -> ]; [auto|]. split; [exact L | discriminate]. }
  assert (Send : isSendingMessage p = false -> mounted p = true ->
            (List.length (posting (fst (send p))) <= 1)%nat /\
            (mounted (fst (send p)) = true ->
             (isSendingMessage (fst (send p)) = true <-> posting (fst (send p)) <> []))).
  { intros S M. unfold send. rewrite S. fields.
    assert (E : posting p = []).
    { destruct (posting p) eqn:Ep; [reflexivity|]. exfalso.
      assert (T : isSendingMessage p = true) by (apply (I M); discriminate).
      congruence. }
    rewrite E. cbn. split; [lia|]. intros _. split; [discriminate | reflexivity]. }
  destruct ev as [c| |r res|el|v|ic kc k| |r fl|]; cbn [handle].
  - destruct (negb (mounted p)); cbn [fst]; now apply Same; auto.
  - destruct (negb (mounted p)); cbn [fst]; [now apply Same; auto|].
    destruct (interval p); now apply Same; auto.
  - destruct (findFetch r (inflight p)) as [f|]; [|now apply Same; auto].
    destruct (resume_frame f res (set_inflight (dropFetch r (inflight p)) p))
      as (E1&E2&E3).
    apply Same; auto.
  - destruct (negb (mounted p)); cbn [fst]; now apply Same; auto.
  - destruct (negb (mounted p)); cbn [fst]; [now apply Same; auto|].
    destruct (isSendingMessage p) eqn:S; cbn [fst]; apply Same; auto.
  - destruct (mounted p) eqn:M; cbn [negb fst]; [|now apply Same; auto].
    destruct (isSendingMessage p) eqn:S; [now apply Same; auto|].
    unfold handleKeyDown. destruct (_ && _); [now apply Send | now apply Same; auto].
  - destruct (mounted p) eqn:M; cbn [negb fst]; [|now apply Same; auto].
    destruct (isSendingMessage p) eqn:S; [now apply Same; auto|].
    now apply Send.
  - destruct (memNat r (posting p)) eqn:R; [|now apply Same; auto].
    assert (E : removeNat r (posting p) = []).
    { destruct (posting p) as [|x [|y l]] eqn:Ep; cbn in L, R |- *; try lia;
        try discriminate.
      rewrite orb_false_r in R. rewrite Nat.eqb_sym in R. now rewrite R. }
    destruct (resumeSend_frame fl (set_posting (removeNat r (posting p)) p))
      as (E1&E2&E3).
    cbn [fst]. rewrite E1, E2. fields.
    split; [rewrite E; cbn; lia|]. intros Mp. rewrite (E3 Mp), E.
    split; [discriminate | congruence].
  - destruct (negb (mounted p)); cbn [fst]; [now apply Same; auto|].
    unfold runCleanup. destruct (cleanup p); apply Same; auto.
Qed.

Lemma step_send p ev : sendInv p -> sendInv (fst (step p ev)).
Proof.
  intros H. apply (handle_send p ev) in H. unfold sendInv in *.
  rewrite step_unfold. cbn [fst]. rewrite settle_fst.
  destruct (settle_frame (Some p) (fst (handle p ev))) as (_&_&_&->&_&_&_&->&->).
  exact H.
Qed.

Lemma mount_send chat el : sendInv (fst (mount chat el)).
Proof.
  unfold sendInv, mount. rewrite settle_fst.
  destruct (settle_frame None (initialPage chat el)) as (_&_&_&->&_&_&_&->&->).
  cbn. split; [lia|]. intros _. split; [discriminate | congruence].
Qed.

Lemma reachable_send p : reachable p -> sendInv p.
Proof.
  induction 1 as [chat el | p ev _ IH]; [apply mount_send | now apply step_send].
Qed.

(** X24.  Sends never overlap.  In every state of a run from mount at most one
    post is awaited, and on a mounted page [isSendingMessage] is up exactly
    while one is.  While a post is awaited, typing, the Enter key and the send
    button do nothing; and a post is only ever sent when none is awaited, with
    the draft and the chat of that moment. *)
Theorem sends_never_overlap chat el evs :
  let p := fst (runFromMount chat el evs) in
  (List.length (posting p) <= 1)%nat /\
  (mounted p = true -> (isSendingMessage p = true <-> posting p <> [])) /\
  (posting p <> [] ->
   forall v ic kc k,
     step p (Input v) = (p, []) /\ step p (KeyDown ic kc k) = (p, []) /\
     step p ClickSend = (p, [])) /\
  (forall ev c t, In (Post c t) (snd (step p ev)) ->
     posting p = [] /\ c = chatId p /\ t = composingMessage p).
Proof.
  intros p. subst p. rewrite runFromMount_eq. cbn [fst].
  set (p := fst (run (fst (mount chat el)) evs)).
  assert (Hr : reachable p) by (apply run_reachable, reachable_mount).
  destruct (reachable_send p Hr) as [L I].
  split; [exact L|]. split; [exact I|]. split.
  - intros Hp v ic kc k.
    destruct (mounted p) eqn:M.
    + assert (S : isSendingMessage p = true) by now apply I.
      destruct (send_in_flight_ignored p ic kc k S) as [E1 E2].
      split; [|auto]. rewrite step_unfold. cbn [handle]. rewrite M, S.
      cbn [negb fst snd]. now rewrite settle_same.
    + rewrite !step_unfold. cbn [handle]. rewrite M. cbn [negb fst snd].
      now rewrite settle_same.
  - intros ev c t Hin. rewrite step_unfold in Hin. cbn [snd] in Hin.
    apply in_app_or in Hin as [Hin|Hin].
    + assert (K : isSendingMessage p = false -> mounted p = true ->
                  In (Post c t) (snd (send p)) ->
                  posting p = [] /\ c = chatId p /\ t = composingMessage p).
      { intros S M. unfold send. rewrite S. cbn [snd]. fields.
        intros [E|[]]. inversion E.
        split; [|auto]. destruct (posting p) eqn:Ep; [reflexivity|]. exfalso.
        assert (T : isSendingMessage p = true) by (apply (I M); discriminate).
        congruence. }
      destruct ev as [c0| |r res|el0|v|ic kc k| |r fl|]; cbn [handle] in Hin.
      * destruct (negb (mounted p)); destruct Hin.
      * destruct (negb (mounted p)); [destruct Hin|]. destruct (interval p); destruct Hin.
      * destruct (findFetch r (inflight p)) as [f|]; [|destruct Hin].
        unfold resume in Hin.
        destruct res; [destruct (canceled f); destruct Hin|].
        destruct Hin as [E|[]]. discriminate.
      * destruct (negb (mounted p)); destruct Hin.
      * destruct (negb (mounted p)); [destruct Hin|].
        destruct (isSendingMessage p); destruct Hin.
      * destruct (mounted p) eqn:M; cbn [negb] in Hin; [|destruct Hin].
        destruct (isSendingMessage p) eqn:S; [destruct Hin|].
        unfold handleKeyDown in Hin. destruct (_ && _); [auto | destruct Hin].
      * destruct (mounted p) eqn:M; cbn [negb] in Hin; [|destruct Hin].
        destruct (isSendingMessage p) eqn:S; [destruct Hin | auto].
      * destruct (memNat r (posting p)); [|destruct Hin].
        unfold resumeSend in Hin. destruct fl; [|destruct Hin].
        destruct Hin as [E|[]]. discriminate.
      * destruct (negb (mounted p)); destruct Hin.
    + exfalso. rewrite settle_actions, fetchEffect_snd in Hin.
      apply in_app_or in Hin as [Hin|Hin].
      * destruct (fetchDepsChanged _ _); [|destruct Hin].
        destruct (Js.isEmpty _); [destruct Hin|].
        destruct Hin as [E|[]]. discriminate.
      * apply in_app_or in Hin as [Hin|Hin].
        -- destruct (_ && _) in Hin; [destruct Hin as [E|[]]; discriminate | destruct Hin].
        -- destruct (_ || _) in Hin; [destruct Hin as [E|[]]; discriminate | destruct Hin].
Qed.

(** ** Polling goes on *)

Lemma other_rid fs f g :
  NoDup (map rid fs) -> In f fs -> In g fs -> f <> g -> rid g <> rid f.
Proof.
  intros Hn Hf Hg Hne E.
  pose proof (findFetch_in (rid f) fs f Hn Hf eq_refl) as F1.
  pose proof (findFetch_in (rid f) fs g Hn Hg E) as F2.
  congruence.
Qed.

Lemma handle_busy p ev :
  reachable p -> busyInv p ->
  fetchDepsChanged (Some p) (fst (handle p ev)) = false ->
  busyInv (fst (handle p ev)).
Proof.
  intros Hr Hb D. pose proof (reachable_inv p Hr) as H.
  assert (Same : forall p1 : Page,
            mounted p1 = mounted p \/ mounted p1 = false ->
            chatId p1 = chatId p -> isLoading p1 = isLoading p ->
            inflight p1 = inflight p -> busyInv p1).
  { unfold busyInv in *. intros p1 [ -> | -> ] -> -> ->; [exact Hb | discriminate]. }
  apply fetchDeps_false in D as [Dc Dr].
  destruct ev as [c| |r res|el|v|ic kc k| |r fl|]; cbn [handle] in *.
  - destruct (negb (mounted p)); cbn [fst] in *; apply Same; auto.
  - destruct (negb (mounted p)); cbn [fst] in *; [apply Same; auto|].
    destruct (interval p); cbn [fst] in *; apply Same; auto.
  - destruct (findFetch r (inflight p)) as [f|] eqn:F; [|apply Same; auto].
    apply findFetch_some in F as [Fin Fr]. subst r.
    destruct (resume_frame f res (set_inflight (dropFetch (rid f) (inflight p)) p))
      as (_&_&Em).
    destruct (resume_deps f res (set_inflight (dropFetch (rid f) (inflight p)) p))
      as (Ec&_).
    unfold busyInv. rewrite Em, Ec. fields. intros M E L.
    destruct (canceled f) eqn:Cf.
    + destruct res as [m|e].
      * revert L. unfold resume. rewrite Cf. fields. intros L.
        destruct (Hb M E L) as (g&Hg&Cg). exists g. split; [|exact Cg].
        apply in_dropFetch. split; [exact Hg|].
        apply (other_rid _ f g (inv_nodup _ H) Fin Hg). congruence.
      * exfalso. revert L. rewrite resume_rejected by exact M. fields.
        intros X. discriminate X.
    + exfalso. revert L. unfold resume, setState, appendMessages. rewrite Cf.
      destruct res as [m|e];
        try destruct (negb (isSome (f_messages f)) || nonEmpty m);
        fields; repeat (rewrite M; fields); intros X; discriminate X.
  - destruct (negb (mounted p)); cbn [fst] in *; apply Same; auto.
  - destruct (negb (mounted p)); cbn [fst] in *; [apply Same; auto|].
    destruct (isSendingMessage p); apply Same; auto.
  - destruct (negb (mounted p)); cbn [fst] in *; [apply Same; auto|].
    destruct (isSendingMessage p) eqn:S; [apply Same; auto|].
    unfold handleKeyDown, send. rewrite S. destruct (_ && _); apply Same; auto.
  - destruct (negb (mounted p)); cbn [fst] in *; [apply Same; auto|].
    destruct (isSendingMessage p) eqn:S; [apply Same; auto|].
    unfold send. rewrite S. apply Same; auto.
  - destruct (memNat r (posting p)); [|apply Same; auto].
    destruct (resumeSend_same fl (set_posting (removeNat r (posting p)) p))
      as (E1&_&_&E2&_&E3&_&E4&_).
    apply Same; auto.
  - destruct (negb (mounted p)); cbn [fst] in *; [apply Same; auto|].
    unfold runCleanup. destruct (cleanup p); unfold busyInv; fields;
      intros X; discriminate X.
Qed.

Lemma step_busy p ev :
  reachable p -> busyInv p -> busyInv (fst (step p ev)).
Proof.
  intros Hr Hb. pose proof (handle_busy p ev Hr Hb) as K. unfold busyInv in *.
  rewrite step_unfold. cbn [fst]. rewrite settle_fst.
  set (p1 := fst (handle p ev)) in *.
  destruct (settle_frame (Some p) p1) as (->&_&_&->&_).
  destruct (settle_fetch (Some p) p1) as (->&_&->&_).
  rewrite afterFetch_isLoading, afterFetch_inflight. unfold fetchStarts.
  destruct (fetchDepsChanged (Some p) p1) eqn:D; cbn [andb].
  - intros M E _. rewrite E. exists (newFetch p1).
    split; [apply in_or_app; right; now left | reflexivity].
  - now apply K.
Qed.

Lemma mount_busy chat el : busyInv (fst (mount chat el)).
Proof.
  unfold busyInv, mount. rewrite settle_fst.
  destruct (settle_frame None (initialPage chat el)) as (->&_).
  destruct (settle_fetch None (initialPage chat el)) as (_&_&->&_).
  rewrite afterFetch_inflight. intros _ E _.
  replace (fetchDepsChanged None (initialPage chat el)) with true by reflexivity.
  rewrite E. exists (newFetch (initialPage chat el)).
  split; [apply in_or_app; right; now left | reflexivity].
Qed.

Lemma reachable_busy p : reachable p -> busyInv p.
Proof.
  induction 1 as [chat el | p ev Hr IH]; [apply mount_busy | now apply step_busy].
Qed.

(** X25.  Polling never stalls.  In every state of a run from mount, a mounted
    page with a chat identifier either awaits a fetch for that chat that is
    not cancelled, or has its poll timer armed, and then the next tick sends
    the request for the messages after the last one known. *)
Theorem polling_never_stalls chat el evs :
  let p := fst (runFromMount chat el evs) in
  mounted p = true -> Js.isEmpty (chatId p) = false ->
  (exists f, In f (inflight p) /\ canceled f = false /\ f_chatId f = chatId p) \/
  (interval p = true /\
   snd (step p IntervalTick) = [Get (chatId p) (lastMessageId p)]).
Proof.
  intros p. subst p. rewrite runFromMount_eq. cbn [fst].
  set (p := fst (run (fst (mount chat el)) evs)).
  intros M E.
  assert (Hr : reachable p) by (apply run_reachable, reachable_mount).
  pose proof (reachable_inv p Hr) as H.
  destruct (isLoading p) eqn:L.
  - left. destruct (reachable_busy p Hr M E L) as (f&Hf&Cf).
    exists f. split; [exact Hf|]. split; [exact Cf|].
    now destruct (inv_active _ H f Hf Cf) as (_&_&Ec&_).
  - right.
    assert (I : interval p = true) by (rewrite (inv_interval _ H), M, L; reflexivity).
    split; [exact I|]. rewrite tick_actions by assumption. now rewrite E.
Qed.

(** ** Witnesses *)

Lemma loadedPage_reachable : reachable loadedPage.
Proof. apply reachable_step, demoPage_reachable. Qed.

Lemma busyRun_contract : contractRun (fst (mount "42" (Some demoEl))) busyRun.
Proof.
  vm_compute.
  repeat match goal with
  | |- _ /\ _ => split
  | |- True => exact I
  | |- forall _, _ => intros f0 E _; inversion E; subst; repeat constructor
  end.
Qed.

(** Witness of X12: [busyRun] ends with the messages 3, 4 and 6. *)
Lemma messages_stay_ascending_witness :
  contractRun (fst (mount "42" (Some demoEl))) busyRun /\
  map id (known (fst (runFromMount "42" (Some demoEl) busyRun))) = [3; 4; 6] /\
  NoDup (map id (known (fst (runFromMount "42" (Some demoEl) busyRun)))).
Proof.
  destruct (messages_stay_ascending "42" (Some demoEl) busyRun busyRun_contract)
    as (_&N&_).
  split; [exact busyRun_contract|]. split; [vm_compute; reflexivity | exact N].
Defined.

(** Witness of X13: [demoPage] shows the loading notice. *)
Lemma page_shows_notice_or_messages_witness :
  reachable demoPage /\
  messagesView 1 2 (fun _ => 9) (fun _ => 5) (Some 7) demoPage
  = [Alert "blue" "正在載入訊息"].
Proof.
  assert (L : isLoading demoPage = true) by (vm_compute; reflexivity).
  assert (N : messages demoPage = None) by (vm_compute; reflexivity).
  split; [exact demoPage_reachable|].
  destruct (page_shows_notice_or_messages 1 2 (fun _ => 9) (fun _ => 5) (Some 7)
              demoPage demoPage_reachable) as [(_&_&E)|[(_&F&_)|(ms&F&_)]].
  - exact E.
  - rewrite L in F. discriminate F.
  - rewrite N in F. discriminate F.
Defined.

(** Witness of X14: the fetch of a tick of [loadedPage] fails with status 500;
    the error is stored and the list is shown. *)
Lemma failures_are_silent_after_first_load_witness :
  isSome (messages loadedPage) = true /\
  error (fst (run loadedPage [IntervalTick; FetchSettled 1 (Rejected (HTTPError 500))]))
  = Some (HTTPError 500) /\
  exists items,
    messagesView 1 2 (fun _ => 9) (fun _ => 5) (Some 7)
      (fst (run loadedPage [IntervalTick; FetchSettled 1 (Rejected (HTTPError 500))]))
    = [MessageList items].
Proof.
  assert (H : isSome (messages loadedPage) = true) by (vm_compute; reflexivity).
  split; [exact H|]. split; [vm_compute; reflexivity|].
  exact (failures_are_silent_after_first_load 1 2 (fun _ => 9) (fun _ => 5) (Some 7)
           loadedPage [IntervalTick; FetchSettled 1 (Rejected (HTTPError 500))] H).
Defined.

(** Witness of X17: the route of [loadedPage] changes to chat 43. *)
Lemma chat_change_keeps_the_messages_witness :
  reachable loadedPage /\ mounted loadedPage = true /\
  "43"%string <> chatId loadedPage /\ Js.isEmpty "43" = false /\
  snd (step loadedPage (RouteChange "43")) = [Get "43" 3] /\
  messages (fst (step loadedPage (RouteChange "43"))) = Some [demoMessage 3].
Proof.
  assert (M : mounted loadedPage = true) by (vm_compute; reflexivity).
  assert (N : "43"%string <> chatId loadedPage) by (vm_compute; discriminate).
  destruct (chat_change_keeps_the_messages loadedPage "43" loadedPage_reachable M N
              eq_refl) as (A&_&B&_).
  split; [exact loadedPage_reachable|]. split; [exact M|]. split; [exact N|].
  split; [reflexivity|]. split.
  - rewrite A. vm_compute. reflexivity.
  - rewrite B. vm_compute. reflexivity.
Defined.

(** Witness of X18: the first fetch of [demoPage] brings the messages 3 and 5. *)
Lemma successful_fetch_moves_the_cursor_witness :
  reachable demoPage /\ In demoFetch (inflight demoPage) /\
  canceled demoFetch = false /\
  snd (step (fst (step demoPage
                    (FetchSettled 0 (Resolved [demoMessage 3; demoMessage 5]))))
         IntervalTick) = [Get "42" 5].
Proof.
  destruct (successful_fetch_moves_the_cursor demoPage demoFetch
              [demoMessage 3; demoMessage 5]
              demoPage_reachable demoFetch_awaited eq_refl) as (_&_&_&L&T).
  split; [exact demoPage_reachable|]. split; [exact demoFetch_awaited|].
  split; [reflexivity|].
  cbv zeta in T, L. cbn [rid demoFetch] in T, L. rewrite T, L. reflexivity.
Defined.

(** Witness of X19: the route of [demoPage] changes to chat 43 while its first
    fetch is awaited. *)
Lemma superseded_fetch_is_discarded_witness :
  reachable demoPage /\ In demoFetch (inflight demoPage) /\
  canceled demoFetch = false /\ supersedes demoPage (RouteChange "43") = true /\
  snd (step (fst (step demoPage (RouteChange "43")))
         (FetchSettled 0 (Resolved [demoMessage 3]))) = [] /\
  messages (fst (step (fst (step demoPage (RouteChange "43")))
                   (FetchSettled 0 (Resolved [demoMessage 3])))) = None.
Proof.
  assert (S : supersedes demoPage (RouteChange "43") = true) by (vm_compute; reflexivity).
  destruct (superseded_fetch_is_discarded demoPage demoFetch (RouteChange "43")
              [demoMessage 3] demoPage_reachable demoFetch_awaited eq_refl S)
    as (_&E&_).
  cbv zeta in E. cbn [rid demoFetch] in E.
  split; [exact demoPage_reachable|]. split; [exact demoFetch_awaited|].
  split; [reflexivity|]. split; [exact S|].
  rewrite E. split; [reflexivity | vm_compute; reflexivity].
Defined.

(** Witness of X20: [demoPage] is unmounted, then its first fetch fails and a
    tick is tried. *)
Lemma unmounted_page_is_left_alone_witness :
  reachable demoPage /\
  snd (run (fst (step demoPage Unmount))
         [FetchSettled 0 (Rejected (HTTPError 500)); IntervalTick])
  = [ConsoleError (HTTPError 500)] /\
  cells (fst (run (fst (step demoPage Unmount))
                [FetchSettled 0 (Rejected (HTTPError 500)); IntervalTick]))
  = cells (fst (step demoPage Unmount)).
Proof.
  destruct (unmounted_page_is_left_alone demoPage
              [FetchSettled 0 (Rejected (HTTPError 500)); IntervalTick]
              demoPage_reachable) as (_&_&_&C&_).
  split; [exact demoPage_reachable|]. split; [vm_compute; reflexivity | exact C].
Defined.

(** Witness of X21: the Enter key on [draftPage], and the same key during a
    composition. *)
Lemma enter_key_sends_exactly_when_witness :
  mounted draftPage = true /\
  snd (step draftPage (KeyDown false 13 "Enter")) = [Post "42" "hi"] /\
  step draftPage (KeyDown true 229 "Enter") = (draftPage, []).
Proof.
  assert (M : mounted draftPage = true) by (vm_compute; reflexivity).
  destruct (enter_key_sends_exactly_when draftPage false 13 "Enter" M) as [A _].
  destruct (enter_key_sends_exactly_when draftPage true 229 "Enter" M) as [_ B].
  split; [exact M|]. split.
  - destruct A as (A&_); [vm_compute; reflexivity|].
    rewrite A. vm_compute. reflexivity.
  - apply B. vm_compute. reflexivity.
Defined.

(** Witness of X22: the post of [sendingPage] succeeds. *)
Lemma successful_send_reloads_and_clears_witness :
  mounted sendingPage = true /\ memNat 1 (posting sendingPage) = true /\
  composingMessage sendingPage = "hi"%string /\
  composingMessage (fst (step sendingPage (PostSettled 1 None))) = ""%string /\
  snd (step sendingPage (PostSettled 1 None)) = [Get "42" 3].
Proof.
  assert (M : mounted sendingPage = true) by (vm_compute; reflexivity).
  assert (R : memNat 1 (posting sendingPage) = true) by (vm_compute; reflexivity).
  destruct (successful_send_reloads_and_clears sendingPage 1 M R) as (A&_&_&_&_&B).
  split; [exact M|]. split; [exact R|]. split; [vm_compute; reflexivity|].
  split; [exact A|]. rewrite B. vm_compute. reflexivity.
Defined.

(** Witness of X25: after [quietRun] the fetch of the tick is awaited, with
    cursor 3. *)
Lemma polling_never_stalls_witness :
  mounted (fst (runFromMount "42" (Some demoEl) quietRun)) = true /\
  Js.isEmpty (chatId (fst (runFromMount "42" (Some demoEl) quietRun))) = false /\
  exists f,
    In f (inflight (fst (runFromMount "42" (Some demoEl) quietRun))) /\
    canceled f = false /\ f_sinceId f = 3.
Proof.
  assert (M : mounted (fst (runFromMount "42" (Some demoEl) quietRun)) = true)
    by (vm_compute; reflexivity).
  assert (E : Js.isEmpty (chatId (fst (runFromMount "42" (Some demoEl) quietRun)))
              = false) by (vm_compute; reflexivity).
  assert (F : inflight (fst (runFromMount "42" (Some demoEl) quietRun)) =
              [{| rid := 1; f_chatId := "42"; f_sinceId := 3;
                  f_messages := Some [demoMessage 3]; canceled := false |}])
    by (vm_compute; reflexivity).
  assert (T : interval (fst (runFromMount "42" (Some demoEl) quietRun)) = false)
    by (vm_compute; reflexivity).
  split; [exact M|]. split; [exact E|].
  destruct (polling_never_stalls "42" (Some demoEl) quietRun M E)
    as [(f&Hf&Cf&_)|(Hi&_)].
  - exists f. split; [exact Hf|]. split; [exact Cf|].
    rewrite F in Hf. destruct Hf as [<-|[]]. reflexivity.
  - rewrite T in Hi. discriminate Hi.
Defined.

(** Witness of X23: the post of [sendingPage] fails with status 500. *)
Lemma failed_send_keeps_the_draft_witness :
  mounted sendingPage = true /\ memNat 1 (posting sendingPage) = true /\
  snd (step sendingPage (PostSettled 1 (Some (HTTPError 500))))
  = [ConsoleError (HTTPError 500)] /\
  composingMessage (fst (step sendingPage (PostSettled 1 (Some (HTTPError 500)))))
  = "hi"%string.
Proof.
  assert (M : mounted sendingPage = true) by (vm_compute; reflexivity).
  assert (R : memNat 1 (posting sendingPage) = true) by (vm_compute; reflexivity).
  destruct (failed_send_keeps_the_draft sendingPage 1 (HTTPError 500) M R)
    as (A&B&_).
  split; [exact M|]. split; [exact R|]. split; [exact A|].
  rewrite B. vm_compute. reflexivity.
Defined.

End ChatPageFacts.

(** * Properties of the survey page in use *)

Module SurveyFormFacts.
Import Survey SurveyForm SurveyFacts.
#[local] Open Scope list_scope.

(** ** The checks of [handleNextQ], step by step *)

Lemma next_step0 s :
  qnum s = 0 ->
  handleNextQ s =
  if privacyCheck s then Normal (setQnum 1 s, None)
  else Normal (s, Some (note "請詳閱隱私群政策！" "閱讀完記得勾選方框表示同意喔～")).
Proof.
  intros E. destruct s as [q pc f]. cbn in E. subst q.
  unfold handleNextQ, reject, advance, note. cbn [qnum privacyCheck values Z.eqb Z.ltb Z.compare].
  destruct pc; reflexivity.
Qed.

Lemma next_step1 s :
  qnum s = 1 ->
  handleNextQ s =
  match step1Blank (values s) with
  | Throw e => Throw e
  | Normal errorMessage =>
      if negb (Js.isEmpty errorMessage)
      then Normal (s, Some (note "尚有欄位未填寫！" (errorMessage ++ "不可空白")%string))
      else if phoneRejected (phone (values s))
      then Normal (s, Some (note "手機號碼不正確！" "請再檢查一次您的手機號碼"))
      else Normal (setQnum 2 s, None)
  end.
Proof.
  intros E. destruct s as [q pc f]. cbn in E. subst q.
  unfold handleNextQ, reject, advance, note.
  cbn [qnum privacyCheck values Z.eqb Pos.eqb Z.ltb Z.compare Pos.compare Pos.compare_cont].
  destruct (step1Blank f) as [e|e]; [|reflexivity].
  destruct (negb _); [reflexivity|]. destruct (phoneRejected _); reflexivity.
Qed.

(** The blank tests of step 1 throw exactly when [phone] holds a number. *)
Lemma step1Blank_text f p :
  phone f = Str p ->
  step1Blank f =
  Normal (
    let e1 := if Js.isEmpty (Js.trim (name f)) then "姓名" else "" in
    let e2 := if Js.isEmpty (Js.trim p) then addField e1 "手機" "、手機" else e1 in
    let e3 := if Js.isEmpty (Js.trim (nickname f)) then addField e2 "暱稱" "、暱稱" else e2 in
    if Js.isEmpty (Js.trim (gender f)) then addField e3 "性別" "、性別" else e3)%string.
Proof. intros E. unfold step1Blank. rewrite E. reflexivity. Qed.

Lemma step1Blank_number f n : phone f = Num n -> step1Blank f = Throw TypeError.
Proof. intros E. unfold step1Blank. rewrite E. reflexivity. Qed.

Lemma next_step2 s :
  qnum s = 2 ->
  handleNextQ s =
  if (toNumber (height (values s)) <? 30) || (toNumber (weight (values s)) <? 15)
  then Normal (s, Some (note "身高或體重可能不正確！" "請再檢查一次您輸入的身高、體重～"))
  else Normal (setQnum 3 s, None).
Proof.
  intros E. destruct s as [q pc f]. cbn in E. subst q.
  unfold handleNextQ, reject, advance, note.
  cbn [qnum privacyCheck values Z.eqb Pos.eqb].
  destruct (_ || _); reflexivity.
Qed.

Lemma next_step3 s :
  qnum s = 3 ->
  handleNextQ s =
  if negb (Js.isEmpty (step3Blank (values s)))
  then Normal (s, Some (note "尚有欄位未填寫！" (step3Blank (values s) ++ "不可空白")%string))
  else if 168 <=? toNumber (avgHours (values s))
  then Normal (s, Some (note "每週平均時長錯誤！" "再檢查一次吧～"))
  else Normal (setQnum 4 (setValues (setLevel [] (values s)) s), None).
Proof.
  intros E. destruct s as [q pc f]. cbn in E. subst q.
  unfold handleNextQ, reject, advance, note.
  cbn [qnum privacyCheck values Z.eqb Pos.eqb].
  destruct (negb _); [reflexivity|]. destruct (168 <=? _); reflexivity.
Qed.

Lemma next_step4 s :
  qnum s = 4 ->
  handleNextQ s =
  if Nat.eqb (List.length (interests (values s)))
       (List.length (filterTrue (level (values s))))
  then Normal (setQnum 5 s, None)
  else Normal (s, Some (note "尚有欄位未填寫喔！" "再檢查一遍是否所有題目都填寫了吧！")).
Proof.
  intros E. destruct s as [q pc f]. cbn in E. subst q.
  unfold handleNextQ, reject, advance, note.
  cbn [qnum privacyCheck values Z.eqb Pos.eqb].
  destruct (Nat.eqb _ _); reflexivity.
Qed.

Lemma next_unchecked s :
  qnum s < 0 \/ 4 < qnum s -> handleNextQ s = Normal (advance s, None).
Proof.
  intros E. unfold handleNextQ.
  destruct (Z.eqb_spec (qnum s) 0); [lia|].
  destruct (Z.eqb_spec (qnum s) 1); [lia|].
  destruct (Z.eqb_spec (qnum s) 2); [lia|].
  destruct (Z.eqb_spec (qnum s) 3); [lia|].
  destruct (Z.eqb_spec (qnum s) 4); [lia|].
  reflexivity.
Qed.

Lemma qnum_cases q :
  q = 0 \/ q = 1 \/ q = 2 \/ q = 3 \/ q = 4 \/ (q < 0 \/ 4 < q).
Proof. lia. Qed.

(** ** The phone number of step 1 *)

(** X26.  Step 1 when the phone input holds a string and no field is blank:
    [handleNextQ] either advances to step 2 or stays and shows the phone
    notification.  It advances exactly when the string has length 10,
    [Number] of it is not NaN, and its first two characters are 0 and 9.
    For a string of decimal digits, which is what the number input lets the
    user type, that is exactly the shape 09 followed by eight digits; the
    value 0912345678 is accepted. *)
Theorem step1_phone_check pc f p :
  phone f = Str p ->
  Js.isEmpty (Js.trim (name f)) = false ->
  Js.isEmpty (Js.trim p) = false ->
  Js.isEmpty (Js.trim (nickname f)) = false ->
  Js.isEmpty (Js.trim (gender f)) = false ->
  let s := atStep 1 pc f in
  let advances := handleNextQ s = Normal (setQnum 2 s, None) in
  (advances \/
   exists n, handleNextQ s = Normal (s, Some n) /\ title n = "手機號碼不正確！") /\
  (advances <->
   String.length p = 10%nat /\ Js.Number_isNaN p = false /\
   Js.charAt p 0 = Some "0"%char /\ Js.charAt p 1 = Some "9"%char) /\
  (Js.allChars Js.isDecimalDigit p = true ->
   (advances <-> isMobileNumber p = true)) /\
  (p = "0912345678" -> advances).
Proof.
  intros Ep Hn Hp Hk Hg s advances. subst advances s.
  rewrite (step1_decided pc f p Ep Hn Hp Hk Hg).
  set (s := atStep 1 pc f).
  assert (A : (if phoneRejected (Str p)
               then Normal (s, Some {| color := "red"; title := "手機號碼不正確！";
                                       message := "請再檢查一次您的手機號碼" |})
               else Normal (setQnum 2 s, None)) = Normal (setQnum 2 s, None)
              <-> phoneRejected (Str p) = false).
  { destruct (phoneRejected (Str p)); split; intros E;
      try reflexivity; inversion E; discriminate. }
  rewrite A, phoneRejected_false.
  split; [|split; [reflexivity|split]].
  - destruct (phoneRejected (Str p)) eqn:E.
    + right. eexists. split; reflexivity.
    + left. now apply phoneRejected_false.
  - intros Hd. unfold isMobileNumber.
    rewrite !andb_true_iff, Nat.eqb_eq, !charIs_iff, Hd.
    split; [tauto|]. intros (((Hl&H0)&H1)&_). repeat split; auto.
    apply digits_are_numeric; [|exact Hd].
    intros E. rewrite E in Hl. discriminate.
  - intros ->. vm_compute. auto.
Qed.

(** ** What a click on the confirm button does *)

(** X2.  [handleNextQ] ends in one of three ways.  It shows a notification and
    leaves the state as it is; or it shows none and moves on by one step (not
    past step 6), keeping the privacy flag and the form values, except that
    leaving step 3 empties the self-ratings; or it throws a TypeError, having
    set and shown nothing.  It throws exactly at step 1 when the phone input
    holds a number, whatever the other fields hold. *)
Theorem next_notifies_or_advances s :
  ((exists n, handleNextQ s = Normal (s, Some n)) \/
   (exists s', handleNextQ s = Normal (s', None) /\
      qnum s' = (if qnum s <? 6 then qnum s + 1 else qnum s) /\
      privacyCheck s' = privacyCheck s /\
      values s' = (if qnum s =? 3 then setLevel [] (values s) else values s)) \/
   handleNextQ s = Throw TypeError) /\
  (handleNextQ s = Throw TypeError <->
   qnum s = 1 /\ exists n, phone (values s) = Num n).
Proof.
  assert (T : forall q, qnum s = q -> q <> 1 ->
              ~ (qnum s = 1 /\ exists n, phone (values s) = Num n)) by (intros; lia).
  destruct (qnum_cases (qnum s)) as [E|[E|[E|[E|[E|E]]]]].
  - rewrite (next_step0 s E). split.
    + destruct (privacyCheck s) eqn:P; [right; left | left; eauto].
      eexists. split; [reflexivity|]. rewrite E. cbn. auto.
    + split; [destruct (privacyCheck s); discriminate | intros [K _]; lia].
  - rewrite (next_step1 s E).
    destruct (phone (values s)) as [p|n] eqn:Ep.
    + rewrite (step1Blank_text _ p Ep). cbv zeta. split.
      * destruct (negb _); [left; eauto|].
        destruct (phoneRejected _); [left; eauto | right; left].
        eexists. split; [reflexivity|]. rewrite E. cbn. auto.
      * split; [|intros [_ [n K]]; discriminate K].
        destruct (negb _); [discriminate|].
        destruct (phoneRejected _); discriminate.
    + rewrite (step1Blank_number _ n Ep). split; [auto|].
      split; [eauto | reflexivity].
  - rewrite (next_step2 s E). split.
    + destruct (_ || _); [left; eauto | right; left].
      eexists. split; [reflexivity|]. rewrite E. cbn. auto.
    + split; [destruct (_ || _); discriminate | intros [K _]; lia].
  - rewrite (next_step3 s E). split.
    + destruct (negb _); [left; eauto|].
      destruct (168 <=? _); [left; eauto | right; left].
      eexists. split; [reflexivity|]. rewrite E. cbn. auto.
    + split; [|intros [K _]; lia].
      destruct (negb _); [discriminate|]. destruct (168 <=? _); discriminate.
  - rewrite (next_step4 s E). split.
    + destruct (Nat.eqb _ _); [right; left | left; eauto].
      eexists. split; [reflexivity|]. rewrite E. cbn. auto.
    + split; [destruct (Nat.eqb _ _); discriminate | intros [K _]; lia].
  - rewrite (next_unchecked s E). split.
    + right; left. eexists. split; [reflexivity|]. unfold advance.
      destruct (Z.eqb_spec (qnum s) 3); [lia|].
      destruct (qnum s <? 6); cbn; auto.
    + split; [discriminate | intros [K _]; lia].
Qed.

(** ** The notification of blank fields *)

Lemma step1Blank_join f p :
  phone f = Str p -> step1Blank f = Normal (joinWith "、" (blankFields1 f p)).
Proof.
  intros E. rewrite (step1Blank_text f p E). cbv zeta.
  unfold blankFields1, blank, addField.
  destruct (Js.isEmpty (Js.trim (name f))), (Js.isEmpty (Js.trim p)),
    (Js.isEmpty (Js.trim (nickname f))), (Js.isEmpty (Js.trim (gender f)));
    reflexivity.
Qed.

Lemma step3Blank_join f : step3Blank f = joinWith "、" (blankFields3 f).
Proof.
  unfold step3Blank, blankFields3, addField.
  destruct (Nat.eqb (List.length (interests f)) 0), (avgHours f),
    (Nat.eqb (List.length (regularTime f)) 0); reflexivity.
Qed.

Lemma joined1_empty f p :
  Js.isEmpty (joinWith "、" (blankFields1 f p)) = true <-> blankFields1 f p = [].
Proof.
  unfold blankFields1.
  destruct (blank (name f)), (blank p), (blank (nickname f)),
    (blank (gender f)); cbn; split; congruence.
Qed.

Lemma step3Blank_empty f :
  Js.isEmpty (step3Blank f) = true <-> blankFields3 f = [].
Proof.
  rewrite step3Blank_join. unfold blankFields3.
  destruct (Nat.eqb (List.length (interests f)) 0), (avgHours f),
    (Nat.eqb (List.length (regularTime f)) 0); cbn; split; congruence.
Qed.

(** X3.  At steps 1 and 3 the text built by the repeated [errorMessage +=] is
    the list of the labels of the blank fields, in the order of the form, with
    an ideographic comma between them; at step 1 this is so when the phone
    input holds a string.  When a field is blank the click stays on the step
    and shows that list followed by 不可空白, whatever the other checks of the
    step would say.  When the phone input holds a number, step 1 shows no
    list, whichever fields are blank: the call throws. *)
Theorem blank_fields_are_listed pc f :
  (forall p, phone f = Str p ->
     step1Blank f = Normal (joinWith "、" (blankFields1 f p))) /\
  step3Blank f = joinWith "、" (blankFields3 f) /\
  (forall p, phone f = Str p -> blankFields1 f p <> [] ->
     handleNextQ (atStep 1 pc f) =
     Normal (atStep 1 pc f,
             Some {| color := "red"; title := "尚有欄位未填寫！";
                     message := joinWith "、" (blankFields1 f p) ++ "不可空白" |})) /\
  (blankFields3 f <> [] ->
   handleNextQ (atStep 3 pc f) =
   Normal (atStep 3 pc f,
           Some {| color := "red"; title := "尚有欄位未填寫！";
                   message := joinWith "、" (blankFields3 f) ++ "不可空白" |})) /\
  (forall n, phone f = Num n -> handleNextQ (atStep 1 pc f) = Throw TypeError).
Proof.
  split; [apply step1Blank_join|]. split; [apply step3Blank_join|].
  split; [|split].
  - intros p Ep H. rewrite next_step1 by reflexivity. cbn [values atStep].
    rewrite (step1Blank_join f p Ep).
    destruct (Js.isEmpty (joinWith "、" (blankFields1 f p))) eqn:E.
    + apply joined1_empty in E. contradiction.
    + reflexivity.
  - intros H. rewrite next_step3 by reflexivity. cbn [values atStep].
    destruct (Js.isEmpty (step3Blank f)) eqn:E.
    + apply step3Blank_empty in E. contradiction.
    + cbn [negb]. now rewrite step3Blank_join.
  - intros n Ep. rewrite next_step1 by reflexivity. cbn [values atStep].
    now rewrite (step1Blank_number f n Ep).
Qed.

(** ** Steps 2 and 3 *)

Lemma step2_ok f :
  (toNumber (height f) <? 30) || (toNumber (weight f) <? 15) = false
  <-> step2Passed f.
Proof.
  unfold step2Passed. rewrite orb_false_iff, !Z.ltb_ge.
  destruct (height f) as [h|], (weight f) as [w|]; cbn [toNumber]; split.
  - intros [? ?]. split; eexists; eauto.
  - intros [(h'&E1&?) (w'&E2&?)]. inversion E1. inversion E2. lia.
  - intros [? ?]. lia.
  - intros [_ (w'&E2&_)]. discriminate.
  - intros [? ?]. lia.
  - intros [(h'&E1&_) _]. discriminate.
  - intros [? ?]. lia.
  - intros [(h'&E1&_) _]. discriminate.
Qed.

(** X4.  At step 2 the click moves on to step 3 exactly when the height is at
    least 30 and the weight at least 15; a cleared input counts as 0 and is
    refused.  Otherwise the click stays and shows the height-and-weight
    notification.  The birthday is not looked at. *)
Theorem step2_checks_height_and_weight pc f :
  let s := atStep 2 pc f in
  (handleNextQ s = Normal (atStep 3 pc f, None) <->
   (exists h, height f = Some h /\ 30 <= h) /\
   (exists w, weight f = Some w /\ 15 <= w)) /\
  (handleNextQ s = Normal (atStep 3 pc f, None) \/
   exists n, handleNextQ s = Normal (s, Some n) /\ title n = "身高或體重可能不正確！") /\
  (height f = None \/ weight f = None -> exists n, handleNextQ s = Normal (s, Some n)).
Proof.
  intros s. subst s. rewrite next_step2 by reflexivity. cbn [values atStep].
  pose proof (step2_ok f) as K. unfold step2Passed in K.
  destruct ((toNumber (height f) <? 30) || (toNumber (weight f) <? 15)) eqn:E.
  - split; [|split].
    + split; [discriminate|]. intros H. apply K in H. discriminate.
    + right. eexists. split; reflexivity.
    + intros _. eexists. reflexivity.
  - split; [|split].
    + split; [intros _; now apply K | reflexivity].
    + left. reflexivity.
    + destruct (proj1 K eq_refl) as [(h&Eh&_) (w&Ew&_)].
      intros [H|H]; congruence.
Qed.

Lemma length_zero {A} (l : list A) : Nat.eqb (List.length l) 0 = false <-> l <> [].
Proof. destruct l; cbn; split; congruence. Qed.

Lemma step3_ok f :
  Js.isEmpty (step3Blank f) = true /\ (168 <=? toNumber (avgHours f)) = false
  <-> step3Passed f.
Proof.
  unfold step3Passed. rewrite step3Blank_empty, Z.leb_gt.
  rewrite <- !length_zero. unfold blankFields3.
  destruct (Nat.eqb (List.length (interests f)) 0),
    (Nat.eqb (List.length (regularTime f)) 0), (avgHours f) as [h|];
    cbn [toNumber app]; split;
    try (intros [? ?]; discriminate);
    try (intros (?&?&?); discriminate);
    try (intros (?&?&h'&?&?); discriminate).
  - intros [_ H]. repeat split. eauto.
  - intros (_&_&h'&E&H). inversion E. auto.
Qed.

(** X5.  At step 3 the click moves on to step 4, with the self-ratings emptied,
    exactly when an interest and a regular time are selected and the weekly
    hours are given and below 168.  With the selections made, hours of 168 or
    more are refused with the weekly-hours notification: 200 hours are
    refused, 10 hours are accepted. *)
Theorem step3_checks_habits pc f :
  let s := atStep 3 pc f in
  (handleNextQ s = Normal (atStep 4 pc (setLevel [] f), None) <->
   interests f <> [] /\ regularTime f <> [] /\
   exists h, avgHours f = Some h /\ h < 168) /\
  (forall h, interests f <> [] -> regularTime f <> [] ->
     avgHours f = Some h -> 168 <= h ->
     exists n, handleNextQ s = Normal (s, Some n) /\ title n = "每週平均時長錯誤！") /\
  (exists n,
     handleNextQ (atStep 3 pc (setAvgHours (Some 200) (sampleForm "0912345678" ["1"] [])))
     = Normal (atStep 3 pc (setAvgHours (Some 200) (sampleForm "0912345678" ["1"] [])), Some n)
     /\ title n = "每週平均時長錯誤！") /\
  handleNextQ (atStep 3 pc (setAvgHours (Some 10) (sampleForm "0912345678" ["1"] [])))
  = Normal (atStep 4 pc (setAvgHours (Some 10) (sampleForm "0912345678" ["1"] [])), None).
Proof.
  intros s. subst s. split; [|split; [|split]].
  - rewrite next_step3 by reflexivity. cbn [values atStep].
    pose proof (step3_ok f) as K. unfold step3Passed in K.
    destruct (Js.isEmpty (step3Blank f)) eqn:E1; cbn [negb].
    + destruct (168 <=? toNumber (avgHours f)) eqn:E2.
      * split; [discriminate|]. intros H. apply K in H as [_ H]. discriminate.
      * split; [intros _; apply K; auto | reflexivity].
    + split; [discriminate|]. intros H. apply K in H as [H _]. discriminate.
  - intros h Hi Hr Ha Hh. rewrite next_step3 by reflexivity. cbn [values atStep].
    assert (E1 : Js.isEmpty (step3Blank f) = true).
    { apply step3Blank_empty. unfold blankFields3.
      apply length_zero in Hi, Hr. now rewrite Hi, Hr, Ha. }
    rewrite E1, Ha. cbn [negb toNumber].
    apply Z.leb_le in Hh. rewrite Hh. eexists. split; reflexivity.
  - eexists. split; reflexivity.
  - reflexivity.
Qed.

(** X6.  Going back from step 4 to step 3 and confirming step 3 again throws
    the self-ratings away, whatever they were: the state is at step 4 with no
    rating, and a further click is refused with the notification of step 4. *)
Theorem ratings_are_emptied_on_leaving_step3 pc f :
  interests f <> [] -> regularTime f <> [] ->
  (exists h, avgHours f = Some h /\ h < 168) ->
  run (atStep 4 pc f) [ClickBack; ClickNext; ClickNext] =
  (atStep 4 pc (setLevel [] f),
   [{| color := "red"; title := "尚有欄位未填寫喔！";
       message := "再檢查一遍是否所有題目都填寫了吧！" |}]).
Proof.
  intros Hi Hr Ha.
  assert (K : step3Passed f) by (unfold step3Passed; auto).
  apply step3_ok in K as [K1 K2].
  assert (E1 : act (atStep 4 pc f) ClickBack = (atStep 3 pc f, None))
    by reflexivity.
  assert (E2 : act (atStep 3 pc f) ClickNext = (atStep 4 pc (setLevel [] f), None)).
  { unfold act, clickNext. cbn [offered negb]. rewrite next_step3 by reflexivity.
    cbn [values atStep]. now rewrite K1, K2. }
  assert (E3 : act (atStep 4 pc (setLevel [] f)) ClickNext =
               (atStep 4 pc (setLevel [] f),
                Some (note "尚有欄位未填寫喔！" "再檢查一遍是否所有題目都填寫了吧！"))).
  { unfold act, clickNext. cbn [offered negb]. rewrite next_step4 by reflexivity.
    cbn [values atStep setLevel interests level filterTrue flat_map List.length].
    destruct (interests f) as [|i r] eqn:Ei; [congruence | reflexivity]. }
  cbn [run]. rewrite E1, E2, E3. reflexivity.
Qed.

(** ** Runs of the page *)

Lemma survey_run_cons s ev rest :
  fst (run s (ev :: rest)) = fst (run (fst (act s ev)) rest).
Proof.
  cbn [run]. destruct (act s ev) as [s1 n]. cbn [fst].
  destruct (run s1 rest). reflexivity.
Qed.

Lemma step1_ok f p :
  phone f = Str p ->
  Js.isEmpty (joinWith "、" (blankFields1 f p)) = true /\ phoneRejected (phone f) = false
  <-> step1Passed f.
Proof.
  intros Ep. unfold step1Passed. rewrite joined1_empty, Ep. unfold blankFields1.
  destruct (blank (name f)) eqn:B1, (blank p) eqn:B2, (blank (nickname f)) eqn:B3,
    (blank (gender f)) eqn:B4; cbn [app]; split;
    try (intros [? ?]; discriminate);
    try (intros (?&?&?&?&?); discriminate);
    try (intros (_&(q&Eq&Hq)&_); inversion Eq; subst q; congruence).
  - intros [_ H]. repeat split; eauto.
  - intros (_&_&_&_&H). auto.
Qed.

Lemma change_inv s u k :
  Inv s -> qnum s = k ->
  (k <= 1 \/ step1Passed (u (values s))) ->
  (k <= 2 \/ step2Passed (u (values s))) ->
  (k <= 3 \/ step3Passed (u (values s))) ->
  (k <= 4 \/ step4Passed (u (values s))) ->
  Inv (fst (change u s)).
Proof.
  intros [Hq (H0&H1&H2&H3&H4)] E K1 K2 K3 K4.
  unfold change, Inv, passedBefore. cbn [fst qnum privacyCheck values setValues].
  split; [exact Hq|].
  split; [exact H0|].
  split; [intros; destruct K1; [lia | assumption]|].
  split; [intros; destruct K2; [lia | assumption]|].
  split; [intros; destruct K3; [lia | assumption]|].
  intros; destruct K4; [lia | assumption].
Qed.

Lemma next_inv s : Inv s -> Inv (fst (clickNext s)).
Proof.
  intros H. pose proof H as [Hq (H0&H1&H2&H3&H4)]. unfold clickNext.
  destruct (qnum_cases (qnum s)) as [E|[E|[E|[E|[E|E]]]]].
  - rewrite (next_step0 s E). destruct (privacyCheck s) eqn:P; cbn [fst]; [|exact H].
    inv_goals; earlier H0 H1 H2 H3 H4. exact P.
  - rewrite (next_step1 s E).
    destruct (phone (values s)) as [p|n] eqn:Ep;
      [|rewrite (step1Blank_number _ n Ep); exact H].
    rewrite (step1Blank_join _ p Ep).
    destruct (Js.isEmpty (joinWith "、" (blankFields1 (values s) p))) eqn:B;
      cbn [negb fst]; [|exact H].
    destruct (phoneRejected (Str p)) eqn:R; cbn [fst]; [exact H|].
    inv_goals; earlier H0 H1 H2 H3 H4. apply (step1_ok _ p Ep). rewrite Ep. auto.
  - rewrite (next_step2 s E).
    destruct (_ || _) eqn:B; cbn [fst]; [exact H|].
    inv_goals; earlier H0 H1 H2 H3 H4. now apply step2_ok.
  - rewrite (next_step3 s E).
    destruct (Js.isEmpty (step3Blank (values s))) eqn:B; cbn [negb fst]; [|exact H].
    destruct (168 <=? toNumber (avgHours (values s))) eqn:R; cbn [fst]; [exact H|].
    assert (K : step3Passed (values s)) by (apply step3_ok; auto).
    inv_goals; earlier H0 H1 H2 H3 H4. exact K.
  - rewrite (next_step4 s E).
    destruct (Nat.eqb _ _) eqn:B; cbn [fst]; [|exact H].
    apply Nat.eqb_eq in B.
    inv_goals; earlier H0 H1 H2 H3 H4. unfold step4Passed. auto.
  - rewrite (next_unchecked s E). unfold advance.
    destruct (Z.ltb_spec (qnum s) 6); cbn [fst]; [|exact H].
    inv_goals; earlier H0 H1 H2 H3 H4.
Qed.

Lemma act_inv s ev : Inv s -> Inv (fst (act s ev)).
Proof.
  intros H. unfold act.
  destruct (offered s ev) eqn:O; cbn [negb]; [|exact H].
  pose proof H as [Hq (H0&H1&H2&H3&H4)].
  destruct ev; cbn [offered] in O;
    try (apply Z.eqb_eq in O);
    try (apply (change_inv s _ _ H O);
         first [ left; lia
               | right; first [apply H1 | apply H2 | apply H3 | apply H4]; lia ]).
  - (* CheckPrivacy *)
    inv_goals; earlier H0 H1 H2 H3 H4.
  - (* ClickNext *)
    now apply next_inv.
  - (* ClickBack *)
    apply negb_true_iff, Z.eqb_neq in O. unfold handleBack.
    inv_goals; earlier H0 H1 H2 H3 H4.
  - (* ChangeLevel *)
    apply andb_true_iff in O as [O _]. apply Z.eqb_eq in O.
    apply (change_inv s _ _ H O);
      first [ left; lia
            | right; first [apply H1 | apply H2 | apply H3 | apply H4]; lia ].
Qed.

Lemma run_inv s evs : Inv s -> Inv (fst (run s evs)).
Proof.
  revert s. induction evs as [|ev rest IH]; intros s H; [exact H|].
  rewrite survey_run_cons. apply IH. now apply act_inv.
Qed.

Lemma initial_inv : Inv initialState.
Proof. unfold Inv, passedBefore. cbn. repeat split; intros; try lia. Qed.

(** X7.  However the page is used, the step stays within 0..6: the back button
    is not on the first screen, and the confirm button does not go past step
    6.  At step 6, which [completeRun] reaches, the button reads 提交表單, and
    a click on it changes nothing and shows nothing. *)
Theorem step_index_stays_in_range evs :
  let s := fst (run initialState evs) in
  0 <= qnum s <= 6 /\
  (nextLabel s = "提交表單" <-> qnum s = 6) /\
  (qnum s = 6 -> act s ClickNext = (s, None)) /\
  qnum (fst (run initialState completeRun)) = 6.
Proof.
  intros s. destruct (run_inv initialState evs initial_inv) as [Hq _].
  fold s in Hq. split; [exact Hq|]. split; [|split].
  - unfold nextLabel.
    destruct (Z.eqb_spec (qnum s) 0) as [E|E]; [rewrite E; split; [discriminate | lia]|].
    destruct (Z.eqb_spec (qnum s) 6) as [E6|E6]; split; auto; try discriminate; lia.
  - intros E. unfold act, clickNext. cbn [offered negb].
    rewrite next_unchecked by lia. unfold advance. rewrite E. reflexivity.
  - vm_compute. reflexivity.
Qed.

(** X8.  However the page is used, at step [n] the checks of every step before
    [n] hold of the current state: the privacy box is ticked; no field of step
    1 is blank, the phone input holds a string and it passes the phone test; height and weight
    are at least 30 and 15; an interest and a regular time are selected and
    the weekly hours are below 168; and there are as many self-ratings as
    interests.  The inputs of a step are on the page at that step only, and
    going back to a step means passing its check again. *)
Theorem earlier_steps_stay_valid evs :
  let s := fst (run initialState evs) in
  let f := values s in
  (1 <= qnum s -> privacyCheck s = true) /\
  (2 <= qnum s ->
   blank (name f) = false /\
   (exists p, phone f = Str p /\ blank p = false) /\
   blank (nickname f) = false /\ blank (gender f) = false /\
   phoneRejected (phone f) = false) /\
  (3 <= qnum s ->
   (exists h, height f = Some h /\ 30 <= h) /\
   (exists w, weight f = Some w /\ 15 <= w)) /\
  (4 <= qnum s ->
   interests f <> [] /\ regularTime f <> [] /\
   exists h, avgHours f = Some h /\ h < 168) /\
  (5 <= qnum s ->
   List.length (filterTrue (level f)) = List.length (interests f)).
Proof.
  intros s f. destruct (run_inv initialState evs initial_inv) as [_ H].
  exact H.
Qed.

(** ** Witnesses *)

(** Witness of X26: the phone value 0987654321. *)
Lemma step1_phone_check_witness :
  phone (sampleForm "0987654321" [] []) = Str "0987654321" /\
  Js.isEmpty (Js.trim (name (sampleForm "0987654321" [] []))) = false /\
  Js.isEmpty (Js.trim "0987654321") = false /\
  Js.isEmpty (Js.trim (nickname (sampleForm "0987654321" [] []))) = false /\
  Js.isEmpty (Js.trim (gender (sampleForm "0987654321" [] []))) = false /\
  handleNextQ (atStep 1 true (sampleForm "0987654321" [] [])) =
  Normal (atStep 2 true (sampleForm "0987654321" [] []), None).
Proof.
  destruct (step1_phone_check true (sampleForm "0987654321" [] []) "0987654321"
              eq_refl eq_refl eq_refl eq_refl eq_refl) as (_&_&H&_).
  repeat (split; [reflexivity|]).
  apply H; reflexivity.
Defined.

(** Witness of X6: a form at step 4 with two interests, both rated. *)
Lemma ratings_are_emptied_on_leaving_step3_witness :
  interests (sampleForm "0912345678" ["1"; "2"] [Some "3"; Some "4"]) <> [] /\
  regularTime (sampleForm "0912345678" ["1"; "2"] [Some "3"; Some "4"]) <> [] /\
  (exists h, avgHours (sampleForm "0912345678" ["1"; "2"] [Some "3"; Some "4"]) = Some h
             /\ h < 168) /\
  level (values (fst (run (atStep 4 true
                             (sampleForm "0912345678" ["1"; "2"] [Some "3"; Some "4"]))
                        [ClickBack; ClickNext; ClickNext]))) = [].
Proof.
  assert (H1 : interests (sampleForm "0912345678" ["1"; "2"] [Some "3"; Some "4"]) <> [])
    by discriminate.
  assert (H2 : regularTime (sampleForm "0912345678" ["1"; "2"] [Some "3"; Some "4"]) <> [])
    by discriminate.
  assert (H3 : exists h, avgHours (sampleForm "0912345678" ["1"; "2"] [Some "3"; Some "4"])
                         = Some h /\ h < 168)
    by (exists 10; split; [reflexivity | lia]).
  split; [exact H1|]. split; [exact H2|]. split; [exact H3|].
  rewrite (ratings_are_emptied_on_leaving_step3 true _ H1 H2 H3). reflexivity.
Defined.

End SurveyFormFacts.

(** * Properties of the invitation client *)

Module InviteFacts.
Import Invite.

Lemma to_int_proper n :
  Z.to_int n <> Decimal.Pos Decimal.Nil /\ Z.to_int n <> Decimal.Neg Decimal.Nil.
Proof.
  destruct n as [|p|p]; cbn; split; try discriminate;
    intros E; inversion E as [E']; now apply Unsigned.to_uint_nonnil in E'.
Qed.

Lemma numberToString_inj i j :
  numberToString i = numberToString j -> value i = value j.
Proof.
  unfold numberToString. intros E.
  destruct (to_int_proper (value i)) as [Hi1 Hi2].
  destruct (to_int_proper (value j)) as [Hj1 Hj2].
  pose proof (NilZero.isi _ Hi1 Hi2) as Ei. pose proof (NilZero.isi _ Hj1 Hj2) as Ej.
  rewrite E, Ej in Ei. inversion Ei as [E'].
  rewrite <- (DecimalZ.of_to (value i)), <- (DecimalZ.of_to (value j)). now rewrite E'.
Qed.

Lemma append_inj (a b c : string) : (a ++ b = a ++ c -> b = c)%string.
Proof. induction a as [|x a IH]; cbn; intros E; [exact E|]. inversion E. auto. Qed.

(** X1.  [deleteInvite] addresses one invitation.  For identifiers that are safe
    integers, two calls send the same request exactly when they are given the
    same identifier, and so for the paths alone; the path of a deletion is
    never the path [addInvite] posts to, whatever [addInvite] is given.  The
    invitation 17 is deleted at the path invite/invitation/17, and the largest
    safe integer at invite/invitation/9007199254740991. *)
Theorem deleteInvite_addresses_one_invitation i j :
  (deleteInvite i = deleteInvite j <-> value i = value j) /\
  (path (deleteInvite i) = path (deleteInvite j) <-> value i = value j) /\
  (forall Name Place sp_type DateTime Other,
     path (deleteInvite i) <> path (addInvite Name Place sp_type DateTime Other)) /\
  path (deleteInvite id17) = "invite/invitation/17" /\
  path (deleteInvite maxSafeInteger) = "invite/invitation/9007199254740991" /\
  deleteInvite id17 <> deleteInvite id71.
Proof.
  assert (P : forall a b, path (deleteInvite a) = path (deleteInvite b) ->
                          value a = value b).
  { intros a b. cbn [path deleteInvite]. intros E. apply append_inj in E.
    now apply numberToString_inj. }
  assert (Q : forall a b, value a = value b -> deleteInvite a = deleteInvite b).
  { intros a b E. unfold deleteInvite, numberToString. now rewrite E. }
  split; [|split; [|split; [|split; [|split]]]].
  - split; [intros E; apply P; now rewrite E | apply Q].
  - split; [apply P | intros E; now rewrite (Q i j E)].
  - intros Name Place sp_type DateTime Other. cbn [path deleteInvite addInvite].
    intros E. cbn in E. discriminate E.
  - reflexivity.
  - reflexivity.
  - intros E. apply (f_equal path) in E. apply P in E. discriminate E.
Qed.

End InviteFacts.

(** * Properties of the profile page *)

Module InfoFacts.
Import Info.

(** X9.  [InfoPage] shows exactly one of its three bodies: the sign-in notice
    when there is no user, the profile page when the user's profile is
    completed, the survey otherwise.  The title is that of the profile exactly
    when the profile page is shown; a visitor who is not signed in gets the
    title of the survey above the sign-in notice. *)
Theorem info_page_shows_one_body user :
  (exists b, main user = [b]) /\
  (main user = [SignInNotice] <-> user = None) /\
  (main user = [ProfilePage] <-> title user = "使用者的個人資料") /\
  (main user = [SurveyPage] <->
   exists u, user = Some u /\ profileCompleted u = false) /\
  (user = None -> title user = "註冊問卷").
Proof.
  unfold main, title, completed.
  destruct user as [[[|]]|]; cbn; repeat split;
    try (eexists; reflexivity); try discriminate; try reflexivity;
    try (intros (u&E&H); first [discriminate E | inversion E; subst; discriminate H]).
  - intros _. eexists. split; reflexivity.
Qed.

End InfoFacts.
